(** * Strategic credit scoring: the environment and the principal agent

    A shallow embedding of [env/creditScoring_v3.py] (the episodic
    environment with its strategic-response functions) and of
    [model/principal_v5.py] (the actor-critic principal with its bounded
    replay buffer), followed by the properties stated about them.

    Conventions.
    - A NumPy [float64] is a primitive binary64 [float]; a 1-D array is a
      [list float].  Python integers (labels, actions, rewards, lengths) are
      [Z] or [nat].
    - A Python exception is the [Raise] case of [Py.result].
    - Library code that is not part of the repository (the exponential, the
      dot-product kernel, the random shuffle, the torch optimiser) is a
      [Variable] of the section that uses it. *)

From Stdlib Require Import ZArith List String Bool Lia Floats.
From stdpp Require Import base list.
Import ListNotations.
Local Open Scope Z_scope.

(* ------------------------------------------------------------------ *)
(** ** Python results and exceptions *)

Module Py.

Inductive exn : Type :=
| IndexError
| ValueError (msg : string).

Inductive result (A : Type) : Type :=
| Ok (a : A)
| Raise (e : exn).

Arguments Ok {A} a.
Arguments Raise {A} e.

Definition bind {A B : Type} (r : result A) (k : A -> result B) : result B :=
  match r with
  | Ok a => k a
  | Raise e => Raise e
  end.

Definition is_ok {A : Type} (r : result A) : bool :=
  match r with Ok _ => true | Raise _ => false end.

End Py.

Export Py.

Notation "'let!' x ':=' m 'in' k" := (Py.bind m (fun x => k))
  (at level 10, x name, m at level 100, k at level 200).

(* ------------------------------------------------------------------ *)
(** ** Methods of a mutable object *)

Module Eff.

Section WithState.

Variable S : Type.

(** A method of an object with state [S]: it returns a value or raises,
    and in both cases leaves the object in some state (what was mutated
    before an exception stays mutated). *)
Definition M (A : Type) : Type := S -> result A * S.

Definition ret {A : Type} (a : A) : M A := fun s => (Ok a, s).

Definition raise {A : Type} (x : exn) : M A := fun s => (Raise x, s).

Definition lift {A : Type} (r : result A) : M A := fun s => (r, s).

Definition bindM {A B : Type} (m : M A) (k : A -> M B) : M B :=
  fun s =>
    match m s with
    | (Ok a, s') => k a s'
    | (Raise x, s') => (Raise x, s')
    end.

Definition gets {A : Type} (f : S -> A) : M A := fun s => (Ok (f s), s).

Definition modify (f : S -> S) : M unit := fun s => (Ok tt, f s).

(** [seq[i]] on a Python sequence, for [i >= 0]. *)
Definition index {A : Type} (l : list A) (i : nat) : M A :=
  match l !! i with
  | Some a => ret a
  | None => raise IndexError
  end.

(** A [for] loop that collects one value per iteration. *)
Fixpoint for_each {A B : Type} (l : list A) (body : A -> M B)
  : M (list B) :=
  match l with
  | [] => ret []
  | a :: l' =>
      bindM (body a) (fun b =>
      bindM (for_each l' body) (fun bs => ret (b :: bs)))
  end.

End WithState.

Arguments ret {S A} a.
Arguments raise {S A} x.
Arguments lift {S A} r.
Arguments bindM {S A B} m k.
Arguments gets {S A} f.
Arguments modify {S} f.
Arguments index {S A} l i.
Arguments for_each {S A B} l body.

End Eff.

Import Eff.

Notation "'do!' x ':=' m 'in' k" := (Eff.bindM m (fun x => k))
  (at level 10, x name, m at level 100, k at level 200).
Notation "m1 ';;!' m2" := (Eff.bindM m1 (fun _ => m2))
  (at level 100, right associativity).

(* ------------------------------------------------------------------ *)
(** ** The NumPy operations the programs use *)

Module Np.

(** Index normalisation of a 1-D array of length [n]: a negative index
    counts from the end, anything outside [-n, n) is an [IndexError]. *)
Definition norm_index (n : nat) (i : Z) : result nat :=
  if (0 <=? i) && (i <? Z.of_nat n) then Ok (Z.to_nat i)
  else if (- Z.of_nat n <=? i) && (i <? 0) then Ok (Z.to_nat (Z.of_nat n + i))
  else Raise IndexError.

(** [a[idx]] with an integer index array: a gather. *)
Fixpoint take (a : list float) (idx : list Z) : result (list float) :=
  match idx with
  | [] => Ok []
  | i :: idx' =>
      let! k := norm_index (length a) i in
      let! rest := take a idx' in
      match a !! k with
      | Some v => Ok (v :: rest)
      | None => Raise IndexError
      end
  end.

(** [a[idx] = vals] with an integer index array: the values are stored in
    index order, so a repeated index keeps the last value. *)
Fixpoint put (a : list float) (idx : list Z) (vals : list float)
  : result (list float) :=
  match idx, vals with
  | [], [] => Ok a
  | i :: idx', v :: vals' =>
      let! k := norm_index (length a) i in
      put (<[k := v]> a) idx' vals'
  | _, _ => Raise (ValueError "shape mismatch")
  end.

(** Elementwise sum of two arrays of one shape. *)
Fixpoint add (a b : list float) : result (list float) :=
  match a, b with
  | [], [] => Ok []
  | x :: a', y :: b' => let! r := add a' b' in Ok ((x + y)%float :: r)
  | _, _ => Raise (ValueError "operands could not be broadcast together")
  end.

(** [c * a] for a scalar [c]. *)
Definition scale (c : float) (a : list float) : list float :=
  map (fun x => (c * x)%float) a.

(** [a[idx] += v]: NumPy reads [a[idx]], adds, and stores the sums back
    through the same index array. *)
Definition iadd_at (a : list float) (idx : list Z) (v : list float)
  : result (list float) :=
  let! old := take a idx in
  let! new := add old v in
  put a idx new.

(** [np.clip(x, lo, hi)] on one [float64]: [min(max(x, lo), hi)], a NaN
    [x] being returned as it is. *)
Definition maximum (a b : float) : float :=
  if is_nan a then a else if (b <? a)%float then a else b.

Definition minimum (a b : float) : float :=
  if is_nan a then a else if (a <? b)%float then a else b.

Definition clip (x lo hi : float) : float := minimum (maximum x lo) hi.

(** [np.clip] on an array. *)
Definition clip_all (a : list float) (lo hi : float) : list float :=
  map (fun x => clip x lo hi) a.

(** [a / c] for a scalar [c]. *)
Definition div_all (a : list float) (c : float) : list float :=
  map (fun x => (x / c)%float) a.

(** A Python integer as a [float64] (exact below [2^53]). *)
Definition float_of_Z (z : Z) : float :=
  match z with
  | Z0 => 0%float
  | Zpos _ => of_uint63 (Uint63.of_Z z)
  | Zneg _ => (- of_uint63 (Uint63.of_Z (- z)))%float
  end.

(** [np.append(a, v)] for a 1-D array and a scalar. *)
Definition append (a : list float) (v : float) : list float := a ++ [v].

(** [list(range(n))] for a Python integer [n]. *)
Definition range (n : Z) : list Z :=
  map Z.of_nat (seq 0 (Z.to_nat n)).

End Np.

(* ------------------------------------------------------------------ *)
(** ** Module-level configuration of the environment *)

(** The four module constants the environment reads.  [epsilon] is
    annotated [float] in the source and is a [float] here (the literal [1]
    is [1.0]); [strat_features] is an integer index array. *)
Record config : Type := Config {
  epsilon : float;
  strat_features : list Z;
  strategic_response : bool;
  response_method : string
}.

(** The constants as the module sets them: [epsilon = 1],
    [strat_features = np.array([1, 6, 8]) - 1], manipulation on, closed form. *)
Definition default_config : config :=
  {| epsilon := 1%float;
     strat_features := map (fun i => i - 1) [1; 6; 8];
     strategic_response := true;
     response_method := "Close" |}.

Section StrategicResponse.

Variable cfg : config.

(** [strategic_response_Close]: [x'_i = x_i - epsilon * theta_i] on the
    strategic features, written in the source as an in-place
    [modified[strat_features] += -epsilon * theta_strat] on a copy of
    [real_feature].  With manipulation off the input array itself is
    returned.  [epsilon] and [strat_features] are the arguments of the call
    (their defaults are the module constants); [None] stands for all
    features but the bias. *)
Definition strategic_response_Close
    (real_feature policy_weight : list float)
    (epsilon : float) (strat_features : option (list Z))
  : result (list float) :=
  if negb (strategic_response cfg) then Ok real_feature
  else
    let strat_features :=
      match strat_features with
      | None => Np.range (Z.of_nat (length policy_weight) - 1)
      | Some s => s
      end in
    let modified := real_feature in
    let theta := removelast policy_weight in
    let! theta_strat := Np.take theta strat_features in
    Np.iadd_at modified strat_features (Np.scale (- epsilon)%float theta_strat).

End StrategicResponse.

(* ------------------------------------------------------------------ *)
(** ** The environment [creditScoring_v3] *)

Module Env.

(** The fields of the object.  [samplePointer] is only ever set to [0] or
    incremented, hence a [nat].  [response_call_count] is the attribute
    [_response_call_count], created on the first iterative response
    ([0] while it does not exist). *)
Record env : Type := MkEnv {
  mode : string;
  maximum_episode_length : Z;
  samplePointer : nat;
  train_x : list (list float);
  train_y : list Z;
  test_x : list (list float);
  test_y : list Z;
  cost_weight : list float;
  policy_weight : list float;
  trigger_once : bool;
  response_call_count : nat
}.

Definition set_samplePointer (p : nat) (e : env) : env :=
  MkEnv (mode e) (maximum_episode_length e) p (train_x e) (train_y e)
        (test_x e) (test_y e) (cost_weight e) (policy_weight e)
        (trigger_once e) (response_call_count e).

Definition set_policy_weight (w : list float) (e : env) : env :=
  MkEnv (mode e) (maximum_episode_length e) (samplePointer e) (train_x e)
        (train_y e) (test_x e) (test_y e) (cost_weight e) w
        (trigger_once e) (response_call_count e).

Definition set_trigger_once (b : bool) (e : env) : env :=
  MkEnv (mode e) (maximum_episode_length e) (samplePointer e) (train_x e)
        (train_y e) (test_x e) (test_y e) (cost_weight e) (policy_weight e)
        b (response_call_count e).

Definition set_response_call_count (n : nat) (e : env) : env :=
  MkEnv (mode e) (maximum_episode_length e) (samplePointer e) (train_x e)
        (train_y e) (test_x e) (test_y e) (cost_weight e) (policy_weight e)
        (trigger_once e) n.

End Env.

Import Env.

Abbreviation M := (Eff.M env).

Record info : Type := Info {
  true_label : Z;
  next_obs : option (list float)
}.

Record step_result : Type := StepResult {
  sr_obs : option (list float);
  sr_reward : Z;
  sr_terminated : bool;
  sr_truncated : bool;
  sr_info : info
}.

Section Environment.

Variable cfg : config.

(** The torch part of [strategic_response_GA]: the value of
    [z_s.detach().cpu().numpy()] after the Adam iterations, from the raw
    features, the weights, the strategic indices and the cost weights. *)
Variable torch_ascent :
  list float -> list float -> list Z -> list float -> result (list float).

Definition is_train (e : env) : bool := String.eqb (mode e) "train".

Definition active_x (e : env) : list (list float) :=
  if is_train e then train_x e else test_x e.

Definition active_y (e : env) : list Z :=
  if is_train e then train_y e else test_y e.

(** [__init__]: the two splits come from the data files. *)
Definition init (train_x : list (list float)) (train_y : list Z)
    (test_x : list (list float)) (test_y : list Z)
    (policy_weight : list float) (maximum_episode_length : Z) : env :=
  {| mode := "train";
     maximum_episode_length := maximum_episode_length;
     samplePointer := 0;
     train_x := train_x; train_y := train_y;
     test_x := test_x; test_y := test_y;
     cost_weight := repeat 0.5%float 10;
     policy_weight := policy_weight;
     trigger_once := false;
     response_call_count := 0 |}.

(** [strategic_response_GA]: the call counter, the switch, then the torch
    optimisation, whose result is stored at the strategic indices of a copy
    of [real_feature].  The plot written at some call counts is outside the
    model. *)
Definition strategic_response_GA
    (real_feature policy_weight : list float)
    (strat_features : option (list Z)) : M (list float) :=
  modify (fun e => set_response_call_count (S (response_call_count e)) e) ;;!
  if negb (strategic_response cfg) then ret real_feature
  else
    let n_features := Z.of_nat (length policy_weight) - 1 in
    let strat_features :=
      match strat_features with
      | None => Np.range n_features
      | Some s => s
      end in
    do! cost := gets cost_weight in
    do! z_s := lift (torch_ascent real_feature policy_weight
                       strat_features cost) in
    let modified := real_feature in
    lift (Np.put modified strat_features z_s).

(** [_get_obs]: the row at the cursor, through the configured response.
    [trigger_once] records that the first closed-form response was
    printed. *)
Definition _get_obs : M (list float) :=
  do! e := gets id in
  do! sample := index (active_x e) (samplePointer e) in
  if String.eqb (response_method cfg) "GA" then
    strategic_response_GA sample (policy_weight e) None
  else if String.eqb (response_method cfg) "Close" then
    do! observation :=
      lift (strategic_response_Close cfg sample (policy_weight e)
              (epsilon cfg) (Some (strat_features cfg))) in
    modify (set_trigger_once true) ;;!
    ret observation
  else
    raise (ValueError ("Unknown response method: " ++ response_method cfg)).

(** [_get_info]: the label at the cursor and the response to the next row,
    if there is one. *)
Definition _get_info : M info :=
  do! e := gets id in
  do! target := index (active_y e) (samplePointer e) in
  let max_len := length (active_x e) in
  let next_idx := S (samplePointer e) in
  do! next_obs :=
    (if (next_idx <? max_len)%nat then
       do! next_sample := index (active_x e) next_idx in
       if String.eqb (response_method cfg) "GA" then
         do! o := strategic_response_GA next_sample (policy_weight e) None in
         ret (Some o)
       else if String.eqb (response_method cfg) "Close" then
         do! o := lift (strategic_response_Close cfg next_sample
                          (policy_weight e) (epsilon cfg)
                          (Some (strat_features cfg))) in
         ret (Some o)
       else ret None
     else ret None) in
  ret {| true_label := target; next_obs := next_obs |}.

(** [reset]: the cursor back to 0, then observation and info.  The seeding
    done by the base class touches nothing the environment reads. *)
Definition reset : M (list float * info) :=
  modify (set_samplePointer 0) ;;!
  do! observation := _get_obs in
  do! info := _get_info in
  ret (observation, info).

(** The reward branching of [step]. *)
Definition reward_of (action label : Z) : Z :=
  if (action =? 0) && (label =? 0) then 1
  else if (action =? 0) && (label =? 1) then -1
  else if (action =? 1) && (label =? 0) then -1
  else 1.

(** [step].  The weights handed in replace the environment's; an array the
    caller shares with the environment and updates in place between two
    calls has the effect of handing the updated weights to the next call. *)
Definition step (action : Z) (previous_policy_weight : option (list float))
  : M step_result :=
  do! e := gets id in
  do! label := index (active_y e) (samplePointer e) in
  let reward := reward_of action label in
  (match previous_policy_weight with
   | Some w => modify (set_policy_weight w)
   | None => ret tt
   end) ;;!
  let max_len := length (active_x e) in
  let next_idx := S (samplePointer e) in
  let terminated := (max_len <=? next_idx)%nat in
  let truncated := maximum_episode_length e <? Z.of_nat next_idx in
  if negb (terminated || truncated) then
    modify (set_samplePointer next_idx) ;;!
    do! next_obs := _get_obs in
    do! info := _get_info in
    ret (StepResult (Some next_obs) reward terminated truncated info)
  else
    do! info := _get_info in
    ret (StepResult None reward terminated truncated info).

(** The episode the reward property describes: [reset], then [step] with the
    label reported for the cursor (and the weights the caller supplies at
    that step, if any) until a step ends the episode.  The flag says whether
    the loop ended before [fuel] ran out. *)
Fixpoint oracle_loop (fuel : nat) (ws : nat -> option (list float)) (k : nat)
    (i : info) : Eff.M env (list step_result * bool) :=
  match fuel with
  | O => ret ([], false)
  | S fuel' =>
      do! r := step (true_label i) (ws k) in
      if sr_terminated r || sr_truncated r then ret ([r], true)
      else
        do! rest := oracle_loop fuel' ws (S k) (sr_info r) in
        ret (r :: fst rest, snd rest)
  end.

Definition oracle_episode (fuel : nat) (ws : nat -> option (list float))
  : Eff.M env (list step_result * bool) :=
  do! oi := reset in
  oracle_loop fuel ws 0 (snd oi).

(** The closed form is configured and, when manipulation is on, every row
    of the active split has the length of the weights and the strategic
    indices are non-bias feature indices. *)
Definition close_ready (e : env) : Prop :=
  response_method cfg = "Close"%string /\
  (strategic_response cfg = true ->
   Forall (fun row => length row = length (policy_weight e)) (active_x e) /\
   Forall (fun i => 0 <= i < Z.of_nat (length (policy_weight e)) - 1)
          (strat_features cfg)).

(** The configured method is neither of the two the environment knows. *)
Definition unknown_method : Prop :=
  String.eqb (response_method cfg) "GA" = false /\
  String.eqb (response_method cfg) "Close" = false.

End Environment.

(* ------------------------------------------------------------------ *)
(** ** The agent [Principal_v5] *)

Definition clipVal_td : float := 10%float.
Definition clipVal_grad_log_pi : float := 10%float.
Definition clipVal_policyWeight : float := 10%float.

(** Python's builtin [max] of two: the first unless the second is greater. *)
Definition py_max (a b : float) : float := if (a <? b)%float then b else a.

(** The tuple [(obs, action, reward, terminated, next_obs, true_label)].
    [reward] is a [float] in the signature of [update]; the integer reward
    of the environment enters the arithmetic as that float. *)
Record transition : Type := Transition {
  t_obs : list float;
  t_action : Z;
  t_reward : float;
  t_terminated : bool;
  t_next_obs : option (list float);
  t_true_label : Z
}.

Module Principal.

Record acc_detail : Type := AccDetail {
  predicted_prob : float;
  predicted_label : Z;
  detail_true_label : Z;
  expected_accuracy : float;
  detail_reward : float
}.

(** [buffer] is the [deque(maxlen=buffer_size)], oldest entry first. *)
Record agent : Type := MkAgent {
  discount_factor : float;
  lr_a : float;
  lr_c : float;
  previous_policy_weight : list float;
  q_weights : list float;
  buffer_size : nat;
  buffer : list transition;
  batch_update_count : nat;
  training_error : list float;
  training_expected_acc_list : list float;
  training_acc_detail : list acc_detail;
  training_rewards : list float;
  training_policy_weights : list (list float);
  training_single_policy_weight_update : list (list float);
  training_batch_acc : list float
}.

Definition set_weights (theta q : list float) (a : agent) : agent :=
  MkAgent (discount_factor a) (lr_a a) (lr_c a) theta q (buffer_size a)
    (buffer a) (batch_update_count a) (training_error a)
    (training_expected_acc_list a) (training_acc_detail a)
    (training_rewards a) (training_policy_weights a)
    (training_single_policy_weight_update a) (training_batch_acc a).

Definition set_buffer (b : list transition) (a : agent) : agent :=
  MkAgent (discount_factor a) (lr_a a) (lr_c a) (previous_policy_weight a)
    (q_weights a) (buffer_size a) b (batch_update_count a)
    (training_error a) (training_expected_acc_list a)
    (training_acc_detail a) (training_rewards a)
    (training_policy_weights a) (training_single_policy_weight_update a)
    (training_batch_acc a).

Definition set_batch_update_count (n : nat) (a : agent) : agent :=
  MkAgent (discount_factor a) (lr_a a) (lr_c a) (previous_policy_weight a)
    (q_weights a) (buffer_size a) (buffer a) n (training_error a)
    (training_expected_acc_list a) (training_acc_detail a)
    (training_rewards a) (training_policy_weights a)
    (training_single_policy_weight_update a) (training_batch_acc a).

Definition log_weight_update (u : list float) (a : agent) : agent :=
  MkAgent (discount_factor a) (lr_a a) (lr_c a) (previous_policy_weight a)
    (q_weights a) (buffer_size a) (buffer a) (batch_update_count a)
    (training_error a) (training_expected_acc_list a)
    (training_acc_detail a) (training_rewards a)
    (training_policy_weights a)
    (training_single_policy_weight_update a ++ [u]) (training_batch_acc a).

Definition log_batch_acc (m : float) (a : agent) : agent :=
  MkAgent (discount_factor a) (lr_a a) (lr_c a) (previous_policy_weight a)
    (q_weights a) (buffer_size a) (buffer a) (batch_update_count a)
    (training_error a) (training_expected_acc_list a)
    (training_acc_detail a) (training_rewards a)
    (training_policy_weights a) (training_single_policy_weight_update a)
    (training_batch_acc a ++ [m]).

(** The records [update] appends after the buffer handling. *)
Definition log_step (err acc : float) (d : acc_detail) (r : float)
    (a : agent) : agent :=
  MkAgent (discount_factor a) (lr_a a) (lr_c a) (previous_policy_weight a)
    (q_weights a) (buffer_size a) (buffer a) (batch_update_count a)
    (training_error a ++ [err]) (training_expected_acc_list a ++ [acc])
    (training_acc_detail a ++ [d]) (training_rewards a ++ [r])
    (training_policy_weights a ++ [previous_policy_weight a])
    (training_single_policy_weight_update a) (training_batch_acc a).

(** [deque.append] under [maxlen]: the entry goes to the right end and,
    when that makes the deque longer than [maxlen], the leftmost entry is
    dropped. *)
Definition deque_append {A : Type} (maxlen : nat) (d : list A) (x : A)
  : list A :=
  let d' := d ++ [x] in
  if (maxlen <? length d')%nat then tail d' else d'.

End Principal.

Import Principal.

Section Agent.

(** [np.exp], the summation kernel of [np.dot] on two arrays of one
    length, [np.mean], and the permutation [np.random.shuffle] applies on
    its n-th use. *)
Variable np_exp : float -> float.
Variable dot_kernel : list float -> list float -> float.
Variable np_mean : list float -> float.
Variable shuffle : nat -> list transition -> list transition.

(** [np.dot] of two 1-D arrays. *)
Definition np_dot (a b : list float) : result float :=
  if (length a =? length b)%nat then Ok (dot_kernel a b)
  else Raise (ValueError "shapes not aligned").

(** The body of the [for] loop of [batch_update]; its value is the entry
    appended to [accs]. *)
Definition process_transition (t : transition) : Eff.M agent float :=
  let obs := t_obs t in
  let action := Np.float_of_Z (t_action t) in
  let q_input := Np.append obs action in
  do! a := gets id in
  do! q_value := lift (np_dot (q_weights a) q_input) in
  do! max_q_next :=
    lift (match t_terminated t, t_next_obs t with
          | false, Some next_obs =>
              let! q_next_0 := np_dot (q_weights a) (Np.append next_obs 0%float) in
              let! q_next_1 := np_dot (q_weights a) (Np.append next_obs 1%float) in
              Ok (py_max q_next_0 q_next_1)
          | _, _ => Ok 0%float
          end) in
  let td_target := (t_reward t + discount_factor a * max_q_next)%float in
  let td_error := (td_target - q_value)%float in
  let td_error := Np.clip td_error (- clipVal_td)%float clipVal_td in
  do! q_new := lift (Np.add (q_weights a)
                       (Np.scale (lr_c a * td_error)%float q_input)) in
  modify (fun a => set_weights (previous_policy_weight a) q_new a) ;;!
  do! a := gets id in
  do! logits := lift (np_dot (previous_policy_weight a) obs) in
  let prob := (1 / (1 + np_exp (- logits)))%float in
  let grad_log_pi := Np.scale (action - prob)%float obs in
  let grad_log_pi :=
    Np.clip_all grad_log_pi (- clipVal_grad_log_pi)%float clipVal_grad_log_pi in
  let weight_update :=
    Np.div_all (Np.scale (lr_a a * td_error)%float grad_log_pi)
               (Np.float_of_Z (Z.of_nat (buffer_size a))) in
  let weight_update :=
    Np.clip_all weight_update (- clipVal_policyWeight)%float clipVal_policyWeight in
  do! theta_new := lift (Np.add (previous_policy_weight a) weight_update) in
  modify (fun a => set_weights theta_new (q_weights a) a) ;;!
  modify (log_weight_update weight_update) ;;!
  let correct_prob :=
    if t_true_label t =? 1 then prob else (1 - prob)%float in
  ret correct_prob.

(** [batch_update]: nothing below capacity; otherwise count the update,
    shuffle a copy of the buffer, process it in that order, clear the
    buffer and record the mean of [accs]. *)
Definition batch_update : Eff.M agent unit :=
  do! a := gets id in
  if (length (buffer a) <? buffer_size a)%nat then ret tt
  else
    modify (set_batch_update_count (S (batch_update_count a))) ;;!
    let batch := shuffle (batch_update_count a) (buffer a) in
    do! accs := for_each batch process_transition in
    modify (set_buffer []) ;;!
    modify (log_batch_acc (np_mean accs)).

(** [update]: buffer the transition, run [batch_update] when the buffer
    has reached its capacity, then append the per-step records. *)
Definition update (obs : list float) (action : Z) (reward : float)
    (terminated : bool) (info : info) (prob : float) : Eff.M agent unit :=
  let true_label := true_label info in
  let next_obs := next_obs info in
  let sample := Transition obs action reward terminated next_obs true_label in
  modify (fun a => set_buffer (deque_append (buffer_size a) (buffer a) sample) a) ;;!
  do! a := gets id in
  (if (buffer_size a <=? length (buffer a))%nat then batch_update else ret tt) ;;!
  let pred := action in
  let correct_prob :=
    if true_label =? 1 then prob else (1 - prob)%float in
  modify (log_step (abs (prob - Np.float_of_Z true_label))%float correct_prob
            (AccDetail prob pred true_label correct_prob reward) reward).

(** One call of [update], by its arguments. *)
Record observed : Type := Observed {
  o_obs : list float;
  o_action : Z;
  o_reward : float;
  o_terminated : bool;
  o_info : info;
  o_prob : float
}.

Definition sample_of (c : observed) : transition :=
  Transition (o_obs c) (o_action c) (o_reward c) (o_terminated c)
    (next_obs (o_info c)) (true_label (o_info c)).

Definition observe (c : observed) : Eff.M agent unit :=
  update (o_obs c) (o_action c) (o_reward c) (o_terminated c) (o_info c)
    (o_prob c).

(** The agent after a sequence of calls, whether or not one of them
    raised (the caller may catch the exception and go on). *)
Fixpoint observe_all (cs : list observed) (a : agent) : agent :=
  match cs with
  | [] => a
  | c :: cs' => observe_all cs' (snd (observe c a))
  end.

(** *** The update rule as the specification words it

    The definitions below follow the specification of [batch_update], step
    by step, as pure functions of the weights; they are what the embedding
    of the source above is compared with. *)

(** [Q(obs, a) = ActionValueWeights . concat(obs, a)]. *)
Definition spec_Q (q obs : list float) (a : float) : float :=
  dot_kernel q (obs ++ [a]).

(** [r + gamma * max(Q(next_obs, 0), Q(next_obs, 1))] if not terminated and
    [next_obs] present, else [r + gamma * 0]. *)
Definition spec_td_target (gamma : float) (q : list float) (t : transition)
  : float :=
  match t_terminated t, t_next_obs t with
  | false, Some next_obs =>
      (t_reward t
       + gamma * py_max (spec_Q q next_obs 0) (spec_Q q next_obs 1))%float
  | _, _ => (t_reward t + gamma * 0)%float
  end.

(** TD error: target minus [Q(obs, action)], clipped to [-10, +10]. *)
Definition spec_td_error (gamma : float) (q : list float) (t : transition)
  : float :=
  Np.clip (spec_td_target gamma q t
           - spec_Q q (t_obs t) (Np.float_of_Z (t_action t)))%float
          (-10)%float 10%float.

(** [lr_critic * td_error * concat(obs, action)]. *)
Definition spec_critic_increment (lr_critic td_error : float) (t : transition)
  : list float :=
  map (fun x => (lr_critic * td_error * x)%float)
      (t_obs t ++ [Np.float_of_Z (t_action t)]).

Definition spec_sigmoid (z : float) : float := (1 / (1 + np_exp (- z)))%float.

(** [(action - p) * obs] with [p = sigmoid(theta . obs)], clipped
    elementwise to [-10, +10]. *)
Definition spec_actor_grad (theta : list float) (t : transition)
  : list float :=
  map (fun x =>
         Np.clip ((Np.float_of_Z (t_action t)
                   - spec_sigmoid (dot_kernel theta (t_obs t))) * x)%float
                 (-10)%float 10%float)
      (t_obs t).

(** [(lr_actor * td_error * grad) / buffer_capacity], itself clipped to
    [-10, +10]. *)
Definition spec_policy_term (lr_actor td_error : float) (capacity : nat)
    (grad : list float) : list float :=
  map (fun g =>
         Np.clip (lr_actor * td_error * g / Np.float_of_Z (Z.of_nat capacity))%float
                 (-10)%float 10%float)
      grad.

(** One transition: the critic weights and the policy weights after it,
    from those before it. *)
Definition spec_transition_step (gamma lr_critic lr_actor : float)
    (capacity : nat) (qw : list float * list float) (t : transition)
  : list float * list float :=
  let td_error := spec_td_error gamma (fst qw) t in
  (zip_with PrimFloat.add (fst qw) (spec_critic_increment lr_critic td_error t),
   zip_with PrimFloat.add (snd qw)
     (spec_policy_term lr_actor td_error capacity
        (spec_actor_grad (snd qw) t))).

(** The transitions of a batch in turn, each against the weights the
    previous ones left. *)
Definition spec_batch (gamma lr_critic lr_actor : float) (capacity : nat)
    (batch : list transition) (qw : list float * list float)
  : list float * list float :=
  fold_left (spec_transition_step gamma lr_critic lr_actor capacity) batch qw.

(** The shapes [process_transition] needs: the observation has the length
    of the policy weights, and so has the next observation if there is
    one. *)
Definition well_shaped (n : nat) (t : transition) : Prop :=
  length (t_obs t) = n /\
  match t_next_obs t with
  | Some next_obs => length next_obs = n
  | None => True
  end.

End Agent.

(** *** Stand-ins for the library functions, to run the agent on examples *)

(** Sequential summation. *)
Definition dot_seq (a b : list float) : float :=
  fold_left PrimFloat.add (zip_with PrimFloat.mul a b) 0%float.

(** A truncated series, in place of [np.exp]. *)
Definition exp_series (x : float) : float :=
  (1 + x * (1 + x / 2 * (1 + x / 3 * (1 + x / 4))))%float.

Definition mean_seq (a : list float) : float :=
  (fold_left PrimFloat.add a 0 / Np.float_of_Z (Z.of_nat (length a)))%float.

(** The permutation that reverses the batch. *)
Definition shuffle_rev (n : nat) (l : list transition) : list transition :=
  rev l.

Definition demo_agent (capacity : nat) : agent :=
  {| discount_factor := 0.5%float; lr_a := 0.5%float; lr_c := 0.25%float;
     previous_policy_weight := [0; 0]%float;
     q_weights := [0.25; 0.25; 0.25]%float;
     buffer_size := capacity; buffer := [];
     batch_update_count := 0;
     training_error := []; training_expected_acc_list := [];
     training_acc_detail := []; training_rewards := [];
     training_policy_weights := [];
     training_single_policy_weight_update := [];
     training_batch_acc := [] |}.

Definition demo_calls : list observed :=
  [ Observed [1; 1]%float 0 1%float false (Info 0 (Some [2; 1]%float)) 0.5%float;
    Observed [2; 1]%float 0 (-1)%float true (Info 1 None) 0.5%float ].

(* ------------------------------------------------------------------ *)
(** ** Concrete instances for the examples *)

(** No torch: the iterative response cannot be computed. *)
Definition no_torch
  : list float -> list float -> list Z -> list float -> result (list float) :=
  fun _ _ _ _ => Raise (ValueError "torch is not available").

(** One strategic feature and a bias; three training rows. *)
Definition demo_config : config :=
  {| epsilon := 1%float; strat_features := [0];
     strategic_response := true; response_method := "Close" |}.

Definition demo_rows : list (list float) :=
  [[1; 1]; [2; 1]; [3; 1]]%float.

Definition demo_labels : list Z := [0; 1; 1].

Definition demo_env (maximum_episode_length : Z) : env :=
  init demo_rows demo_labels [] [] [0.5; 0.25]%float maximum_episode_length.

(** The same with a response method the environment does not know. *)
Definition unknown_config : config :=
  {| epsilon := 1%float; strat_features := [0];
     strategic_response := true; response_method := "Newton" |}.

(* ------------------------------------------------------------------ *)
(** ** Loading the two splits ([utils/data_prep.py], [load_test_data]) *)

Module DataPrep.

(** [np.append(X, np.ones((n, 1)), axis=1)]: the bias column. *)
Definition append_ones (X : list (list float)) : list (list float) :=
  map (fun row => row ++ [1%float]) X.

(** [np.where(Y == v)[0]]: the positions holding [v], in increasing
    order. *)
Fixpoint where_eq_from (v : Z) (Y : list Z) (i : nat) : list nat :=
  match Y with
  | [] => []
  | y :: Y' =>
      if y =? v then i :: where_eq_from v Y' (S i)
      else where_eq_from v Y' (S i)
  end.

Definition where_eq (v : Z) (Y : list Z) : list nat := where_eq_from v Y 0.

(** [a[idx]] for an array of non-negative indices. *)
Fixpoint gather {A : Type} (a : list A) (idx : list nat) : result (list A) :=
  match idx with
  | [] => Ok []
  | i :: idx' =>
      match a !! i with
      | Some v => let! r := gather a idx' in Ok (v :: r)
      | None => Raise IndexError
      end
  end.

(** The number of rows of the majority class that are kept. *)
Definition max_other : nat := Z.to_nat 10000.

(** [load_data], from the scaled feature matrix and the outcome column on
    (reading the file, dropping incomplete rows and the scaling of sklearn
    come before), with [p] the permutation drawn by
    [np.random.permutation].  The raw data frame, returned third, is left
    out. *)
Definition load_data (X_scaled : list (list float)) (Y_all : list Z)
    (p : list nat) : result (list (list float) * list Z) :=
  let X_all := append_ones X_scaled in
  let default_indices := where_eq 1 Y_all in
  let other_indices := firstn max_other (where_eq 0 Y_all) in
  let indices := default_indices ++ other_indices in
  let! X_balanced := gather X_all indices in
  let! Y_balanced := gather Y_all indices in
  let! X_full := gather X_balanced p in
  let! Y_full := gather Y_balanced p in
  Ok (X_full, Y_full).

Definition test_label_threshold : float := 0.5%float.

(** [load_test_data], from the feature matrix of the processed test file
    and the probability columns of the sample entry (its [Id] column
    dropped): bias column, flattening, thresholding. *)
Definition load_test_data (test_data : list (list float))
    (test_prob : list (list float)) : list (list float) * list Z :=
  let test_x := append_ones test_data in
  let test_y := concat test_prob in
  let test_y :=
    map (fun v => if (test_label_threshold <=? v)%float then 1 else 0)
        test_y in
  (test_x, test_y).

End DataPrep.

(* ------------------------------------------------------------------ *)
(** ** Sequences of calls on the environment *)

Inductive env_call : Type :=
| CallReset
| CallStep (action : Z) (previous_policy_weight : option (list float)).

Definition set_mode (m : string) (e : env) : env :=
  MkEnv m (maximum_episode_length e) (samplePointer e) (train_x e)
        (train_y e) (test_x e) (test_y e) (cost_weight e) (policy_weight e)
        (trigger_once e) (response_call_count e).

(** What no call changes: the mode, the horizon, the two splits and the
    cost weights. *)
Definition same_data (e e' : env) : Prop :=
  mode e' = mode e /\
  maximum_episode_length e' = maximum_episode_length e /\
  train_x e' = train_x e /\
  train_y e' = train_y e /\
  test_x e' = test_x e /\
  test_y e' = test_y e /\
  cost_weight e' = cost_weight e.

Section EnvironmentCalls.

Variable cfg : config.
Variable torch_ascent :
  list float -> list float -> list Z -> list float -> result (list float).

(** The object after a call, whether the call returned or raised. *)
Definition run_call (c : env_call) (e : env) : env :=
  match c with
  | CallReset => snd (reset cfg torch_ascent e)
  | CallStep a w => snd (step cfg torch_ascent a w e)
  end.

Definition run_calls (cs : list env_call) (e : env) : env :=
  fold_left (fun e c => run_call c e) cs e.

(** The value of the configured response to a row, as [_get_obs] computes
    it from the weights and the cost weights of the object. *)
Definition respond (row policy_weight cost_weight : list float)
  : result (list float) :=
  if String.eqb (response_method cfg) "GA" then
    if negb (strategic_response cfg) then Ok row
    else
      let! z_s := torch_ascent row policy_weight
                    (Np.range (Z.of_nat (length policy_weight) - 1))
                    cost_weight in
      Np.put row (Np.range (Z.of_nat (length policy_weight) - 1)) z_s
  else if String.eqb (response_method cfg) "Close" then
    strategic_response_Close cfg row policy_weight (epsilon cfg)
      (Some (strat_features cfg))
  else
    Raise (ValueError ("Unknown response method: " ++ response_method cfg)).

(** [__init__] with its two loaders. *)
Definition init_loaded (X_scaled : list (list float)) (Y_all : list Z)
    (p : list nat) (test_data test_prob : list (list float))
    (policy_weight : list float) (maximum_episode_length : Z) : result env :=
  let! train := DataPrep.load_data X_scaled Y_all p in
  let test := DataPrep.load_test_data test_data test_prob in
  Ok (init (fst train) (snd train) (fst test) (snd test) policy_weight
        maximum_episode_length).

End EnvironmentCalls.

(** A stand-in for the torch optimiser, to run the iterative response on
    examples: every strategic coordinate ends at [0.5]. *)
Definition torch_half
  : list float -> list float -> list Z -> list float -> result (list float) :=
  fun _ _ strat_features _ => Ok (map (fun _ => 0.5%float) strat_features).

(* ------------------------------------------------------------------ *)
(** ** The range of a clipped number *)

(** A NaN, or a number of [[-10, 10]]. *)
Definition within_clip (u : float) : Prop :=
  is_nan u = true \/ ((-10 <=? u)%float = true /\ (u <=? 10)%float = true).

(* ------------------------------------------------------------------ *)
(** * Properties *)

(** ** Binary64 arithmetic *)

Section SpecFloatFacts.

Variables prec emax : Z.

Lemma SFopp_binary_round_aux (s : bool) (m e : Z) (l : SpecFloat.location) :
  SFopp (binary_round_aux prec emax s m e l)
  = binary_round_aux prec emax (negb s) m e l.
Proof.
  unfold binary_round_aux.
  destruct (shr_fexp prec emax m e l) as [mrs e1].
  destruct (shr_fexp prec emax _ e1 loc_Exact) as [mrs' e2].
  destruct (shr_m mrs'); simpl; try reflexivity.
  destruct (e2 <=? emax - prec); reflexivity.
Qed.

Lemma SFmul_opp_l (x y : spec_float) :
  SFmul prec emax (SFopp x) y = SFopp (SFmul prec emax x y).
Proof.
  destruct x as [sx | sx | | sx mx ex], y as [sy | sy | | sy my ey];
    simpl; try reflexivity;
    try (destruct sx, sy; reflexivity).
  rewrite SFopp_binary_round_aux.
  destruct sx, sy; reflexivity.
Qed.

Lemma SFsub_add_opp (x y : spec_float) :
  SFsub prec emax x y = SFadd prec emax x (SFopp y).
Proof.
  destruct x as [sx | sx | | sx mx ex], y as [sy | sy | | sy my ey];
    simpl; try reflexivity;
    destruct sx, sy; reflexivity.
Qed.

End SpecFloatFacts.

(** [x + (-e) * t], the value the source computes, is [x - e * t] bit for
    bit. *)
Lemma float_add_opp_mul (x e t : float) :
  (x + (- e) * t = x - e * t)%float.
Proof.
  apply Prim2SF_inj.
  rewrite add_spec, sub_spec, !mul_spec, opp_spec.
  unfold SF64add, SF64sub, SF64mul.
  now rewrite SFmul_opp_l, SFsub_add_opp.
Qed.

(** ** Index arrays inside the bounds *)

Section NpFacts.

Implicit Types (a : list float) (idx : list Z).

Lemma norm_index_nonneg (n : nat) (i : Z) :
  0 <= i < Z.of_nat n -> Np.norm_index n i = Ok (Z.to_nat i).
Proof.
  intros Hi. unfold Np.norm_index.
  destruct (Z.leb_spec 0 i), (Z.ltb_spec i (Z.of_nat n)); try lia.
  reflexivity.
Qed.

(** A gather through indices inside the bounds reads each position. *)
Lemma take_in_range a idx :
  Forall (fun i => 0 <= i < Z.of_nat (length a)) idx ->
  Np.take a idx = Ok (map (fun i => nth (Z.to_nat i) a 0%float) idx).
Proof.
  induction 1 as [| i idx Hi _ IH]; simpl; [reflexivity |].
  rewrite norm_index_nonneg by assumption. simpl.
  rewrite IH. simpl.
  destruct (nth_lookup_or_length a (Z.to_nat i) 0%float) as [-> | Hlen];
    [reflexivity | lia].
Qed.

Lemma add_map2 {A : Type} (f g : A -> float) (l : list A) :
  Np.add (map f l) (map g l) = Ok (map (fun i => (f i + g i)%float) l).
Proof.
  induction l as [| i l IH]; simpl; [reflexivity |].
  rewrite IH. reflexivity.
Qed.

(** A scatter of values that depend on the index only: every stored
    position holds the value of its index, the others are untouched. *)
Lemma put_map_in_range (h : Z -> float) idx : forall a,
  Forall (fun i => 0 <= i < Z.of_nat (length a)) idx ->
  exists r,
    Np.put a idx (map h idx) = Ok r /\
    length r = length a /\
    forall k : nat,
      (In (Z.of_nat k) idx -> (k < length a)%nat -> r !! k = Some (h (Z.of_nat k))) /\
      (~ In (Z.of_nat k) idx -> r !! k = a !! k).
Proof.
  induction idx as [| i idx IH]; intros a Hall; simpl.
  - exists a. split; [reflexivity |]. split; [reflexivity |].
    intros k. split; [intros [] | reflexivity].
  - inversion Hall as [| ? ? Hi Hrest]; subst.
    rewrite norm_index_nonneg by assumption. simpl.
    destruct (IH (<[Z.to_nat i := h i]> a)) as (r & Hput & Hlen & Hr).
    { rewrite length_insert. assumption. }
    rewrite length_insert in Hlen.
    exists r. split; [assumption |]. split; [assumption |].
    intros k. destruct (Hr k) as [Hin Hout]. split.
    + intros [Heq | Hk] Hlt.
      * subst i.
        destruct (in_dec Z.eq_dec (Z.of_nat k) idx) as [Hk | Hk].
        -- apply Hin; [assumption | now rewrite length_insert].
        -- rewrite Hout by assumption. rewrite Nat2Z.id.
           now apply list_lookup_insert_eq.
      * apply Hin; [assumption | now rewrite length_insert].
    + intros Hnot. rewrite Hout by tauto.
      apply list_lookup_insert_ne. intros Heq. apply Hnot. left. lia.
Qed.

Lemma lookup_removelast {A : Type} (l : list A) (k : nat) :
  (S k < length l)%nat -> removelast l !! k = l !! k.
Proof.
  revert k. induction l as [| x l IH]; intros k Hk; simpl in *; [lia |].
  destruct l as [| y l]; simpl in *; [lia |].
  destruct k as [| k]; [reflexivity |].
  simpl. apply IH. lia.
Qed.

Lemma length_removelast {A : Type} (l : list A) :
  length (removelast l) = (length l - 1)%nat.
Proof.
  induction l as [| x l IH]; simpl; [reflexivity |].
  destruct l; simpl in *; lia.
Qed.

End NpFacts.

(** ** The closed-form response *)

(** With manipulation on and index arrays inside the feature range, the
    closed form returns, at each strategic index, the sum the source
    computes and leaves every other position as it was. *)
Lemma strategic_response_Close_sum (cfg : config) (x theta : list float)
    (eps : float) (S : list Z) :
  strategic_response cfg = true ->
  length theta = length x ->
  Forall (fun i => 0 <= i < Z.of_nat (length x) - 1) S ->
  exists x',
    strategic_response_Close cfg x theta eps (Some S) = Ok x' /\
    length x' = length x /\
    forall k : nat,
      (In (Z.of_nat k) S ->
       x' !! k = Some (nth k x 0 + (- eps) * nth k theta 0)%float) /\
      (~ In (Z.of_nat k) S -> x' !! k = x !! k).
Proof.
  intros Hon Hlen HS.
  unfold strategic_response_Close. rewrite Hon. simpl.
  rewrite take_in_range.
  2:{ rewrite length_removelast, Hlen.
      eapply Forall_impl; [exact HS |]. simpl. intros i Hi. lia. }
  simpl. unfold Np.iadd_at.
  rewrite take_in_range.
  2:{ eapply Forall_impl; [exact HS |]. simpl. intros i Hi. lia. }
  simpl. unfold Np.scale. rewrite map_map, add_map2. simpl.
  destruct (put_map_in_range
              (fun i => (nth (Z.to_nat i) x 0
                         + (- eps) * nth (Z.to_nat i) (removelast theta) 0)%float)
              S x) as (r & Hput & Hr_len & Hr).
  { eapply Forall_impl; [exact HS |]. simpl. intros i Hi. lia. }
  exists r. split; [exact Hput |]. split; [exact Hr_len |].
  intros k. destruct (Hr k) as [Hin Hout]. split; [| exact Hout].
  intros Hk.
  assert (Hrange : 0 <= Z.of_nat k < Z.of_nat (length x) - 1).
  { rewrite Forall_forall in HS. apply HS. apply list_elem_of_In. exact Hk. }
  rewrite Hin by (assumption || lia).
  rewrite Nat2Z.id. do 3 f_equal.
  rewrite !nth_lookup, lookup_removelast by lia. reflexivity.
Qed.

(** C1.  Closed-form strategic response: for a feature vector [x], weights
    [theta] of the same length, any [eps] and any index set [S] of non-bias
    feature indices, the function returns a vector [x'] of the length of [x]
    with [x'_i = x_i - eps * theta_i] at every [i] in [S] and [x'_i = x_i]
    at every other position, the trailing bias coordinate included. *)
Theorem strategic_response_Close_exact (cfg : config) (x theta : list float)
    (eps : float) (S : list Z) :
  strategic_response cfg = true ->
  length theta = length x ->
  Forall (fun i => 0 <= i < Z.of_nat (length x) - 1) S ->
  exists x',
    strategic_response_Close cfg x theta eps (Some S) = Ok x' /\
    length x' = length x /\
    (forall (k : nat) (xk tk : float),
        In (Z.of_nat k) S -> x !! k = Some xk -> theta !! k = Some tk ->
        x' !! k = Some (xk - eps * tk)%float) /\
    (forall k : nat, ~ In (Z.of_nat k) S -> x' !! k = x !! k) /\
    x' !! (length x - 1)%nat = x !! (length x - 1)%nat.
Proof.
  intros Hon Hlen HS.
  destruct (strategic_response_Close_sum cfg x theta eps S Hon Hlen HS)
    as (x' & Hrun & Hlen' & Hx').
  exists x'. repeat split; try assumption.
  - intros k xk tk Hk Hxk Htk.
    destruct (Hx' k) as [Hin _]. rewrite Hin by assumption.
    rewrite (nth_lookup_Some _ _ _ _ Hxk), (nth_lookup_Some _ _ _ _ Htk).
    now rewrite float_add_opp_mul.
  - intros k Hk. now apply Hx'.
  - apply Hx'. intros Hbias.
    rewrite Forall_forall in HS.
    apply list_elem_of_In, HS in Hbias. lia.
Qed.

Lemma strategic_response_Close_exact_witness :
  exists x',
    strategic_response_Close default_config
      [0.5; 2; 3; 4; 5; 6; 7; 8; 9; 10; 1]%float
      [0.25; 0; 0; 0; 0; 2; 0; -1; 0; 0; 7]%float
      (epsilon default_config) (Some (strat_features default_config)) = Ok x' /\
    length x' = 11%nat /\
    (forall (k : nat) (xk tk : float),
        In (Z.of_nat k) (strat_features default_config) ->
        [0.5; 2; 3; 4; 5; 6; 7; 8; 9; 10; 1]%float !! k = Some xk ->
        [0.25; 0; 0; 0; 0; 2; 0; -1; 0; 0; 7]%float !! k = Some tk ->
        x' !! k = Some (xk - epsilon default_config * tk)%float) /\
    (forall k : nat,
        ~ In (Z.of_nat k) (strat_features default_config) ->
        x' !! k = [0.5; 2; 3; 4; 5; 6; 7; 8; 9; 10; 1]%float !! k) /\
    x' !! 10%nat = Some 1%float.
Proof.
  apply (strategic_response_Close_exact default_config
           [0.5; 2; 3; 4; 5; 6; 7; 8; 9; 10; 1]%float
           [0.25; 0; 0; 0; 0; 2; 0; -1; 0; 0; 7]%float
           (epsilon default_config) (strat_features default_config)).
  - reflexivity.
  - reflexivity.
  - simpl. repeat constructor; lia.
Defined.

Example close_default :
  strategic_response_Close default_config
    [0.5; 2; 3; 4; 5; 6; 7; 8; 9; 10; 1]%float
    [0.25; 0; 0; 0; 0; 2; 0; -1; 0; 0; 7]%float
    (epsilon default_config) (Some (strat_features default_config))
  = Ok [0.25; 2; 3; 4; 5; 4; 7; 9; 9; 10; 1]%float.
Proof. vm_compute. reflexivity. Qed.

(** ** The environment: what the observation helpers leave untouched *)

Ltac eff_unfold :=
  unfold Eff.bindM, Eff.gets, Eff.modify, Eff.ret, Eff.raise, Eff.lift,
    Eff.index, id in *.

Section EnvFacts.

Variable cfg : config.
Variable torch_ascent :
  list float -> list float -> list Z -> list float -> result (list float).

Local Abbreviation GA := (strategic_response_GA cfg torch_ascent).
Local Abbreviation get_obs := (_get_obs cfg torch_ascent).
Local Abbreviation get_info := (_get_info cfg torch_ascent).
Local Abbreviation step' := (step cfg torch_ascent).
Local Abbreviation reset' := (reset cfg torch_ascent).

(** The iterative response only counts its calls. *)
Lemma strategic_response_GA_state (x w : list float) (s : option (list Z))
    (e : env) :
  snd (GA x w s e) = set_response_call_count (S (response_call_count e)) e.
Proof.
  unfold strategic_response_GA. eff_unfold. simpl.
  destruct (strategic_response cfg); simpl; [| reflexivity].
  destruct (torch_ascent _ _ _ _) as [z |]; reflexivity.
Qed.

(** [_get_obs] and [_get_info] change nothing but the print flag and the
    call counter. *)
Lemma get_obs_state (e : env) :
  exists b n, snd (get_obs e) = set_trigger_once b (set_response_call_count n e).
Proof.
  unfold _get_obs. eff_unfold. simpl.
  destruct (active_x e !! samplePointer e) as [sample |]; simpl.
  - destruct (String.eqb (response_method cfg) "GA").
    + exists (trigger_once e), (S (response_call_count e)).
      rewrite strategic_response_GA_state. reflexivity.
    + destruct (String.eqb (response_method cfg) "Close"); simpl.
      * destruct (strategic_response_Close _ _ _ _ _); simpl.
        -- exists true, (response_call_count e). reflexivity.
        -- exists (trigger_once e), (response_call_count e).
           destruct e; reflexivity.
      * exists (trigger_once e), (response_call_count e).
        destruct e; reflexivity.
  - exists (trigger_once e), (response_call_count e). destruct e; reflexivity.
Qed.

Lemma get_info_state (e : env) :
  exists b n, snd (get_info e) = set_trigger_once b (set_response_call_count n e).
Proof.
  assert (Hid : exists b n, e = set_trigger_once b (set_response_call_count n e)).
  { exists (trigger_once e), (response_call_count e). destruct e; reflexivity. }
  unfold _get_info. eff_unfold. simpl.
  destruct (active_y e !! samplePointer e) as [target |]; simpl; [| exact Hid].
  destruct (S (samplePointer e) <? length (active_x e))%nat; simpl; [| exact Hid].
  destruct (active_x e !! S (samplePointer e)) as [next_sample |]; simpl;
    [| exact Hid].
  destruct (String.eqb (response_method cfg) "GA").
  - pose proof (strategic_response_GA_state next_sample (policy_weight e) None e)
      as HGA.
    destruct (GA next_sample (policy_weight e) None e) as [[o | x] e'];
      simpl in *; subst e';
      exists (trigger_once e), (S (response_call_count e)); reflexivity.
  - destruct (String.eqb (response_method cfg) "Close"); simpl; [| exact Hid].
    destruct (strategic_response_Close _ _ _ _ _); simpl; exact Hid.
Qed.

(** ** The environment: what a returning [step] returned *)

(** Whatever the response method, a [step] that returns has read the label
    at the cursor it started from, and its flags and final cursor are as
    follows. *)
Lemma step_returns (a : Z) (w : option (list float)) (e e' : env)
    (r : step_result) :
  step' a w e = (Ok r, e') ->
  exists l,
    active_y e !! samplePointer e = Some l /\
    sr_reward r = reward_of a l /\
    sr_terminated r = (length (active_x e) <=? S (samplePointer e))%nat /\
    sr_truncated r
      = (maximum_episode_length e <? Z.of_nat (S (samplePointer e))) /\
    samplePointer e'
      = (if sr_terminated r || sr_truncated r then samplePointer e
         else S (samplePointer e)) /\
    (if sr_terminated r || sr_truncated r then sr_obs r = None
     else sr_obs r <> None) /\
    active_x e' = active_x e /\
    active_y e' = active_y e /\
    maximum_episode_length e' = maximum_episode_length e.
Proof.
  unfold step. eff_unfold. simpl.
  destruct (active_y e !! samplePointer e) as [l |]; simpl; [| discriminate].
  intros Hstep. exists l. split; [reflexivity |].
  destruct w as [w' |]; simpl in Hstep;
    (destruct ((length (active_x e) <=? S (samplePointer e))%nat
               || (maximum_episode_length e <? Z.of_nat (S (samplePointer e))))
       eqn:Hflags; simpl in Hstep;
     [ match type of Hstep with
       | context [_get_info cfg torch_ascent ?e1] =>
           destruct (get_info_state e1) as (b & n & Hs);
           destruct (get_info e1) as [[i | x] e2]; simpl in Hs;
           [| discriminate]
       end
     | match type of Hstep with
       | context [_get_obs cfg torch_ascent ?e1] =>
           destruct (get_obs_state e1) as (b & n & Hs);
           destruct (get_obs e1) as [[o | x] e2]; simpl in Hs;
           [| discriminate];
           destruct (get_info_state e2) as (b' & n' & Hs');
           destruct (get_info e2) as [[i | x] e3]; simpl in Hs';
           [| discriminate]
       end ];
     inversion Hstep; subst; simpl; rewrite Hflags; auto 10).
Qed.

(** ** The environment under the closed form *)

Lemma reward_of_same (a : Z) : reward_of a a = 1.
Proof.
  unfold reward_of.
  destruct (Z.eqb_spec a 0) as [-> | H0]; [reflexivity |].
  destruct (Z.eqb_spec a 1) as [-> | H1]; reflexivity.
Qed.

Lemma close_response_ready (e : env) (row : list float) :
  close_ready cfg e -> In row (active_x e) ->
  exists o,
    strategic_response_Close cfg row (policy_weight e) (epsilon cfg)
      (Some (strat_features cfg)) = Ok o.
Proof.
  intros [_ Hready] Hrow.
  destruct (strategic_response cfg) eqn:Hon.
  - destruct (Hready eq_refl) as [Hrows HS].
    rewrite Forall_forall in Hrows.
    apply list_elem_of_In, Hrows in Hrow.
    destruct (strategic_response_Close_sum cfg row (policy_weight e)
                (epsilon cfg) (strat_features cfg) Hon) as (o & Ho & _).
    + now symmetry.
    + now rewrite Hrow.
    + now exists o.
  - exists row. unfold strategic_response_Close. now rewrite Hon.
Qed.

Lemma get_obs_ready (e : env) (row : list float) :
  close_ready cfg e -> active_x e !! samplePointer e = Some row ->
  exists o, get_obs e = (Ok o, set_trigger_once true e).
Proof.
  intros Hready Hrow.
  destruct (close_response_ready e row Hready) as (o & Ho).
  { apply list_elem_of_In. eapply list_elem_of_lookup_2. exact Hrow. }
  exists o. unfold _get_obs. eff_unfold. simpl.
  rewrite Hrow. simpl. destruct Hready as [-> _]. simpl.
  now rewrite Ho.
Qed.

Lemma get_info_ready (e : env) (l : Z) :
  close_ready cfg e -> active_y e !! samplePointer e = Some l ->
  exists nx, get_info e = (Ok (Info l nx), e).
Proof.
  intros Hready Hl. unfold _get_info. eff_unfold. simpl.
  rewrite Hl. simpl.
  destruct (Nat.ltb_spec (S (samplePointer e)) (length (active_x e)))
    as [Hlt | Hge]; simpl; [| now exists None].
  destruct (lookup_lt_is_Some_2 _ _ Hlt) as [row Hrow].
  rewrite Hrow. simpl.
  destruct (close_response_ready e row Hready) as (o & Ho).
  { apply list_elem_of_In. eapply list_elem_of_lookup_2. exact Hrow. }
  destruct Hready as [-> _]. simpl. rewrite Ho. simpl.
  now exists (Some o).
Qed.

Lemma close_ready_set_policy_weight (e : env) (w : list float) :
  length w = length (policy_weight e) ->
  close_ready cfg e -> close_ready cfg (set_policy_weight w e).
Proof.
  intros Hw [Hm Hready]. split; [exact Hm |].
  intros Hon. simpl. rewrite Hw. exact (Hready Hon).
Qed.

(** Under the closed form, on a split whose labels cover its rows, [step]
    returns at every cursor inside the split, and the state it leaves is
    again one it returns from. *)
Lemma step_ready (a : Z) (w : option (list float)) (e : env) :
  close_ready cfg e ->
  length (active_y e) = length (active_x e) ->
  (samplePointer e < length (active_x e))%nat ->
  (forall w', w = Some w' -> length w' = length (policy_weight e)) ->
  exists r e',
    step' a w e = (Ok r, e') /\
    close_ready cfg e' /\
    active_x e' = active_x e /\
    active_y e' = active_y e /\
    maximum_episode_length e' = maximum_episode_length e /\
    length (policy_weight e') = length (policy_weight e) /\
    active_y e' !! samplePointer e' = Some (true_label (sr_info r)).
Proof.
  intros Hready Hy Hp Hw.
  assert (Hl : is_Some (active_y e !! samplePointer e))
    by (apply lookup_lt_is_Some_2; lia).
  destruct Hl as [l Hl].
  set (e1 := match w with Some w' => set_policy_weight w' e | None => e end).
  assert (Hready1 : close_ready cfg e1).
  { subst e1. destruct w as [w' |]; [| exact Hready].
    apply close_ready_set_policy_weight; auto. }
  assert (Hx1 : active_x e1 = active_x e) by (subst e1; now destruct w).
  assert (Hy1 : active_y e1 = active_y e) by (subst e1; now destruct w).
  assert (Hp1 : samplePointer e1 = samplePointer e) by (subst e1; now destruct w).
  assert (Hm1 : maximum_episode_length e1 = maximum_episode_length e)
    by (subst e1; now destruct w).
  assert (Hlen1 : length (policy_weight e1) = length (policy_weight e)).
  { subst e1. destruct w as [w' |]; [| reflexivity]. simpl. auto. }
  assert (Hstep : step' a w e
    = (let terminated := (length (active_x e) <=? S (samplePointer e))%nat in
       let truncated :=
         maximum_episode_length e <? Z.of_nat (S (samplePointer e)) in
       if negb (terminated || truncated) then
         match get_obs (set_samplePointer (S (samplePointer e)) e1) with
         | (Ok o, e2) =>
             match get_info e2 with
             | (Ok i, e3) =>
                 (Ok (StepResult (Some o) (reward_of a l) terminated truncated i),
                  e3)
             | (Raise x, e3) => (Raise x, e3)
             end
         | (Raise x, e2) => (Raise x, e2)
         end
       else
         match get_info e1 with
         | (Ok i, e2) =>
             (Ok (StepResult None (reward_of a l) terminated truncated i), e2)
         | (Raise x, e2) => (Raise x, e2)
         end)).
  { unfold step. eff_unfold. simpl. rewrite Hl. simpl.
    subst e1. destruct w; simpl; now case_match. }
  rewrite Hstep. clear Hstep. simpl.
  destruct (Nat.leb_spec (length (active_x e)) (S (samplePointer e)))
    as [Hlast | Hmore]; simpl.
  - destruct (get_info_ready e1 l Hready1) as (nx & Hinfo).
    { now rewrite Hy1, Hp1. }
    rewrite Hinfo. eexists _, e1. split; [reflexivity |].
    simpl. rewrite Hy1, Hp1. auto 10.
  - destruct (maximum_episode_length e <? Z.of_nat (S (samplePointer e)));
      simpl.
    + destruct (get_info_ready e1 l Hready1) as (nx & Hinfo).
      { now rewrite Hy1, Hp1. }
      rewrite Hinfo. eexists _, e1. split; [reflexivity |].
      simpl. rewrite Hy1, Hp1. auto 10.
    + set (e2 := set_samplePointer (S (samplePointer e)) e1).
      assert (Hrow : is_Some (active_x e2 !! samplePointer e2)).
      { apply lookup_lt_is_Some_2. subst e2. simpl.
        change (active_x (set_samplePointer (S (samplePointer e)) e1))
          with (active_x e1). rewrite Hx1. lia. }
      destruct Hrow as [row Hrow].
      destruct (get_obs_ready e2 row Hready1 Hrow) as (o & Hobs).
      rewrite Hobs.
      assert (Hl2 : is_Some (active_y e2 !! samplePointer e2)).
      { apply lookup_lt_is_Some_2. subst e2. simpl.
        change (active_y (set_samplePointer (S (samplePointer e)) e1))
          with (active_y e1). rewrite Hy1. lia. }
      destruct Hl2 as [l2 Hl2].
      destruct (get_info_ready (set_trigger_once true e2) l2 Hready1 Hl2)
        as (nx & Hinfo).
      rewrite Hinfo. eexists _, _. split; [reflexivity |].
      split; [exact Hready1 |].
      repeat match goal with |- _ /\ _ => split end; assumption.
Qed.

Lemma reset_ready (e : env) :
  close_ready cfg e ->
  length (active_y e) = length (active_x e) ->
  (0 < length (active_x e))%nat ->
  exists o i e',
    reset' e = (Ok (o, i), e') /\
    close_ready cfg e' /\
    active_x e' = active_x e /\
    active_y e' = active_y e /\
    maximum_episode_length e' = maximum_episode_length e /\
    policy_weight e' = policy_weight e /\
    samplePointer e' = 0%nat /\
    active_y e' !! 0%nat = Some (true_label i).
Proof.
  intros Hready Hy Hpos.
  set (e0 := set_samplePointer 0 e).
  assert (Hrow : is_Some (active_x e0 !! samplePointer e0))
    by (apply lookup_lt_is_Some_2; exact Hpos).
  destruct Hrow as [row Hrow].
  destruct (get_obs_ready e0 row Hready Hrow) as (o & Hobs).
  assert (Hl : is_Some (active_y e0 !! samplePointer e0)).
  { apply lookup_lt_is_Some_2. change (active_y e0) with (active_y e).
    simpl. lia. }
  destruct Hl as [l Hl].
  destruct (get_info_ready (set_trigger_once true e0) l Hready Hl)
    as (nx & Hinfo).
  exists o, (Info l nx), (set_trigger_once true e0).
  split.
  - unfold reset. eff_unfold. simpl. fold e0. rewrite Hobs, Hinfo. reflexivity.
  - split; [exact Hready |].
    repeat match goal with |- _ /\ _ => split end; try reflexivity.
    exact Hl.
Qed.

Lemma oracle_loop_ready (n : nat) :
  forall (fuel : nat) (ws : nat -> option (list float)) (k : nat) (i : info)
         (e : env),
    close_ready cfg e ->
    length (active_y e) = length (active_x e) ->
    (samplePointer e + S n = length (active_x e))%nat ->
    (S n <= fuel)%nat ->
    Z.of_nat (length (active_x e)) <= maximum_episode_length e ->
    (forall j w', ws j = Some w' -> length w' = length (policy_weight e)) ->
    active_y e !! samplePointer e = Some (true_label i) ->
    exists rs e',
      oracle_loop cfg torch_ascent fuel ws k i e = (Ok (rs, true), e') /\
      length rs = S n /\
      Forall (fun r => sr_reward r = 1) rs /\
      map sr_terminated rs = repeat false n ++ [true] /\
      Forall (fun r => sr_truncated r = false) rs.
Proof.
  induction n as [| n IH]; intros fuel ws k i e Hready Hy Hp Hfuel Hmax Hws Hi;
    (destruct fuel as [| fuel]; [lia |]);
    destruct (step_ready (true_label i) (ws k) e Hready Hy) as
      (r & e1 & Hstep & Hready1 & Hx1 & Hy1 & Hm1 & Hlen1 & Hi1);
    try lia; try (now apply Hws);
    destruct (step_returns _ _ _ _ _ Hstep) as
      (l & Hl & Hrew & Hterm & Htrunc & Hptr & _);
    rewrite Hi in Hl; inversion Hl; subst l; rewrite reward_of_same in Hrew;
    assert (Htr : sr_truncated r = false)
      by (rewrite Htrunc; apply Z.ltb_ge; lia);
    simpl; eff_unfold; rewrite Hstep.
  - assert (Hte : sr_terminated r = true)
      by (rewrite Hterm; apply Nat.leb_le; lia).
    rewrite Hte. simpl. exists [r], e1. simpl. rewrite Hte.
    repeat split; auto.
  - assert (Hte : sr_terminated r = false)
      by (rewrite Hterm; apply Nat.leb_gt; lia).
    rewrite Hte, Htr in *. simpl.
    destruct (IH fuel ws (S k) (sr_info r) e1) as
      (rs & e' & Hloop & Hlen & Hrews & Hterms & Htruncs); try congruence;
      try lia.
    + rewrite Hx1, Hptr. simpl. lia.
    + intros j w' Hj. rewrite Hlen1. now apply (Hws j).
    + rewrite Hloop. simpl. exists (r :: rs), e'.
      split; [reflexivity |]. simpl. rewrite Hlen, Hterms, Hte.
      repeat split; auto.
Qed.

End EnvFacts.

(** ** The reward of a step *)

(** C3.  For an action in {0, 1} and binary labels, a returning [step]
    gives reward [+1] when the action equals the label at the cursor the
    call started from and [-1] otherwise: the label is read at the cursor
    of the state before the call, whether or not the call then advances
    it. *)
Theorem step_reward_matches_label (cfg : config)
    (torch_ascent : list float -> list float -> list Z -> list float
                    -> result (list float))
    (a : Z) (w : option (list float)) (e e' : env) (r : step_result) :
  step cfg torch_ascent a w e = (Ok r, e') ->
  a = 0 \/ a = 1 ->
  Forall (fun l => l = 0 \/ l = 1) (active_y e) ->
  exists l,
    active_y e !! samplePointer e = Some l /\
    sr_reward r = (if a =? l then 1 else -1).
Proof.
  intros Hstep Ha Hbin.
  destruct (step_returns cfg torch_ascent a w e e' r Hstep)
    as (l & Hl & Hrew & _).
  exists l. split; [exact Hl |]. rewrite Hrew.
  rewrite Forall_forall in Hbin.
  assert (Hlb : l = 0 \/ l = 1)
    by (apply Hbin; eapply list_elem_of_lookup_2; exact Hl).
  destruct Ha as [-> | ->], Hlb as [-> | ->]; reflexivity.
Qed.

Lemma step_reward_matches_label_witness :
  exists l,
    active_y (demo_env 1000000) !! samplePointer (demo_env 1000000) = Some l /\
    sr_reward
      (StepResult (Some [1.5; 1]%float) (-1) false false
         (Info 1 (Some [2.5; 1]%float)))
    = (if 1 =? l then 1 else -1).
Proof.
  apply (step_reward_matches_label demo_config no_torch 1 None
           (demo_env 1000000)
           (set_trigger_once true (set_samplePointer 1 (demo_env 1000000)))).
  - vm_compute. reflexivity.
  - right. reflexivity.
  - simpl. repeat (constructor; [lia |]). constructor.
Defined.

(** C10.  An action that is neither 0 nor 1 falls through the reward
    branching to its last arm: a returning [step] gives reward [+1]
    whatever the label at the cursor. *)
Theorem step_reward_unrecognized_action (cfg : config)
    (torch_ascent : list float -> list float -> list Z -> list float
                    -> result (list float))
    (a : Z) (w : option (list float)) (e e' : env) (r : step_result) :
  step cfg torch_ascent a w e = (Ok r, e') ->
  a <> 0 -> a <> 1 ->
  sr_reward r = 1.
Proof.
  intros Hstep H0 H1.
  destruct (step_returns cfg torch_ascent a w e e' r Hstep)
    as (l & _ & Hrew & _).
  rewrite Hrew. unfold reward_of.
  destruct (Z.eqb_spec a 0); [contradiction |].
  destruct (Z.eqb_spec a 1); [contradiction |].
  reflexivity.
Qed.

Lemma step_reward_unrecognized_action_witness :
  sr_reward
    (StepResult (Some [1.5; 1]%float) 1 false false
       (Info 1 (Some [2.5; 1]%float))) = 1.
Proof.
  apply (step_reward_unrecognized_action demo_config no_torch 7 None
           (demo_env 1000000)
           (set_trigger_once true (set_samplePointer 1 (demo_env 1000000)))).
  - vm_compute. reflexivity.
  - lia.
  - lia.
Defined.

(** The label at the first cursor is 0, and the action 7 is rewarded. *)
Example step_action_seven :
  fst (step demo_config no_torch 7 None (demo_env 1000000))
  = Ok (StepResult (Some [1.5; 1]%float) 1 false false
          (Info 1 (Some [2.5; 1]%float))).
Proof. vm_compute. reflexivity. Qed.

(** ** The two flags of a step *)

(** C8.  A returning [step] reports [truncated] exactly when the cursor
    after the advance, [samplePointer + 1], exceeds
    [maximum_episode_length], and [terminated] exactly when it reaches the
    length of the active split: two bounds, tested apart. *)
Theorem step_truncated_iff (cfg : config)
    (torch_ascent : list float -> list float -> list Z -> list float
                    -> result (list float))
    (a : Z) (w : option (list float)) (e e' : env) (r : step_result) :
  step cfg torch_ascent a w e = (Ok r, e') ->
  (sr_truncated r = true <->
   maximum_episode_length e < Z.of_nat (samplePointer e) + 1) /\
  (sr_terminated r = true <->
   (length (active_x e) <= samplePointer e + 1)%nat).
Proof.
  intros Hstep.
  destruct (step_returns cfg torch_ascent a w e e' r Hstep)
    as (l & _ & _ & Hterm & Htrunc & _).
  rewrite Hterm, Htrunc. split.
  - rewrite Z.ltb_lt. lia.
  - rewrite Nat.leb_le. lia.
Qed.

Lemma step_truncated_iff_witness :
  (sr_truncated
     (StepResult None 1 false true (Info 0 (Some [1.5; 1]%float))) = true <->
   maximum_episode_length (demo_env 0)
   < Z.of_nat (samplePointer (demo_env 0)) + 1) /\
  (sr_terminated
     (StepResult None 1 false true (Info 0 (Some [1.5; 1]%float))) = true <->
   (length (active_x (demo_env 0)) <= samplePointer (demo_env 0) + 1)%nat).
Proof.
  apply (step_truncated_iff demo_config no_torch 0 None (demo_env 0)
           (demo_env 0)).
  vm_compute. reflexivity.
Defined.

(** The four combinations of the two flags. *)
Example step_flags_neither :
  fst (step demo_config no_torch 0 None (demo_env 1000000))
  = Ok (StepResult (Some [1.5; 1]%float) 1 false false
          (Info 1 (Some [2.5; 1]%float))).
Proof. vm_compute. reflexivity. Qed.

Example step_flags_truncated_only :
  fst (step demo_config no_torch 0 None (demo_env 0))
  = Ok (StepResult None 1 false true (Info 0 (Some [1.5; 1]%float))).
Proof. vm_compute. reflexivity. Qed.

Example step_flags_terminated_only :
  fst (step demo_config no_torch 1 None
         (set_samplePointer 2 (demo_env 1000000)))
  = Ok (StepResult None 1 true false (Info 1 None)).
Proof. vm_compute. reflexivity. Qed.

Example step_flags_both :
  fst (step demo_config no_torch 1 None (set_samplePointer 2 (demo_env 2)))
  = Ok (StepResult None 1 true true (Info 1 None)).
Proof. vm_compute. reflexivity. Qed.

(** ** A whole episode with the right action at every step *)

(** C5.  On an active split of [L >= 1] labelled rows, with
    [maximum_episode_length >= L], [reset] followed by [step] with the label
    reported for the cursor, repeated until a step ends the episode, makes
    exactly [L] steps; every reward is [+1]; [terminated] is [false] on the
    first [L - 1] steps and [true] on the [L]-th, and no step is truncated.
    (Closed-form configuration; any weights handed to [step] have the
    length of the current ones.) *)
Theorem oracle_episode_all_rewarded (cfg : config)
    (torch_ascent : list float -> list float -> list Z -> list float
                    -> result (list float))
    (e : env) (ws : nat -> option (list float)) (fuel L : nat) :
  close_ready cfg e ->
  length (active_x e) = L ->
  length (active_y e) = L ->
  (0 < L)%nat ->
  Z.of_nat L <= maximum_episode_length e ->
  (forall j w', ws j = Some w' -> length w' = length (policy_weight e)) ->
  (L <= fuel)%nat ->
  exists rs e',
    oracle_episode cfg torch_ascent fuel ws e = (Ok (rs, true), e') /\
    length rs = L /\
    Forall (fun r => sr_reward r = 1) rs /\
    map sr_terminated rs = repeat false (L - 1) ++ [true] /\
    Forall (fun r => sr_truncated r = false) rs.
Proof.
  intros Hready Hx Hy Hpos Hmax Hws Hfuel.
  destruct (reset_ready cfg torch_ascent e Hready) as
    (o & i & e0 & Hreset & Hready0 & Hx0 & Hy0 & Hm0 & Hw0 & Hp0 & Hi0);
    [lia | lia |].
  destruct L as [| n]; [lia |].
  destruct (oracle_loop_ready cfg torch_ascent n fuel ws 0 i e0) as
    (rs & e' & Hloop & Hlen & Hrest); try assumption.
  - congruence.
  - rewrite Hp0, Hx0, Hx. reflexivity.
  - rewrite Hx0, Hm0, Hx. exact Hmax.
  - intros j w' Hj. rewrite Hw0. now apply (Hws j).
  - now rewrite Hp0.
  - exists rs, e'. split.
    + unfold oracle_episode. eff_unfold. rewrite Hreset. simpl. exact Hloop.
    + replace (S n - 1)%nat with n by lia. auto.
Qed.

Lemma oracle_episode_all_rewarded_witness :
  exists rs e',
    oracle_episode demo_config no_torch 5 (fun _ => None) (demo_env 1000000)
    = (Ok (rs, true), e') /\
    length rs = 3%nat /\
    Forall (fun r => sr_reward r = 1) rs /\
    map sr_terminated rs = repeat false (3 - 1) ++ [true] /\
    Forall (fun r => sr_truncated r = false) rs.
Proof.
  apply (oracle_episode_all_rewarded demo_config no_torch (demo_env 1000000)
           (fun _ => None) 5 3).
  - split; [reflexivity |]. intros _. simpl.
    split; repeat (constructor; [simpl; lia |]); constructor.
  - reflexivity.
  - reflexivity.
  - lia.
  - simpl. lia.
  - intros j w' Hj. discriminate Hj.
  - lia.
Defined.

Example oracle_episode_demo :
  fst (oracle_episode demo_config no_torch 5 (fun _ => None)
         (demo_env 1000000))
  = Ok ([ StepResult (Some [1.5; 1]%float) 1 false false
            (Info 1 (Some [2.5; 1]%float));
          StepResult (Some [2.5; 1]%float) 1 false false (Info 1 None);
          StepResult None 1 true false (Info 1 None) ], true).
Proof. vm_compute. reflexivity. Qed.

(** ** Calling [step] outside a running episode *)

(** At the last row the look-ahead is [None], whatever the method. *)
Lemma get_info_at_end (cfg : config)
    (torch_ascent : list float -> list float -> list Z -> list float
                    -> result (list float))
    (e : env) (l : Z) :
  (length (active_x e) <= S (samplePointer e))%nat ->
  active_y e !! samplePointer e = Some l ->
  _get_info cfg torch_ascent e = (Ok (Info l None), e).
Proof.
  intros Hend Hl. unfold _get_info. eff_unfold. simpl. rewrite Hl. simpl.
  destruct (Nat.ltb_spec (S (samplePointer e)) (length (active_x e)));
    [lia | reflexivity].
Qed.

(** A [step] at the last row returns, whatever the method and whatever
    happened before. *)
Lemma step_at_end (cfg : config)
    (torch_ascent : list float -> list float -> list Z -> list float
                    -> result (list float))
    (a : Z) (w : option (list float)) (e : env) (l : Z) :
  (length (active_x e) <= S (samplePointer e))%nat ->
  active_y e !! samplePointer e = Some l ->
  exists e',
    step cfg torch_ascent a w e
    = (Ok (StepResult None (reward_of a l) true
             (maximum_episode_length e <? Z.of_nat (S (samplePointer e)))
             (Info l None)), e') /\
    samplePointer e' = samplePointer e.
Proof.
  intros Hend Hl. unfold step. eff_unfold. simpl. rewrite Hl. simpl.
  destruct (Nat.leb_spec (length (active_x e)) (S (samplePointer e)));
    [| lia]. simpl.
  destruct w as [w' |]; simpl.
  - rewrite (get_info_at_end cfg torch_ascent (set_policy_weight w' e) l)
      by assumption.
    now eexists.
  - rewrite (get_info_at_end cfg torch_ascent e l) by assumption.
    now eexists.
Qed.

(** The claim C6 fails on the code: [step] on an environment that was
    constructed and never reset returns a result, and so does a [step]
    after the step that ended an episode. *)
Lemma step_outside_episode_returns :
  fst (step demo_config no_torch 0 None (demo_env 1000000))
  = Ok (StepResult (Some [1.5; 1]%float) 1 false false
          (Info 1 (Some [2.5; 1]%float))) /\
  fst (step demo_config no_torch 0 None
         (snd (oracle_episode demo_config no_torch 5 (fun _ => None)
                 (demo_env 1000000))))
  = Ok (StepResult None (-1) true false (Info 1 None)).
Proof. split; vm_compute; reflexivity. Qed.

(** C6, as the code has it.  [step] keeps no record of [reset] or of the
    end of an episode and tests none.  (1) On an environment fresh from
    [__init__] (cursor 0), closed form, non-empty labelled training split,
    it returns the reward for the label at index 0.  (2) After a step that
    returned [terminated = true], any further step returns again: no
    observation, [terminated = true] once more, the cursor where it was, and
    the reward for the label at that cursor. *)
Theorem step_tests_no_episode_state (cfg : config)
    (torch_ascent : list float -> list float -> list Z -> list float
                    -> result (list float)) :
  (forall (tx : list (list float)) (ty : list Z) (tex : list (list float))
          (tey : list Z) (pw : list float) (mel a : Z),
      close_ready cfg (init tx ty tex tey pw mel) ->
      length ty = length tx ->
      (0 < length tx)%nat ->
      exists r e' l,
        step cfg torch_ascent a None (init tx ty tex tey pw mel) = (Ok r, e') /\
        ty !! 0%nat = Some l /\
        sr_reward r = reward_of a l) /\
  (forall (a : Z) (w : option (list float)) (e e1 : env) (r : step_result),
      step cfg torch_ascent a w e = (Ok r, e1) ->
      sr_terminated r = true ->
      forall (a2 : Z) (w2 : option (list float)),
      exists r2 e2 l,
        step cfg torch_ascent a2 w2 e1 = (Ok r2, e2) /\
        active_y e1 !! samplePointer e1 = Some l /\
        sr_reward r2 = reward_of a2 l /\
        sr_terminated r2 = true /\
        sr_obs r2 = None /\
        samplePointer e2 = samplePointer e1).
Proof.
  split.
  - intros tx ty tex tey pw mel a Hready Hy Hpos.
    destruct (step_ready cfg torch_ascent a None _ Hready) as
      (r & e' & Hstep & _); try assumption; try discriminate.
    destruct (step_returns cfg torch_ascent _ _ _ _ _ Hstep) as
      (l & Hl & Hrew & _).
    now exists r, e', l.
  - intros a w e e1 r Hstep Hterm a2 w2.
    destruct (step_returns cfg torch_ascent _ _ _ _ _ Hstep) as
      (l & Hl & _ & Hterm' & _ & Hptr & _ & Hx & Hy & _).
    rewrite Hterm in Hptr. simpl in Hptr.
    rewrite Hterm in Hterm'. symmetry in Hterm'. apply Nat.leb_le in Hterm'.
    destruct (step_at_end cfg torch_ascent a2 w2 e1 l) as (e2 & Hstep2 & Hp2).
    + rewrite Hx, Hptr. exact Hterm'.
    + rewrite Hy, Hptr. exact Hl.
    + eexists _, e2, l. split; [exact Hstep2 |].
      split; [rewrite Hy, Hptr; exact Hl |].
      simpl. auto.
Qed.

Lemma step_tests_no_episode_state_witness :
  (exists r e' l,
      step demo_config no_torch 1 None
        (init demo_rows demo_labels [] [] [0.5; 0.25]%float 1000000)
      = (Ok r, e') /\
      demo_labels !! 0%nat = Some l /\
      sr_reward r = reward_of 1 l) /\
  (exists r2 e2 l,
      step demo_config no_torch 0 (Some [1; 1]%float)
        (set_samplePointer 2 (demo_env 1000000)) = (Ok r2, e2) /\
      active_y (set_samplePointer 2 (demo_env 1000000))
        !! samplePointer (set_samplePointer 2 (demo_env 1000000)) = Some l /\
      sr_reward r2 = reward_of 0 l /\
      sr_terminated r2 = true /\
      sr_obs r2 = None /\
      samplePointer e2 = samplePointer (set_samplePointer 2 (demo_env 1000000))).
Proof.
  split.
  - apply (proj1 (step_tests_no_episode_state demo_config no_torch)).
    + split; [reflexivity |]. intros _. simpl.
      split; repeat (constructor; [simpl; lia |]); constructor.
    + reflexivity.
    + simpl. lia.
  - apply (proj2 (step_tests_no_episode_state demo_config no_torch)
             1 None (set_samplePointer 2 (demo_env 1000000))
             (set_samplePointer 2 (demo_env 1000000))
             (StepResult None 1 true false (Info 1 None))).
    + vm_compute. reflexivity.
    + reflexivity.
Defined.

(** ** An unknown response method *)

(** The claim C7 fails on the code: with a method the environment does not
    know, the look-ahead of [_get_info] yields [None] without an error, and
    a truncated step returns through it. *)
Lemma unknown_method_lookahead_is_silent :
  _get_info unknown_config no_torch (demo_env 1000000)
  = (Ok (Info 0 None), demo_env 1000000) /\
  fst (step unknown_config no_torch 0 None (demo_env 0))
  = Ok (StepResult None 1 false true (Info 0 None)).
Proof. split; vm_compute; reflexivity. Qed.

(** C7, as the code has it.  With a response method that is neither ["GA"]
    nor ["Close"]: [_get_obs] raises [ValueError] as soon as it has read the
    row at the cursor, hence so do [reset] and every step that goes on to a
    next observation; [_get_info] raises nothing on that account and
    reports [next_obs = None], hence a step that ends the episode
    (terminated or truncated) returns. *)
Theorem unknown_method_raises_in_get_obs_only (cfg : config)
    (torch_ascent : list float -> list float -> list Z -> list float
                    -> result (list float)) :
  unknown_method cfg ->
  (forall (e : env) (row : list float),
      active_x e !! samplePointer e = Some row ->
      _get_obs cfg torch_ascent e
      = (Raise (ValueError ("Unknown response method: " ++ response_method cfg)),
         e)) /\
  (forall (e : env) (row : list float),
      active_x e !! 0%nat = Some row ->
      reset cfg torch_ascent e
      = (Raise (ValueError ("Unknown response method: " ++ response_method cfg)),
         set_samplePointer 0 e)) /\
  (forall (e : env) (l : Z),
      active_y e !! samplePointer e = Some l ->
      _get_info cfg torch_ascent e = (Ok (Info l None), e)) /\
  (forall (a : Z) (w : option (list float)) (e : env) (l : Z),
      active_y e !! samplePointer e = Some l ->
      fst (step cfg torch_ascent a w e)
      = if (length (active_x e) <=? S (samplePointer e))%nat
           || (maximum_episode_length e <? Z.of_nat (S (samplePointer e)))
        then Ok (StepResult None (reward_of a l)
                   (length (active_x e) <=? S (samplePointer e))%nat
                   (maximum_episode_length e <? Z.of_nat (S (samplePointer e)))
                   (Info l None))
        else Raise (ValueError
                      ("Unknown response method: " ++ response_method cfg))).
Proof.
  intros [HGA HClose].
  assert (Hobs : forall (e : env) (row : list float),
      active_x e !! samplePointer e = Some row ->
      _get_obs cfg torch_ascent e
      = (Raise (ValueError ("Unknown response method: " ++ response_method cfg)),
         e)).
  { intros e row Hrow. unfold _get_obs. eff_unfold. simpl.
    rewrite Hrow. simpl. now rewrite HGA, HClose. }
  assert (Hinfo : forall (e : env) (l : Z),
      active_y e !! samplePointer e = Some l ->
      _get_info cfg torch_ascent e = (Ok (Info l None), e)).
  { intros e l Hl. unfold _get_info. eff_unfold. simpl.
    rewrite Hl. simpl.
    destruct (Nat.ltb_spec (S (samplePointer e)) (length (active_x e)))
      as [Hlt | Hge]; [| reflexivity].
    destruct (lookup_lt_is_Some_2 _ _ Hlt) as [row ->]. simpl.
    now rewrite HGA, HClose. }
  split; [exact Hobs |]. split; [| split; [exact Hinfo |]].
  - intros e row Hrow. unfold reset. eff_unfold. simpl.
    now rewrite (Hobs (set_samplePointer 0 e) row Hrow).
  - intros a w e l Hl. unfold step. eff_unfold. simpl. rewrite Hl. simpl.
    destruct (Nat.leb_spec (length (active_x e)) (S (samplePointer e)))
      as [Hend | Hmore]; simpl.
    + destruct w as [w' |]; simpl.
      * now rewrite (Hinfo (set_policy_weight w' e) l Hl).
      * now rewrite (Hinfo e l Hl).
    + destruct (maximum_episode_length e <? Z.of_nat (S (samplePointer e)));
        simpl.
      * destruct w as [w' |]; simpl.
        -- now rewrite (Hinfo (set_policy_weight w' e) l Hl).
        -- now rewrite (Hinfo e l Hl).
      * destruct (lookup_lt_is_Some_2 (active_x e) (S (samplePointer e)))
          as [row Hrow]; [lia |].
        destruct w as [w' |]; simpl.
        -- now rewrite (Hobs (set_samplePointer (S (samplePointer e))
                                (set_policy_weight w' e)) row Hrow).
        -- now rewrite (Hobs (set_samplePointer (S (samplePointer e)) e)
                          row Hrow).
Qed.

Lemma unknown_method_raises_in_get_obs_only_witness :
  unknown_method unknown_config /\
  reset unknown_config no_torch (demo_env 1000000)
  = (Raise (ValueError "Unknown response method: Newton"),
     set_samplePointer 0 (demo_env 1000000)) /\
  _get_info unknown_config no_torch (demo_env 1000000)
  = (Ok (Info 0 None), demo_env 1000000).
Proof.
  assert (H : unknown_method unknown_config) by (split; reflexivity).
  destruct (unknown_method_raises_in_get_obs_only unknown_config no_torch H)
    as (_ & Hreset & Hinfo & _).
  split; [exact H |]. split.
  - apply (Hreset (demo_env 1000000) [1; 1]%float). reflexivity.
  - apply (Hinfo (demo_env 1000000) 0). reflexivity.
Defined.

(** ** No manipulation: disabled, or of strength zero *)

(** Adding the product of a zero and a finite number leaves every float but
    the negative zero as it is. *)
Lemma float_add_zero_product (x e t : float) :
  (e =? 0)%float = true ->
  is_finite t = true ->
  x <> (-0)%float ->
  (x + (- e) * t)%float = x.
Proof.
  intros He Ht Hx.
  assert (Hx' : Prim2SF x <> S754_zero true).
  { intros H. apply Hx. apply Prim2SF_inj. rewrite H. reflexivity. }
  clear Hx.
  apply Prim2SF_inj. rewrite add_spec, mul_spec, opp_spec.
  rewrite FloatAxioms.eqb_spec in He. change (Prim2SF 0) with (S754_zero false) in He.
  unfold is_finite, is_nan, is_infinity in Ht.
  rewrite !FloatAxioms.eqb_spec, abs_spec in Ht.
  change (Prim2SF infinity) with (S754_infinity false) in Ht.
  unfold SF64add, SF64mul.
  destruct (Prim2SF e) as [se | se | | se me ee];
    try discriminate He; try (destruct se; discriminate He).
  destruct (Prim2SF t) as [st | st | | st mt et];
    try discriminate Ht; try (destruct st; discriminate Ht);
    destruct (Prim2SF x) as [sx | sx | | sx mx ex]; simpl; try reflexivity;
    destruct se, st, sx; simpl; try reflexivity; contradiction.
Qed.

(** The claim C9 fails on the code for strength zero: an infinite weight
    turns the strategic feature into a NaN ([0 * inf]), and a negative zero
    feature comes back as a positive zero. *)
Lemma zero_strength_changes_features :
  (0 =? 0)%float = true /\
  strategic_response_Close demo_config [2; 1]%float [infinity; 0]%float
    0%float (Some [0]) = Ok [nan; 1]%float /\
  classify 2 = PNormal /\ classify nan = NaN /\
  strategic_response_Close demo_config [-0; 1]%float [-1; 0]%float
    0%float (Some [0]) = Ok [0; 1]%float /\
  classify (-0) = NZero /\ classify 0 = PZero.
Proof. repeat split; vm_compute; reflexivity. Qed.

(** C9, as the code has it.  With manipulation disabled both response
    functions return their input.  With manipulation on and [eps = 0], the
    closed form leaves every position outside [S] as it is, and a position
    in [S] as it is when its weight is finite and its feature is not the
    negative zero; so the whole vector is returned bit for bit when all
    weights are finite and no feature is a negative zero. *)
Theorem no_manipulation_identity (cfg : config)
    (torch_ascent : list float -> list float -> list Z -> list float
                    -> result (list float)) :
  (strategic_response cfg = false ->
   (forall (x theta : list float) (eps : float) (S : option (list Z)),
       strategic_response_Close cfg x theta eps S = Ok x) /\
   (forall (x theta : list float) (S : option (list Z)) (e : env),
       fst (strategic_response_GA cfg torch_ascent x theta S e) = Ok x)) /\
  (forall (x theta : list float) (eps : float) (S : list Z),
      strategic_response cfg = true ->
      (eps =? 0)%float = true ->
      length theta = length x ->
      Forall (fun i => 0 <= i < Z.of_nat (length x) - 1) S ->
      exists x',
        strategic_response_Close cfg x theta eps (Some S) = Ok x' /\
        length x' = length x /\
        (forall k : nat, ~ In (Z.of_nat k) S -> x' !! k = x !! k) /\
        (forall (k : nat) (xk tk : float),
            In (Z.of_nat k) S -> x !! k = Some xk -> theta !! k = Some tk ->
            is_finite tk = true -> xk <> (-0)%float ->
            x' !! k = Some xk) /\
        (Forall (fun t => is_finite t = true) theta ->
         Forall (fun v => v <> (-0)%float) x ->
         x' = x)).
Proof.
  split.
  - intros Hoff. split.
    + intros x theta eps S. unfold strategic_response_Close.
      now rewrite Hoff.
    + intros x theta S e. unfold strategic_response_GA. eff_unfold. simpl.
      now rewrite Hoff.
  - intros x theta eps S Hon Heps Hlen HS.
    destruct (strategic_response_Close_sum cfg x theta eps S Hon Hlen HS)
      as (x' & Hrun & Hlen' & Hx').
    assert (Hin : forall (k : nat) (xk tk : float),
               In (Z.of_nat k) S -> x !! k = Some xk -> theta !! k = Some tk ->
               is_finite tk = true -> xk <> (-0)%float ->
               x' !! k = Some xk).
    { intros k xk tk Hk Hxk Htk Hfin Hnz.
      destruct (Hx' k) as [Hin _]. rewrite Hin by assumption.
      rewrite (nth_lookup_Some _ _ _ _ Hxk), (nth_lookup_Some _ _ _ _ Htk).
      now rewrite float_add_zero_product. }
    exists x'. split; [exact Hrun |]. split; [exact Hlen' |].
    split; [intros k Hk; now apply Hx' |]. split; [exact Hin |].
    intros Hfin Hnz. apply list_eq. intros k.
    destruct (in_dec Z.eq_dec (Z.of_nat k) S) as [Hk | Hk];
      [| now apply Hx'].
    assert (Hrange : 0 <= Z.of_nat k < Z.of_nat (length x) - 1).
    { rewrite Forall_forall in HS. apply HS. now apply list_elem_of_In. }
    destruct (lookup_lt_is_Some_2 x k) as [xk Hxk]; [lia |].
    destruct (lookup_lt_is_Some_2 theta k) as [tk Htk]; [lia |].
    rewrite Hxk. apply (Hin k xk tk); try assumption.
    + rewrite Forall_forall in Hfin. apply Hfin.
      eapply list_elem_of_lookup_2. exact Htk.
    + rewrite Forall_forall in Hnz. apply Hnz.
      eapply list_elem_of_lookup_2. exact Hxk.
Qed.

Lemma no_manipulation_identity_witness :
  strategic_response_Close
    (Config 1%float [0] false "Close") [2; 1]%float [0.5; 0.25]%float
    1%float (Some [0]) = Ok [2; 1]%float /\
  exists x',
    strategic_response_Close demo_config [2; 1]%float [0.5; 0.25]%float
      0%float (Some [0]) = Ok x' /\
    x' = [2; 1]%float.
Proof.
  split.
  - apply (proj1 (proj1 (no_manipulation_identity
                           (Config 1%float [0] false "Close") no_torch)
                    eq_refl)).
  - destruct (proj2 (no_manipulation_identity demo_config no_torch)
                [2; 1]%float [0.5; 0.25]%float 0%float [0])
      as (x' & Hrun & _ & _ & _ & Hid).
    + reflexivity.
    + reflexivity.
    + reflexivity.
    + repeat (constructor; [simpl; lia |]). constructor.
    + exists x'. split; [exact Hrun |]. apply Hid.
      * repeat (constructor; [reflexivity |]). constructor.
      * repeat (constructor;
                [intros H; apply (f_equal classify) in H; discriminate H |]).
        constructor.
Defined.

(** ** The agent: one transition of a batch *)

Lemma add_returns (a b r : list float) :
  Np.add a b = Ok r -> r = zip_with PrimFloat.add a b.
Proof.
  revert b r. induction a as [| x a IH]; intros [| y b] r; simpl;
    try discriminate.
  - now intros [= <-].
  - destruct (Np.add a b) as [r' |] eqn:Hr; simpl; [| discriminate].
    intros [= <-]. now rewrite (IH b r' Hr).
Qed.

Lemma add_same_length (a b : list float) :
  length a = length b -> Np.add a b = Ok (zip_with PrimFloat.add a b).
Proof.
  revert b. induction a as [| x a IH]; intros [| y b] Hlen; simpl in *;
    try discriminate; [reflexivity |].
  rewrite IH by lia. reflexivity.
Qed.

Section AgentFacts.

Variable np_exp : float -> float.
Variable dot_kernel : list float -> list float -> float.
Variable np_mean : list float -> float.
Variable shuffle : nat -> list transition -> list transition.

Local Abbreviation process := (process_transition np_exp dot_kernel).
Local Abbreviation spec_step a :=
  (spec_transition_step np_exp dot_kernel (discount_factor a) (lr_c a)
     (lr_a a) (buffer_size a)).

Lemma np_dot_returns (x y : list float) (v : float) :
  np_dot dot_kernel x y = Ok v -> v = dot_kernel x y /\ length x = length y.
Proof.
  unfold np_dot. destruct (Nat.eqb_spec (length x) (length y)); [| discriminate].
  now intros [= <-].
Qed.

Ltac invert_dot H :=
  match type of H with
  | context [np_dot ?k ?x ?y] =>
      let E := fresh "Hdot" in
      let v := fresh "v" in
      destruct (np_dot k x y) as [v |] eqn:E; simpl in H;
      [apply np_dot_returns in E; destruct E as [-> E] | discriminate H]
  end.

Ltac invert_add H :=
  match type of H with
  | context [Np.add ?x ?y] =>
      let E := fresh "Hadd" in
      let r := fresh "r" in
      destruct (Np.add x y) as [r |] eqn:E; simpl in H;
      [apply add_returns in E; subst r | discriminate H]
  end.

(** A transition that returns has moved the two weight vectors by the step
    of the specification, logged the policy term, and returned the
    probability of the true label under the weights it met. *)
Lemma process_transition_returns (t : transition) (a a' : agent) (p : float) :
  process t a = (Ok p, a') ->
  (q_weights a', previous_policy_weight a')
  = spec_step a (q_weights a, previous_policy_weight a) t /\
  training_single_policy_weight_update a'
  = training_single_policy_weight_update a
    ++ [spec_policy_term (lr_a a)
          (spec_td_error dot_kernel (discount_factor a) (q_weights a) t)
          (buffer_size a)
          (spec_actor_grad np_exp dot_kernel (previous_policy_weight a) t)] /\
  p = (if t_true_label t =? 1
       then spec_sigmoid np_exp
              (dot_kernel (previous_policy_weight a) (t_obs t))
       else (1 - spec_sigmoid np_exp
                   (dot_kernel (previous_policy_weight a) (t_obs t)))%float) /\
  buffer a' = buffer a /\
  buffer_size a' = buffer_size a /\
  batch_update_count a' = batch_update_count a /\
  discount_factor a' = discount_factor a /\
  lr_c a' = lr_c a /\
  lr_a a' = lr_a a.
Proof.
  unfold process_transition. eff_unfold. intros H. simpl in H.
  invert_dot H.
  match type of H with
  | context [match ?m with Ok _ => _ | Raise _ => _ end] =>
      destruct m as [max_q_next |] eqn:Hmax; simpl in H; [| discriminate H]
  end.
  assert (Htarget :
    (t_reward t + discount_factor a * max_q_next)%float
    = spec_td_target dot_kernel (discount_factor a) (q_weights a) t).
  { unfold spec_td_target, spec_Q.
    destruct (t_terminated t); [now inversion Hmax |].
    destruct (t_next_obs t) as [nx |]; [| now inversion Hmax].
    unfold Py.bind in Hmax. invert_dot Hmax. invert_dot Hmax.
    now inversion Hmax. }
  rewrite Htarget in H.
  invert_add H. invert_dot H. invert_add H.
  inversion H; subst; clear H. simpl.
  unfold spec_transition_step, spec_td_error, spec_critic_increment,
    spec_policy_term, spec_actor_grad, spec_sigmoid, spec_Q,
    Np.clip_all, Np.div_all, Np.scale, Np.append,
    clipVal_td, clipVal_grad_log_pi, clipVal_policyWeight. simpl.
  rewrite !map_map.
  repeat split; reflexivity.
Qed.

(** What a transition leaves alone, whether it returns or raises. *)
Lemma process_transition_frame (t : transition) (a : agent) :
  buffer (snd (process t a)) = buffer a /\
  buffer_size (snd (process t a)) = buffer_size a /\
  batch_update_count (snd (process t a)) = batch_update_count a.
Proof.
  unfold process_transition. eff_unfold. simpl.
  repeat match goal with
         | |- context [match ?m with Ok _ => _ | Raise _ => _ end] =>
             destruct m; simpl
         end; auto.
Qed.

Lemma for_each_frame (batch : list transition) : forall a : agent,
  buffer (snd (for_each batch process a)) = buffer a /\
  buffer_size (snd (for_each batch process a)) = buffer_size a /\
  batch_update_count (snd (for_each batch process a)) = batch_update_count a.
Proof.
  induction batch as [| t batch IH]; intros a; simpl; [auto |].
  unfold Eff.bindM.
  destruct (process_transition_frame t a) as (Hb & Hs & Hc).
  destruct (process t a) as [[p | x] a1]; simpl in *; [| auto].
  destruct (IH a1) as (Hb' & Hs' & Hc').
  destruct (for_each batch process a1) as [[ps | x] a2]; simpl in *;
    repeat split; congruence.
Qed.

(** A batch that returns has folded the step of the specification over
    its transitions, in their order. *)
Lemma for_each_returns (batch : list transition) :
  forall (a a' : agent) (accs : list float),
    for_each batch process a = (Ok accs, a') ->
    (q_weights a', previous_policy_weight a')
    = spec_batch np_exp dot_kernel (discount_factor a) (lr_c a) (lr_a a)
        (buffer_size a) batch (q_weights a, previous_policy_weight a) /\
    length accs = length batch /\
    discount_factor a' = discount_factor a /\
    lr_c a' = lr_c a /\
    lr_a a' = lr_a a.
Proof.
  induction batch as [| t batch IH]; intros a a' accs; simpl.
  - unfold Eff.ret. intros [= <- <-]. auto.
  - unfold Eff.bindM.
    destruct (process t a) as [[p | x] a1] eqn:Hp; [| discriminate].
    destruct (for_each batch process a1) as [[ps | x] a2] eqn:Hrest;
      [| discriminate].
    unfold Eff.ret. intros [= <- <-].
    apply process_transition_returns in Hp.
    destruct Hp as (Hw & _ & _ & _ & Hs & _ & Hd & Hc & Ha).
    destruct (IH a1 a2 ps Hrest) as (Hw' & Hlen & Hd' & Hc' & Ha').
    rewrite Hw', Hw, Hd, Hc, Ha, Hs. simpl.
    repeat split; congruence.
Qed.

(** With the shapes right, a transition returns and keeps them right. *)
Lemma process_transition_ready (t : transition) (a : agent) :
  well_shaped (length (previous_policy_weight a)) t ->
  length (q_weights a) = S (length (previous_policy_weight a)) ->
  exists p a',
    process t a = (Ok p, a') /\
    length (previous_policy_weight a') = length (previous_policy_weight a) /\
    length (q_weights a') = length (q_weights a).
Proof.
  intros [Hobs Hnext] Hq.
  assert (Hdot : forall v : float,
             np_dot dot_kernel (q_weights a) (Np.append (t_obs t) v)
             = Ok (dot_kernel (q_weights a) (Np.append (t_obs t) v))).
  { intros v. unfold np_dot, Np.append. rewrite length_app, Hq, Hobs. simpl.
    replace (length (previous_policy_weight a) + 1)%nat
      with (S (length (previous_policy_weight a))) by lia.
    now rewrite Nat.eqb_refl. }
  assert (Hmax : exists m : float,
             match t_terminated t, t_next_obs t with
             | false, Some next_obs =>
                 let! q_next_0 :=
                   np_dot dot_kernel (q_weights a) (Np.append next_obs 0) in
                 let! q_next_1 :=
                   np_dot dot_kernel (q_weights a) (Np.append next_obs 1) in
                 Ok (py_max q_next_0 q_next_1)
             | _, _ => Ok 0%float
             end = Ok m).
  { destruct (t_terminated t); [now eexists |].
    destruct (t_next_obs t) as [nx |]; [| now eexists].
    unfold np_dot, Np.append. rewrite !length_app, Hq, Hnext. simpl.
    replace (length (previous_policy_weight a) + 1)%nat
      with (S (length (previous_policy_weight a))) by lia.
    rewrite Nat.eqb_refl. simpl. now eexists. }
  destruct Hmax as [m Hmax].
  unfold process_transition. eff_unfold. simpl.
  rewrite Hdot. simpl. rewrite Hmax. simpl.
  rewrite add_same_length.
  2:{ unfold Np.scale, Np.append. rewrite length_map, length_app, Hq, Hobs.
      simpl. lia. }
  simpl. unfold np_dot. rewrite Hobs, Nat.eqb_refl. simpl.
  rewrite add_same_length.
  2:{ unfold Np.clip_all, Np.div_all, Np.scale. now rewrite !length_map. }
  simpl. eexists _, _. split; [reflexivity |]. simpl.
  rewrite !length_zip_with.
  unfold Np.clip_all, Np.div_all, Np.scale, Np.append.
  rewrite !length_map, length_app, Hobs, Hq.
  change (length [Np.float_of_Z (t_action t)]) with 1%nat. lia.
Qed.

Lemma for_each_ready (batch : list transition) : forall a : agent,
  Forall (well_shaped (length (previous_policy_weight a))) batch ->
  length (q_weights a) = S (length (previous_policy_weight a)) ->
  exists accs a', for_each batch process a = (Ok accs, a').
Proof.
  induction batch as [| t batch IH]; intros a Hall Hq; simpl.
  - now eexists _, _.
  - inversion Hall as [| ? ? Ht Hrest]; subst.
    destruct (process_transition_ready t a Ht Hq) as (p & a1 & Hp & Hth & Hq1).
    unfold Eff.bindM. rewrite Hp.
    destruct (IH a1) as (accs & a2 & Hloop).
    + now rewrite Hth.
    + now rewrite Hq1, Hth.
    + rewrite Hloop. now eexists _, _.
Qed.

(** ** The agent: [batch_update] and the buffer *)

(** Below capacity [batch_update] does nothing. *)
Lemma batch_update_below (a : agent) :
  (length (buffer a) < buffer_size a)%nat ->
  batch_update np_exp dot_kernel np_mean shuffle a = (Ok tt, a).
Proof.
  intros Hlt. unfold batch_update. eff_unfold. simpl.
  destruct (Nat.ltb_spec (length (buffer a)) (buffer_size a)); [reflexivity | lia].
Qed.

(** At capacity it counts the update and runs the loop over the shuffled
    buffer; the buffer is cleared when the loop returns and untouched when
    it raises. *)
Lemma batch_update_full (a : agent) :
  (buffer_size a <= length (buffer a))%nat ->
  batch_update np_exp dot_kernel np_mean shuffle a
  = match for_each (shuffle (batch_update_count a) (buffer a)) process
            (set_batch_update_count (S (batch_update_count a)) a) with
    | (Ok accs, a2) => (Ok tt, log_batch_acc (np_mean accs) (set_buffer [] a2))
    | (Raise x, a2) => (Raise x, a2)
    end.
Proof.
  intros Hfull. unfold batch_update. eff_unfold. simpl.
  destruct (Nat.ltb_spec (length (buffer a)) (buffer_size a)); [lia |].
  simpl. now destruct (for_each _ _ _) as [[accs | x] a2].
Qed.

Lemma deque_append_length {A : Type} (n : nat) (d : list A) (x : A) :
  (length d <= n)%nat ->
  length (deque_append n d x) = Nat.min (S (length d)) n.
Proof.
  intros Hd. unfold deque_append.
  assert (Hlen : length (d ++ [x]) = S (length d))
    by (rewrite length_app; simpl; lia).
  rewrite Hlen.
  destruct (Nat.ltb_spec n (S (length d))) as [Hlt | Hge].
  - rewrite Nat.min_r by lia.
    destruct d as [| y d]; simpl in *; [lia |].
    rewrite length_app. simpl. lia.
  - rewrite Nat.min_l by lia. exact Hlen.
Qed.

(** [update], step by step. *)
Lemma observe_unfold (c : observed) (a : agent) :
  observe np_exp dot_kernel np_mean shuffle c a
  = let a1 :=
      set_buffer (deque_append (buffer_size a) (buffer a) (sample_of c)) a in
    match
      (if (buffer_size a1 <=? length (buffer a1))%nat
       then batch_update np_exp dot_kernel np_mean shuffle a1
       else (Ok tt, a1))
    with
    | (Ok _, a2) =>
        (Ok tt,
         log_step (abs (o_prob c - Np.float_of_Z (true_label (o_info c))))
           (if true_label (o_info c) =? 1 then o_prob c
            else (1 - o_prob c)%float)
           (AccDetail (o_prob c) (o_action c) (true_label (o_info c))
              (if true_label (o_info c) =? 1 then o_prob c
               else (1 - o_prob c)%float)
              (o_reward c))
           (o_reward c) a2)
    | (Raise x, a2) => (Raise x, a2)
    end.
Proof.
  unfold observe, update, Eff.bindM, Eff.modify, Eff.gets, Eff.ret, id.
  cbv zeta.
  now destruct (buffer_size _ <=? length _)%nat.
Qed.

(** One call of [update], from a state whose buffer is within capacity. *)
Lemma observe_outcome (c : observed) (a : agent) :
  (length (buffer a) <= buffer_size a)%nat ->
  let b := deque_append (buffer_size a) (buffer a) (sample_of c) in
  let out := observe np_exp dot_kernel np_mean shuffle c a in
  (length b <= buffer_size a)%nat /\
  buffer_size (snd out) = buffer_size a /\
  (length (buffer (snd out)) <= buffer_size a)%nat /\
  ((length b < buffer_size a)%nat ->
   fst out = Ok tt /\
   buffer (snd out) = b /\
   batch_update_count (snd out) = batch_update_count a /\
   q_weights (snd out) = q_weights a /\
   previous_policy_weight (snd out) = previous_policy_weight a) /\
  (length b = buffer_size a ->
   batch_update_count (snd out) = S (batch_update_count a) /\
   (fst out = Ok tt -> buffer (snd out) = [])).
Proof.
  intros Hinv b out.
  assert (Hb : (length b <= buffer_size a)%nat).
  { subst b. rewrite deque_append_length by exact Hinv. lia. }
  subst out. rewrite observe_unfold. cbv zeta. fold b.
  change (buffer_size (set_buffer b a)) with (buffer_size a).
  change (buffer (set_buffer b a)) with b.
  destruct (Nat.leb_spec (buffer_size a) (length b)) as [Hfull | Hless].
  - rewrite batch_update_full by exact Hfull.
    change (batch_update_count (set_buffer b a)) with (batch_update_count a).
    change (buffer (set_buffer b a)) with b.
    destruct (for_each_frame
                (shuffle (batch_update_count a) b)
                (set_batch_update_count (S (batch_update_count a))
                   (set_buffer b a))) as (Hbuf & Hsize & Hcount).
    destruct (for_each _ process _) as [[accs | x] a2]; simpl in *.
    + rewrite Hsize, Hcount.
      repeat split; try lia; auto.
    + rewrite Hsize, Hcount, Hbuf.
      repeat split; try lia; try discriminate.
  - simpl. repeat split; try lia; auto.
Qed.

Lemma observe_all_invariant (cs : list observed) : forall a : agent,
  (length (buffer a) <= buffer_size a)%nat ->
  (length (buffer (observe_all np_exp dot_kernel np_mean shuffle cs a))
   <= buffer_size a)%nat /\
  buffer_size (observe_all np_exp dot_kernel np_mean shuffle cs a)
  = buffer_size a.
Proof.
  induction cs as [| c cs IH]; intros a Hinv; simpl; [auto |].
  destruct (observe_outcome c a Hinv) as (_ & Hsize & Hlen & _).
  destruct (IH (snd (observe np_exp dot_kernel np_mean shuffle c a)))
    as (Hlen' & Hsize'); [now rewrite Hsize |].
  rewrite Hsize in *. auto.
Qed.

(** With the shapes right and a shuffle that permutes, a full buffer is
    processed to the end and cleared. *)
Lemma batch_update_ready (a : agent) :
  (forall (n : nat) (l : list transition), Permutation (shuffle n l) l) ->
  Forall (well_shaped (length (previous_policy_weight a))) (buffer a) ->
  length (q_weights a) = S (length (previous_policy_weight a)) ->
  (buffer_size a <= length (buffer a))%nat ->
  exists a',
    batch_update np_exp dot_kernel np_mean shuffle a = (Ok tt, a') /\
    buffer a' = [].
Proof.
  intros Hperm Hshape Hq Hfull.
  rewrite batch_update_full by exact Hfull.
  destruct (for_each_ready
              (shuffle (batch_update_count a) (buffer a))
              (set_batch_update_count (S (batch_update_count a)) a))
    as (accs & a2 & Hloop).
  - simpl. rewrite Hperm. exact Hshape.
  - exact Hq.
  - rewrite Hloop. now eexists.
Qed.

End AgentFacts.

(** C2.  A [batch_update] on a full buffer that returns has processed the
    buffered transitions in their shuffled order, each by the step of the
    specification applied to the weights the previous transitions left:
    TD target [r + gamma * max(Q(next_obs, 0), Q(next_obs, 1))] when not
    terminated and [next_obs] is present, else [r + gamma * 0], with
    [Q(obs, a)] the dot product of the critic weights and [concat(obs, a)];
    TD error clipped to [-10, 10]; critic weights incremented by
    [lr_critic * td_error * concat(obs, action)]; actor gradient
    [(action - p) * obs] with [p] the sigmoid of the current policy weights
    on [obs], clipped elementwise; policy weights incremented by
    [(lr_actor * td_error * grad) / buffer_capacity], that term clipped
    too. *)
Theorem batch_update_follows_spec (np_exp : float -> float)
    (dot_kernel : list float -> list float -> float)
    (np_mean : list float -> float)
    (shuffle : nat -> list transition -> list transition)
    (a a' : agent) :
  (buffer_size a <= length (buffer a))%nat ->
  batch_update np_exp dot_kernel np_mean shuffle a = (Ok tt, a') ->
  (q_weights a', previous_policy_weight a')
  = spec_batch np_exp dot_kernel (discount_factor a) (lr_c a) (lr_a a)
      (buffer_size a) (shuffle (batch_update_count a) (buffer a))
      (q_weights a, previous_policy_weight a).
Proof.
  intros Hfull Hrun.
  rewrite batch_update_full in Hrun by exact Hfull.
  destruct (for_each _ _ _) as [[accs | x] a2] eqn:Hloop; [| discriminate].
  inversion Hrun; subst; clear Hrun.
  apply for_each_returns in Hloop.
  destruct Hloop as (Hw & _). exact Hw.
Qed.

Lemma batch_update_follows_spec_witness :
  (q_weights
     (snd (batch_update exp_series dot_seq mean_seq shuffle_rev
             (set_buffer (map sample_of demo_calls) (demo_agent 2)))),
   previous_policy_weight
     (snd (batch_update exp_series dot_seq mean_seq shuffle_rev
             (set_buffer (map sample_of demo_calls) (demo_agent 2)))))
  = spec_batch exp_series dot_seq 0.5%float 0.25%float 0.5%float 2
      (rev (map sample_of demo_calls))
      ([0.25; 0.25; 0.25]%float, [0; 0]%float).
Proof.
  apply (batch_update_follows_spec exp_series dot_seq mean_seq shuffle_rev
           (set_buffer (map sample_of demo_calls) (demo_agent 2))).
  - simpl. lia.
  - vm_compute. reflexivity.
Defined.

(** The batch of the example, by hand: the second transition is processed
    first, and the first one meets the weights it left. *)
Example batch_update_demo :
  let a' :=
    snd (batch_update exp_series dot_seq mean_seq shuffle_rev
           (set_buffer (map sample_of demo_calls) (demo_agent 2))) in
  q_weights a' = [-0.3203125; 0.1171875; 0.25]%float /\
  training_single_policy_weight_update a'
  !! 0%nat = Some [0.4375; 0.21875]%float /\
  buffer a' = [].
Proof. vm_compute. auto. Qed.



(** C4.  From an agent whose buffer is within its capacity (a new agent's
    is empty), after any sequence of [update] calls the buffer is within
    the capacity, and so it is after one more call.  That call runs a batch
    update exactly when the buffer, with the new transition appended,
    has reached the capacity: below it the call returns with the
    transition buffered and the weights and the update count untouched; at
    capacity the update count goes up by one, and when the call returns the
    buffer is empty. *)
Theorem replay_buffer_invariant (np_exp : float -> float)
    (dot_kernel : list float -> list float -> float)
    (np_mean : list float -> float)
    (shuffle : nat -> list transition -> list transition)
    (a0 : agent) (cs : list observed) (c : observed) :
  (length (buffer a0) <= buffer_size a0)%nat ->
  let a := observe_all np_exp dot_kernel np_mean shuffle cs a0 in
  let b := deque_append (buffer_size a0) (buffer a) (sample_of c) in
  let out := observe np_exp dot_kernel np_mean shuffle c a in
  (length (buffer a) <= buffer_size a0)%nat /\
  (length (buffer (snd out)) <= buffer_size a0)%nat /\
  buffer_size (snd out) = buffer_size a0 /\
  batch_update_count (snd out)
  = (if (length b =? buffer_size a0)%nat then S (batch_update_count a)
     else batch_update_count a) /\
  ((length b < buffer_size a0)%nat ->
   fst out = Ok tt /\
   buffer (snd out) = b /\
   q_weights (snd out) = q_weights a /\
   previous_policy_weight (snd out) = previous_policy_weight a) /\
  (length b = buffer_size a0 -> fst out = Ok tt -> buffer (snd out) = []).
Proof.
  intros Hinv0 a b out.
  destruct (observe_all_invariant np_exp dot_kernel np_mean shuffle cs a0 Hinv0)
    as (Hinv & Hsize).
  fold a in Hinv, Hsize.
  assert (Hinv' : (length (buffer a) <= buffer_size a)%nat)
    by (rewrite Hsize; exact Hinv).
  destruct (observe_outcome np_exp dot_kernel np_mean shuffle c a Hinv')
    as (Hb & Hsize' & Hlen' & Hbelow & Hfull).
  fold out in Hsize', Hlen', Hbelow, Hfull.
  rewrite Hsize in Hb, Hsize', Hlen', Hbelow, Hfull.
  fold b in Hb, Hbelow, Hfull.
  split; [exact Hinv |]. split; [exact Hlen' |]. split; [exact Hsize' |].
  split; [| split].
  - destruct (Nat.eqb_spec (length b) (buffer_size a0)) as [Heq | Hne].
    + now apply Hfull.
    + apply Hbelow. lia.
  - intros Hlt. destruct (Hbelow Hlt) as (? & ? & ? & ? & ?). auto.
  - intros Heq. now apply Hfull.
Qed.

Lemma replay_buffer_invariant_witness :
  (length (buffer (observe_all exp_series dot_seq mean_seq shuffle_rev
                     (firstn 1 demo_calls) (demo_agent 2))) <= 2)%nat /\
  buffer (snd (observe exp_series dot_seq mean_seq shuffle_rev
                 (Observed [2; 1]%float 0 (-1)%float true (Info 1 None)
                    0.5%float)
                 (observe_all exp_series dot_seq mean_seq shuffle_rev
                    (firstn 1 demo_calls) (demo_agent 2)))) = [].
Proof.
  destruct (replay_buffer_invariant exp_series dot_seq mean_seq shuffle_rev
              (demo_agent 2) (firstn 1 demo_calls)
              (Observed [2; 1]%float 0 (-1)%float true (Info 1 None)
                 0.5%float))
    as (Hlen & _ & _ & _ & _ & Hfull).
  - simpl. lia.
  - split; [exact Hlen |]. apply Hfull.
    + vm_compute. reflexivity.
    + vm_compute. reflexivity.
Defined.

(** Two calls at capacity two: one update, after the second call. *)
Example observe_all_demo :
  let a := observe_all exp_series dot_seq mean_seq shuffle_rev demo_calls
             (demo_agent 2) in
  buffer a = [] /\ batch_update_count a = 1%nat /\
  length (buffer (observe_all exp_series dot_seq mean_seq shuffle_rev
                    (firstn 1 demo_calls) (demo_agent 2))) = 1%nat.
Proof. vm_compute. auto. Qed.

(** A transition of the wrong shape makes the update raise; the buffer
    stays full and within capacity. *)
Example observe_raises_demo :
  let out := observe exp_series dot_seq mean_seq shuffle_rev
               (Observed [1]%float 0 1%float false (Info 0 None) 0.5%float)
               (demo_agent 1) in
  fst out = Raise (ValueError "shapes not aligned") /\
  length (buffer (snd out)) = 1%nat /\
  batch_update_count (snd out) = 1%nat.
Proof. vm_compute. auto. Qed.

(* ------------------------------------------------------------------ *)
(** * Further properties of the environment *)

Section EnvCallFacts.

Variable cfg : config.
Variable torch_ascent :
  list float -> list float -> list Z -> list float -> result (list float).

Local Abbreviation GA := (strategic_response_GA cfg torch_ascent).
Local Abbreviation get_obs := (_get_obs cfg torch_ascent).
Local Abbreviation get_info := (_get_info cfg torch_ascent).
Local Abbreviation step' := (step cfg torch_ascent).
Local Abbreviation reset' := (reset cfg torch_ascent).
Local Abbreviation respond' := (respond cfg torch_ascent).

(** The look-ahead of [_get_info], by its value. *)
Lemma get_info_value (e : env) :
  fst (get_info e)
  = match active_y e !! samplePointer e with
    | None => Raise IndexError
    | Some l =>
        if (S (samplePointer e) <? length (active_x e))%nat then
          match active_x e !! S (samplePointer e) with
          | None => Raise IndexError
          | Some row =>
              if String.eqb (response_method cfg) "GA"
                 || String.eqb (response_method cfg) "Close"
              then
                let! o := respond' row (policy_weight e) (cost_weight e) in
                Ok (Info l (Some o))
              else Ok (Info l None)
          end
        else Ok (Info l None)
    end.
Proof.
  unfold _get_info, respond, strategic_response_GA. eff_unfold. simpl.
  destruct (active_y e !! samplePointer e) as [l |]; simpl; [| reflexivity].
  destruct (S (samplePointer e) <? length (active_x e))%nat; simpl;
    [| reflexivity].
  destruct (active_x e !! S (samplePointer e)) as [row |]; simpl;
    [| reflexivity].
  destruct (String.eqb (response_method cfg) "GA"); simpl.
  - destruct (strategic_response cfg); simpl; [| reflexivity].
    destruct (torch_ascent _ _ _ _) as [z |]; simpl; [| reflexivity].
    now destruct (Np.put _ _ _).
  - destruct (String.eqb (response_method cfg) "Close"); simpl;
      [| reflexivity].
    now destruct (strategic_response_Close _ _ _ _ _).
Qed.

(** The observation of [_get_obs], by its value. *)
Lemma get_obs_value (e : env) :
  fst (get_obs e)
  = match active_x e !! samplePointer e with
    | None => Raise IndexError
    | Some row => respond' row (policy_weight e) (cost_weight e)
    end.
Proof.
  unfold _get_obs, respond, strategic_response_GA. eff_unfold. simpl.
  destruct (active_x e !! samplePointer e) as [row |]; simpl; [| reflexivity].
  destruct (String.eqb (response_method cfg) "GA"); simpl.
  - destruct (strategic_response cfg); simpl; [| reflexivity].
    destruct (torch_ascent _ _ _ _) as [z |]; simpl; [| reflexivity].
    now destruct (Np.put _ _ _).
  - destruct (String.eqb (response_method cfg) "Close"); simpl;
      [| reflexivity].
    now destruct (strategic_response_Close _ _ _ _ _).
Qed.

(** The calls a returning [step] has made. *)
Lemma step_inversion (a : Z) (w : option (list float)) (e e' : env)
    (r : step_result) :
  step' a w e = (Ok r, e') ->
  exists l,
    active_y e !! samplePointer e = Some l /\
    sr_reward r = reward_of a l /\
    sr_terminated r = (length (active_x e) <=? S (samplePointer e))%nat /\
    sr_truncated r
      = (maximum_episode_length e <? Z.of_nat (S (samplePointer e))) /\
    if sr_terminated r || sr_truncated r then
      sr_obs r = None /\
      get_info (match w with Some w' => set_policy_weight w' e | None => e end)
      = (Ok (sr_info r), e')
    else
      exists o e2,
        get_obs (set_samplePointer (S (samplePointer e))
                   (match w with
                    | Some w' => set_policy_weight w' e
                    | None => e
                    end))
        = (Ok o, e2) /\
        get_info e2 = (Ok (sr_info r), e') /\
        sr_obs r = Some o.
Proof.
  unfold step. eff_unfold. simpl.
  destruct (active_y e !! samplePointer e) as [l |]; simpl; [| discriminate].
  intros Hstep. exists l. split; [reflexivity |].
  destruct w as [w' |]; simpl in Hstep;
    (destruct ((length (active_x e) <=? S (samplePointer e))%nat
               || (maximum_episode_length e <? Z.of_nat (S (samplePointer e))))
       eqn:Hflags; simpl in Hstep;
     [ match type of Hstep with
       | context [_get_info cfg torch_ascent ?e1] =>
           destruct (get_info e1) as [[i | x] e2] eqn:Hinfo;
           [| discriminate]
       end
     | match type of Hstep with
       | context [_get_obs cfg torch_ascent ?e1] =>
           destruct (get_obs e1) as [[o | x] e2] eqn:Hobs;
           [| discriminate];
           destruct (get_info e2) as [[i | x] e3] eqn:Hinfo;
           [| discriminate]
       end ];
     inversion Hstep; subst; simpl; rewrite Hflags; eauto 10).
Qed.

(** A returning [_get_info] reports the label at the cursor. *)
Lemma get_info_label (e e' : env) (i : info) :
  get_info e = (Ok i, e') ->
  active_y e !! samplePointer e = Some (true_label i).
Proof.
  intros H. pose proof (get_info_value e) as Hv. rewrite H in Hv. simpl in Hv.
  destruct (active_y e !! samplePointer e) as [l |]; [| discriminate].
  repeat case_match; try discriminate;
    try (unfold Py.bind in Hv; case_match; try discriminate);
    now inversion Hv.
Qed.

Lemma same_data_refl (e : env) : same_data e e.
Proof. repeat split. Qed.

Lemma same_data_trans (e1 e2 e3 : env) :
  same_data e1 e2 -> same_data e2 e3 -> same_data e1 e3.
Proof.
  unfold same_data. intros (? & ? & ? & ? & ? & ? & ?) (? & ? & ? & ? & ? & ? & ?).
  repeat split; congruence.
Qed.

Lemma same_data_active (e e' : env) :
  same_data e e' -> active_x e' = active_x e /\ active_y e' = active_y e.
Proof.
  intros (Hm & _ & Htx & Hty & Hex & Hey & _).
  unfold active_x, active_y, is_train. now rewrite Hm, Htx, Hty, Hex, Hey.
Qed.

(** The object after [step], whether it returned or raised: the data are
    the same, the cursor is where it was or one further (and then inside
    both bounds), the weights are the old ones or the ones handed in. *)
Lemma step_state (a : Z) (w : option (list float)) (e : env) :
  same_data e (snd (step' a w e)) /\
  (samplePointer (snd (step' a w e)) = samplePointer e \/
   (samplePointer (snd (step' a w e)) = S (samplePointer e) /\
    (S (samplePointer e) < length (active_x e))%nat /\
    Z.of_nat (S (samplePointer e)) <= maximum_episode_length e)) /\
  (policy_weight (snd (step' a w e)) = policy_weight e \/
   w = Some (policy_weight (snd (step' a w e)))).
Proof.
  unfold step. eff_unfold. simpl.
  destruct (active_y e !! samplePointer e) as [l |]; simpl;
    [| split; [apply same_data_refl | auto]].
  destruct w as [w' |]; simpl;
    (destruct (Nat.leb_spec (length (active_x e)) (S (samplePointer e)))
       as [Hend | Hmore];
     destruct (Z.ltb_spec (maximum_episode_length e)
                 (Z.of_nat (S (samplePointer e)))) as [Htr | Hin]; simpl;
     match goal with
     | |- context [_get_obs cfg torch_ascent ?e1] =>
         destruct (get_obs_state cfg torch_ascent e1) as (b & n & Hs);
         destruct (get_obs e1) as [[o | x] e2]; simpl in Hs; subst e2;
         [ match goal with
           | |- context [_get_info cfg torch_ascent ?e3] =>
               destruct (get_info_state cfg torch_ascent e3)
                 as (b' & n' & Hs');
               destruct (get_info e3) as [[i | x] e4]; simpl in Hs'; subst e4
           end
         | ]
     | |- context [_get_info cfg torch_ascent ?e1] =>
         destruct (get_info_state cfg torch_ascent e1) as (b & n & Hs);
         destruct (get_info e1) as [[i | x] e2]; simpl in Hs; subst e2
     end; simpl;
     (split; [repeat split |]); auto 10).
Qed.

Lemma reset_state (e : env) :
  same_data e (snd (reset' e)) /\
  samplePointer (snd (reset' e)) = 0%nat /\
  policy_weight (snd (reset' e)) = policy_weight e.
Proof.
  unfold reset. eff_unfold. simpl.
  destruct (get_obs_state cfg torch_ascent (set_samplePointer 0 e))
    as (b & n & Hs).
  destruct (get_obs (set_samplePointer 0 e)) as [[o | x] e2]; simpl in Hs;
    subst e2; [| repeat split].
  match goal with
  | |- context [_get_info cfg torch_ascent ?e3] =>
      destruct (get_info_state cfg torch_ascent e3) as (b' & n' & Hs');
      destruct (get_info e3) as [[i | x] e4]; simpl in Hs'; subst e4
  end; repeat split.
Qed.

(** [reset], by its value: it reads the first row, the first label and,
    if there is one, the second row. *)
Lemma reset_value (e : env) :
  fst (reset' e)
  = let! o := fst (get_obs (set_samplePointer 0 e)) in
    let! i := fst (get_info (set_samplePointer 0 e)) in
    Ok (o, i).
Proof.
  unfold reset. eff_unfold. simpl.
  destruct (get_obs_state cfg torch_ascent (set_samplePointer 0 e))
    as (b & n & Hs).
  destruct (get_obs (set_samplePointer 0 e)) as [[o | x] e2]; simpl in Hs;
    subst e2; simpl; [| reflexivity].
  match goal with
  | |- context [_get_info cfg torch_ascent
                  (set_trigger_once ?b' (set_response_call_count ?n' ?e0))] =>
      assert (Hv : fst (get_info (set_trigger_once b'
                                    (set_response_call_count n' e0)))
                   = fst (get_info e0))
        by (rewrite !get_info_value; reflexivity);
      destruct (get_info (set_trigger_once b' (set_response_call_count n' e0)))
        as [[i | x] e4]
  end; simpl in Hv |- *; rewrite <- Hv; reflexivity.
Qed.

(** Two objects with the same data and weights reset to the same value. *)
Lemma reset_agree (e e' : env) :
  same_data e e' -> policy_weight e' = policy_weight e ->
  fst (reset' e') = fst (reset' e).
Proof.
  intros Hd Hw.
  destruct (same_data_active e e' Hd) as [Hx Hy].
  destruct Hd as (_ & _ & _ & _ & _ & _ & Hc).
  rewrite !reset_value, !get_obs_value, !get_info_value. simpl.
  change (active_x (set_samplePointer 0 e')) with (active_x e').
  change (active_y (set_samplePointer 0 e')) with (active_y e').
  change (active_x (set_samplePointer 0 e)) with (active_x e).
  change (active_y (set_samplePointer 0 e)) with (active_y e).
  now rewrite Hx, Hy, Hw, Hc.
Qed.

(** The look-ahead a returning [_get_info] reported is the observation
    [_get_obs] returns one row further, the weights being the same. *)
Lemma lookahead_matches (e0 e1 e3 : env) (i : info) (o : list float) :
  get_info e0 = (Ok i, e1) ->
  get_obs (set_samplePointer (S (samplePointer e1)) e1) = (Ok o, e3) ->
  (S (samplePointer e1) < length (active_x e1))%nat ->
  next_obs i = Some o.
Proof.
  intros Hinfo Hobs Hlt.
  destruct (get_info_state cfg torch_ascent e0) as (b & n & Hs).
  rewrite Hinfo in Hs. simpl in Hs. subst e1.
  pose proof (get_info_value e0) as Hiv. rewrite Hinfo in Hiv. simpl in Hiv.
  match type of Hobs with
  | _get_obs _ _ ?e2 = _ =>
      pose proof (get_obs_value e2) as Hov; rewrite Hobs in Hov
  end.
  simpl in Hov, Hlt.
  change (active_x (set_samplePointer _ (set_trigger_once b
            (set_response_call_count n e0)))) with (active_x e0) in Hov.
  change (active_x (set_trigger_once b (set_response_call_count n e0)))
    with (active_x e0) in Hlt.
  destruct (active_y e0 !! samplePointer e0) as [l |]; [| discriminate].
  destruct (Nat.ltb_spec (S (samplePointer e0)) (length (active_x e0)));
    [| lia].
  destruct (active_x e0 !! S (samplePointer e0)) as [row |]; [| discriminate].
  rewrite <- Hov in Hiv. simpl in Hiv.
  destruct (String.eqb (response_method cfg) "GA"
            || String.eqb (response_method cfg) "Close") eqn:Hknown.
  - now inversion Hiv.
  - apply orb_false_iff in Hknown. destruct Hknown as [HGA HClose].
    symmetry in Hov. unfold respond in Hov. rewrite HGA, HClose in Hov.
    discriminate.
Qed.

Lemma run_calls_same_data (cs : list env_call) : forall e : env,
  same_data e (run_calls cfg torch_ascent cs e).
Proof.
  induction cs as [| c cs IH]; intros e; simpl; [apply same_data_refl |].
  eapply same_data_trans; [| apply IH].
  destruct c as [| a w]; simpl.
  - apply reset_state.
  - apply step_state.
Qed.

End EnvCallFacts.

(** X1.  Whatever calls are made on the environment ([reset] and [step], with
    any actions and weights, returning or raising), the data stay the same;
    a cursor inside the active split stays inside it; and a cursor within
    the horizon [max 0 maximum_episode_length] stays within it. *)
Theorem run_calls_keep_cursor_in_bounds (cfg : config)
    (torch_ascent : list float -> list float -> list Z -> list float
                    -> result (list float))
    (cs : list env_call) (e : env) :
  (samplePointer e < length (active_x e))%nat ->
  same_data e (run_calls cfg torch_ascent cs e) /\
  (samplePointer (run_calls cfg torch_ascent cs e)
   < length (active_x (run_calls cfg torch_ascent cs e)))%nat /\
  (Z.of_nat (samplePointer e) <= Z.max 0 (maximum_episode_length e) ->
   Z.of_nat (samplePointer (run_calls cfg torch_ascent cs e))
   <= Z.max 0 (maximum_episode_length e)).
Proof.
  revert e. induction cs as [| c cs IH]; intros e Hp; simpl.
  - split; [apply same_data_refl | auto].
  - assert (Hstep :
        same_data e (run_call cfg torch_ascent c e) /\
        (samplePointer (run_call cfg torch_ascent c e)
         < length (active_x e))%nat /\
        (Z.of_nat (samplePointer e) <= Z.max 0 (maximum_episode_length e) ->
         Z.of_nat (samplePointer (run_call cfg torch_ascent c e))
         <= Z.max 0 (maximum_episode_length e))).
    { destruct c as [| a w]; simpl.
      - destruct (reset_state cfg torch_ascent e) as (Hd & -> & _).
        split; [exact Hd |]. split; lia.
      - destruct (step_state cfg torch_ascent a w e) as (Hd & Hc & _).
        split; [exact Hd |].
        destruct Hc as [-> | (-> & Hlt & Hmel)]; split; auto; lia. }
    destruct Hstep as (Hd & Hlt & Hmel).
    destruct (same_data_active _ _ Hd) as [Hx _].
    destruct (IH (run_call cfg torch_ascent c e)) as (Hd' & Hlt' & Hmel');
      [now rewrite Hx |].
    split; [eapply same_data_trans; eassumption |].
    split; [exact Hlt' |].
    intros H0. destruct Hd as (_ & Hm & _). rewrite Hm in Hmel'. auto.
Qed.

Lemma run_calls_keep_cursor_in_bounds_witness :
  same_data (demo_env 1)
    (run_calls demo_config no_torch
       [CallStep 0 None; CallStep 1 None; CallReset; CallStep 5 (Some [])]
       (demo_env 1)) /\
  (samplePointer
     (run_calls demo_config no_torch
        [CallStep 0 None; CallStep 1 None; CallReset; CallStep 5 (Some [])]
        (demo_env 1))
   < length (active_x
               (run_calls demo_config no_torch
                  [CallStep 0 None; CallStep 1 None; CallReset;
                   CallStep 5 (Some [])]
                  (demo_env 1))))%nat /\
  (Z.of_nat (samplePointer (demo_env 1))
   <= Z.max 0 (maximum_episode_length (demo_env 1)) ->
   Z.of_nat
     (samplePointer
        (run_calls demo_config no_torch
           [CallStep 0 None; CallStep 1 None; CallReset; CallStep 5 (Some [])]
           (demo_env 1)))
   <= Z.max 0 (maximum_episode_length (demo_env 1))).
Proof.
  apply (run_calls_keep_cursor_in_bounds demo_config no_torch
           [CallStep 0 None; CallStep 1 None; CallReset; CallStep 5 (Some [])]
           (demo_env 1)).
  simpl. lia.
Defined.

(** The last call of the example hands in weights of the wrong length and
    raises, after the cursor moved. *)
Example run_calls_demo :
  fst (step demo_config no_torch 5 (Some []) (demo_env 1))
  = Raise IndexError /\
  samplePointer (snd (step demo_config no_torch 5 (Some []) (demo_env 1)))
  = 1%nat.
Proof. vm_compute. auto. Qed.

(** X2.  A returning [step] leaves the weights handed in (the old ones if
    none), and reports in [info] the label at the cursor it leaves: with
    neither flag set the cursor is one further and an observation is
    returned; with a flag set the cursor has not moved and the observation
    is [None], the label being that of the row where the episode ended. *)
Theorem step_leaves_label_at_cursor (cfg : config)
    (torch_ascent : list float -> list float -> list Z -> list float
                    -> result (list float))
    (a : Z) (w : option (list float)) (e e' : env) (r : step_result) :
  step cfg torch_ascent a w e = (Ok r, e') ->
  active_y e' !! samplePointer e' = Some (true_label (sr_info r)) /\
  policy_weight e' = default (policy_weight e) w /\
  (if sr_terminated r || sr_truncated r
   then samplePointer e' = samplePointer e /\ sr_obs r = None
   else samplePointer e' = S (samplePointer e) /\ sr_obs r <> None).
Proof.
  intros Hstep.
  destruct (step_inversion cfg torch_ascent a w e e' r Hstep)
    as (l & _ & _ & _ & _ & Hcalls).
  destruct (sr_terminated r || sr_truncated r).
  - destruct Hcalls as (Hobs & Hinfo).
    pose proof (get_info_label cfg torch_ascent _ _ _ Hinfo) as Hl.
    destruct (get_info_state cfg torch_ascent
                (match w with
                 | Some w' => set_policy_weight w' e
                 | None => e
                 end)) as (b & n & Hs).
    rewrite Hinfo in Hs. simpl in Hs. subst e'.
    destruct w; simpl in *; auto.
  - destruct Hcalls as (o & e2 & Hobs & Hinfo & Hsome).
    pose proof (get_info_label cfg torch_ascent _ _ _ Hinfo) as Hl.
    destruct (get_info_state cfg torch_ascent e2) as (b & n & Hs).
    rewrite Hinfo in Hs. simpl in Hs. subst e'.
    match type of Hobs with
    | _get_obs _ _ ?e1 = _ =>
        destruct (get_obs_state cfg torch_ascent e1) as (b' & n' & Hs')
    end.
    rewrite Hobs in Hs'. simpl in Hs'. subst e2.
    rewrite Hsome. destruct w; simpl in *; repeat split; auto; discriminate.
Qed.

Lemma step_leaves_label_at_cursor_witness :
  active_y (set_trigger_once true
              (set_samplePointer 1 (set_policy_weight [1; 1]%float (demo_env 9))))
    !! 1%nat = Some 1 /\
  policy_weight
    (set_trigger_once true
       (set_samplePointer 1 (set_policy_weight [1; 1]%float (demo_env 9))))
  = [1; 1]%float.
Proof.
  destruct (step_leaves_label_at_cursor demo_config no_torch 0
              (Some [1; 1]%float) (demo_env 9)
              (set_trigger_once true
                 (set_samplePointer 1
                    (set_policy_weight [1; 1]%float (demo_env 9))))
              (StepResult (Some [1; 1]%float) 1 false false
                 (Info 1 (Some [2; 1]%float))))
    as (Hl & Hw & _).
  - vm_compute. reflexivity.
  - split; [exact Hl | exact Hw].
Defined.

(** X3.  The observation a returning, non-final [step] returns is the
    configured response to the row after the cursor, computed with the
    weights handed to this very call (the current ones if none): new
    weights take effect on the observation of the same step. *)
Theorem step_observes_with_new_weights (cfg : config)
    (torch_ascent : list float -> list float -> list Z -> list float
                    -> result (list float))
    (a : Z) (w : option (list float)) (e e' : env) (r : step_result) :
  step cfg torch_ascent a w e = (Ok r, e') ->
  sr_terminated r || sr_truncated r = false ->
  exists row o,
    active_x e !! S (samplePointer e) = Some row /\
    respond cfg torch_ascent row (default (policy_weight e) w) (cost_weight e)
    = Ok o /\
    sr_obs r = Some o.
Proof.
  intros Hstep Hflags.
  destruct (step_inversion cfg torch_ascent a w e e' r Hstep)
    as (l & _ & _ & _ & _ & Hcalls).
  rewrite Hflags in Hcalls.
  destruct Hcalls as (o & e2 & Hobs & _ & Hsome).
  match type of Hobs with
  | _get_obs _ _ ?e1 = _ =>
      pose proof (get_obs_value cfg torch_ascent e1) as Hv
  end.
  rewrite Hobs in Hv. simpl in Hv.
  destruct w as [w' |]; simpl in *.
  - change (active_x (set_samplePointer (S (samplePointer e))
                        (set_policy_weight w' e)))
      with (active_x e) in Hv.
    destruct (active_x e !! S (samplePointer e)) as [row |]; [| discriminate].
    now exists row, o.
  - change (active_x (set_samplePointer (S (samplePointer e)) e))
      with (active_x e) in Hv.
    destruct (active_x e !! S (samplePointer e)) as [row |]; [| discriminate].
    now exists row, o.
Qed.

Lemma step_observes_with_new_weights_witness :
  exists row o,
    active_x (demo_env 9) !! S (samplePointer (demo_env 9)) = Some row /\
    respond demo_config no_torch row
      (default (policy_weight (demo_env 9)) (Some [1; 1]%float))
      (cost_weight (demo_env 9)) = Ok o /\
    sr_obs (StepResult (Some [1; 1]%float) 1 false false
              (Info 1 (Some [2; 1]%float))) = Some o.
Proof.
  apply (step_observes_with_new_weights demo_config no_torch 0
           (Some [1; 1]%float) (demo_env 9)
           (set_trigger_once true
              (set_samplePointer 1
                 (set_policy_weight [1; 1]%float (demo_env 9))))).
  - vm_compute. reflexivity.
  - reflexivity.
Defined.

(** X4.  The look-ahead is the next observation: when a [reset] or a [step]
    has returned and the following [step] is given no new weights and does
    not end the episode, the observation it returns is the [next_obs] the
    previous call reported in [info]. *)
Theorem lookahead_is_next_observation (cfg : config)
    (torch_ascent : list float -> list float -> list Z -> list float
                    -> result (list float)) :
  (forall (e e1 e2 : env) (o : list float) (i : info) (a2 : Z)
          (r2 : step_result),
      reset cfg torch_ascent e = (Ok (o, i), e1) ->
      step cfg torch_ascent a2 None e1 = (Ok r2, e2) ->
      sr_terminated r2 || sr_truncated r2 = false ->
      sr_obs r2 = next_obs i) /\
  (forall (a : Z) (w : option (list float)) (e e1 e2 : env)
          (r r2 : step_result) (a2 : Z),
      step cfg torch_ascent a w e = (Ok r, e1) ->
      step cfg torch_ascent a2 None e1 = (Ok r2, e2) ->
      sr_terminated r2 || sr_truncated r2 = false ->
      sr_obs r2 = next_obs (sr_info r)).
Proof.
  assert (Hnext : forall (e0 e1 e2 : env) (i : info) (a2 : Z)
                         (r2 : step_result),
             _get_info cfg torch_ascent e0 = (Ok i, e1) ->
             step cfg torch_ascent a2 None e1 = (Ok r2, e2) ->
             sr_terminated r2 || sr_truncated r2 = false ->
             sr_obs r2 = next_obs i).
  { intros e0 e1 e2 i a2 r2 Hinfo Hstep Hflags.
    destruct (step_inversion cfg torch_ascent a2 None e1 e2 r2 Hstep)
      as (l & _ & _ & Hterm & _ & Hcalls).
    rewrite Hflags in Hcalls.
    destruct Hcalls as (o2 & e3 & Hobs & _ & Hsome).
    apply orb_false_iff in Hflags. destruct Hflags as [Hnt _].
    rewrite Hterm in Hnt. apply Nat.leb_gt in Hnt.
    rewrite Hsome. symmetry.
    exact (lookahead_matches cfg torch_ascent e0 e1 e3 i o2 Hinfo Hobs Hnt). }
  split.
  - intros e e1 e2 o i a2 r2 Hreset. revert Hreset.
    unfold reset. unfold Eff.bindM at 1 2. unfold Eff.modify at 1.
    destruct (_get_obs cfg torch_ascent (set_samplePointer 0 e))
      as [[o' | x] e0]; [| discriminate].
    unfold Eff.bindM.
    destruct (_get_info cfg torch_ascent e0) as [[i' | x] e1'] eqn:Hinfo;
      [| discriminate].
    unfold Eff.ret. intros [= <- <- <-] Hs2 Hf.
    exact (Hnext e0 e1' e2 i' a2 r2 Hinfo Hs2 Hf).
  - intros a w e e1 e2 r r2 a2 Hstep.
    destruct (step_inversion cfg torch_ascent a w e e1 r Hstep)
      as (l & _ & _ & _ & _ & Hcalls).
    destruct (sr_terminated r || sr_truncated r).
    + destruct Hcalls as (_ & Hinfo). intros Hs2 Hf.
      exact (Hnext _ e1 e2 _ a2 r2 Hinfo Hs2 Hf).
    + destruct Hcalls as (o & e0 & _ & Hinfo & _). intros Hs2 Hf.
      exact (Hnext e0 e1 e2 _ a2 r2 Hinfo Hs2 Hf).
Qed.

Lemma lookahead_is_next_observation_witness :
  sr_obs (StepResult (Some [1.5; 1]%float) 1 false false
            (Info 1 (Some [2.5; 1]%float)))
  = next_obs (Info 0 (Some [1.5; 1]%float)).
Proof.
  apply (proj1 (lookahead_is_next_observation demo_config no_torch)
           (demo_env 9) (set_trigger_once true (demo_env 9))
           (set_trigger_once true (set_samplePointer 1 (demo_env 9)))
           [0.5; 1]%float (Info 0 (Some [1.5; 1]%float)) 0).
  - vm_compute. reflexivity.
  - vm_compute. reflexivity.
  - reflexivity.
Defined.

(** X5.  An ended episode stays ended: after a returning [step] with
    [terminated] or [truncated] set, any further [step] that returns
    reports the same two flags, no observation, the same label in [info],
    and leaves the cursor where it was; its reward is for that label. *)
Theorem ended_episode_stays_ended (cfg : config)
    (torch_ascent : list float -> list float -> list Z -> list float
                    -> result (list float))
    (a a2 : Z) (w w2 : option (list float)) (e e1 e2 : env)
    (r r2 : step_result) :
  step cfg torch_ascent a w e = (Ok r, e1) ->
  sr_terminated r || sr_truncated r = true ->
  step cfg torch_ascent a2 w2 e1 = (Ok r2, e2) ->
  sr_terminated r2 = sr_terminated r /\
  sr_truncated r2 = sr_truncated r /\
  sr_obs r2 = None /\
  true_label (sr_info r2) = true_label (sr_info r) /\
  sr_reward r2 = reward_of a2 (true_label (sr_info r)) /\
  samplePointer e2 = samplePointer e.
Proof.
  intros Hstep Hflags Hstep2.
  destruct (step_returns cfg torch_ascent a w e e1 r Hstep)
    as (l & Hl & _ & Hterm & Htrunc & Hptr & _ & Hx & Hy & Hmel).
  destruct (step_returns cfg torch_ascent a2 w2 e1 e2 r2 Hstep2)
    as (l2 & Hl2 & Hrew2 & Hterm2 & Htrunc2 & Hptr2 & Hobs2 & _ & Hy2 & _).
  rewrite Hflags in Hptr.
  rewrite Hx, Hptr in Hterm2. rewrite Hmel, Hptr in Htrunc2.
  assert (Hflags2 : sr_terminated r2 || sr_truncated r2 = true)
    by (rewrite Hterm2, Htrunc2, <- Hterm, <- Htrunc; exact Hflags).
  rewrite Hflags2 in Hptr2, Hobs2.
  destruct (step_inversion cfg torch_ascent a w e e1 r Hstep)
    as (_ & _ & _ & _ & _ & Hcalls).
  destruct (step_inversion cfg torch_ascent a2 w2 e1 e2 r2 Hstep2)
    as (_ & _ & _ & _ & _ & Hcalls2).
  rewrite Hflags in Hcalls. rewrite Hflags2 in Hcalls2.
  destruct Hcalls as (_ & Hinfo). destruct Hcalls2 as (_ & Hinfo2).
  apply get_info_label in Hinfo. apply get_info_label in Hinfo2.
  assert (Hlab : true_label (sr_info r) = l).
  { destruct w; unfold active_y, is_train in Hinfo, Hl; simpl in Hinfo;
      rewrite Hl in Hinfo; now inversion Hinfo. }
  assert (Hlab2 : true_label (sr_info r2) = l2).
  { destruct w2; unfold active_y, is_train in Hinfo2, Hl2; simpl in Hinfo2;
      rewrite Hl2 in Hinfo2; now inversion Hinfo2. }
  assert (Hll : l2 = l).
  { rewrite Hy, Hptr, Hl in Hl2. now inversion Hl2. }
  rewrite Hlab, Hlab2, Hrew2, Hll, Hterm2, Htrunc2, Hterm, Htrunc, Hptr2, Hptr.
  auto 10.
Qed.

Lemma ended_episode_stays_ended_witness :
  sr_terminated (StepResult None 1 false true (Info 0 (Some [0; 1]%float)))
  = sr_terminated (StepResult None 1 false true (Info 0 (Some [1.5; 1]%float)))
  /\
  sr_truncated (StepResult None 1 false true (Info 0 (Some [0; 1]%float)))
  = sr_truncated (StepResult None 1 false true (Info 0 (Some [1.5; 1]%float)))
  /\
  sr_obs (StepResult None 1 false true (Info 0 (Some [0; 1]%float))) = None /\
  true_label (sr_info (StepResult None 1 false true
                         (Info 0 (Some [0; 1]%float))))
  = true_label (sr_info (StepResult None 1 false true
                           (Info 0 (Some [1.5; 1]%float)))) /\
  sr_reward (StepResult None 1 false true (Info 0 (Some [0; 1]%float)))
  = reward_of 0 (true_label (sr_info (StepResult None 1 false true
                                        (Info 0 (Some [1.5; 1]%float))))) /\
  samplePointer (set_policy_weight [2; 1]%float (demo_env 0))
  = samplePointer (demo_env 0).
Proof.
  apply (ended_episode_stays_ended demo_config no_torch 0 0 None
           (Some [2; 1]%float) (demo_env 0) (demo_env 0)).
  - vm_compute. reflexivity.
  - reflexivity.
  - vm_compute. reflexivity.
Defined.

(** X6.  [reset] is repeatable: after any calls that left the weights as
    they were, [reset] returns what it returned at the start (the same
    observation and info, or the same exception). *)
Theorem reset_is_repeatable (cfg : config)
    (torch_ascent : list float -> list float -> list Z -> list float
                    -> result (list float))
    (cs : list env_call) (e : env) :
  policy_weight (run_calls cfg torch_ascent cs e) = policy_weight e ->
  fst (reset cfg torch_ascent (run_calls cfg torch_ascent cs e))
  = fst (reset cfg torch_ascent e).
Proof.
  intros Hw. apply reset_agree; [apply run_calls_same_data | exact Hw].
Qed.

Lemma reset_is_repeatable_witness :
  fst (reset demo_config no_torch
         (run_calls demo_config no_torch
            [CallStep 0 None; CallStep 1 None; CallStep 1 None]
            (demo_env 9)))
  = fst (reset demo_config no_torch (demo_env 9)).
Proof.
  apply (reset_is_repeatable demo_config no_torch
           [CallStep 0 None; CallStep 1 None; CallStep 1 None] (demo_env 9)).
  reflexivity.
Defined.

(* ------------------------------------------------------------------ *)
(** * Further properties of the strategic responses *)

Section IndexFacts.

Implicit Types (a : list float) (idx : list Z).

Lemma norm_index_in_bounds (n : nat) (i : Z) :
  - Z.of_nat n <= i < Z.of_nat n ->
  exists k, Np.norm_index n i = Ok k /\ (k < n)%nat /\
            Z.of_nat k = (if i <? 0 then Z.of_nat n + i else i).
Proof.
  intros Hi. unfold Np.norm_index.
  destruct (Z.leb_spec 0 i), (Z.ltb_spec i (Z.of_nat n)),
    (Z.leb_spec (- Z.of_nat n) i), (Z.ltb_spec i 0); simpl; try lia;
    eexists; (split; [reflexivity |]); lia.
Qed.

Lemma norm_index_out_of_bounds (n : nat) (i : Z) :
  ~ (- Z.of_nat n <= i < Z.of_nat n) ->
  Np.norm_index n i = Raise IndexError.
Proof.
  intros Hi. unfold Np.norm_index.
  destruct (Z.leb_spec 0 i), (Z.ltb_spec i (Z.of_nat n)),
    (Z.leb_spec (- Z.of_nat n) i), (Z.ltb_spec i 0); simpl; try lia;
    reflexivity.
Qed.

(** A gather returns when every index is inside the bounds, and raises
    [IndexError] when one is not. *)
Lemma take_in_bounds a idx :
  Forall (fun i => - Z.of_nat (length a) <= i < Z.of_nat (length a)) idx ->
  exists r, Np.take a idx = Ok r /\ length r = length idx.
Proof.
  induction 1 as [| i idx Hi _ (r & IH & Hlen)]; simpl; [now exists [] |].
  destruct (norm_index_in_bounds _ _ Hi) as (k & -> & Hk & _). simpl.
  rewrite IH. simpl.
  destruct (lookup_lt_is_Some_2 a k Hk) as [v ->].
  exists (v :: r). simpl. now rewrite Hlen.
Qed.

Lemma take_out_of_bounds a idx :
  Exists (fun i => ~ (- Z.of_nat (length a) <= i < Z.of_nat (length a))) idx ->
  Np.take a idx = Raise IndexError.
Proof.
  induction 1 as [i idx Hi | i idx _ IH]; simpl.
  - now rewrite norm_index_out_of_bounds.
  - destruct (Np.norm_index (length a) i) as [k | x] eqn:Hk; simpl.
    + now rewrite IH.
    + unfold Np.norm_index in Hk. repeat case_match; now inversion Hk.
Qed.

Lemma add_equal_length (a b : list float) :
  length a = length b ->
  exists r, Np.add a b = Ok r /\ length r = length a.
Proof.
  intros Hlen. rewrite add_same_length by exact Hlen.
  eexists. split; [reflexivity |]. rewrite length_zip_with. lia.
Qed.

(** A scatter returns when every index is inside the bounds and there is
    one value per index; the array keeps its length, and a position no
    index falls on keeps its value. *)
Lemma put_in_bounds idx : forall a (vals : list float),
  Forall (fun i => - Z.of_nat (length a) <= i < Z.of_nat (length a)) idx ->
  length vals = length idx ->
  exists r, Np.put a idx vals = Ok r.
Proof.
  induction idx as [| i idx IH]; intros a [| v vals] Hall Hlen;
    simpl in *; try discriminate; [now exists a |].
  inversion Hall as [| ? ? Hi Hrest]; subst.
  destruct (norm_index_in_bounds _ _ Hi) as (k & -> & _). simpl.
  apply IH; [now rewrite length_insert | lia].
Qed.

Lemma put_returns idx : forall a (vals r : list float),
  Np.put a idx vals = Ok r ->
  length r = length a /\
  forall k : nat,
    (forall i, In i idx -> Np.norm_index (length a) i <> Ok k) ->
    r !! k = a !! k.
Proof.
  induction idx as [| i idx IH]; intros a [| v vals] r; simpl;
    try discriminate.
  - intros [= <-]. auto.
  - destruct (Np.norm_index (length a) i) as [j |] eqn:Hj; simpl;
      [| discriminate].
    intros Hput. destruct (IH _ _ _ Hput) as (Hlen & Hkeep).
    rewrite length_insert in Hlen, Hkeep.
    split; [exact Hlen |].
    intros k Hk. rewrite Hkeep by (intros i' Hi'; apply Hk; now right).
    apply list_lookup_insert_ne. intros ->. apply (Hk i); [now left | exact Hj].
Qed.

End IndexFacts.

(** X7.  Index errors of the closed form (manipulation on): it returns, with
    a vector of the length of the input, when every strategic index is
    inside the bounds both of the weights without the bias and of the
    feature vector (negative indices counting from the end); as soon as one
    index is outside either, it raises [IndexError] and returns nothing. *)
Theorem strategic_response_Close_index_errors (cfg : config)
    (x theta : list float) (eps : float) (S : list Z) :
  strategic_response cfg = true ->
  (Forall (fun i =>
             - Z.of_nat (length theta - 1) <= i < Z.of_nat (length theta - 1)
             /\ - Z.of_nat (length x) <= i < Z.of_nat (length x)) S ->
   exists x',
     strategic_response_Close cfg x theta eps (Some S) = Ok x' /\
     length x' = length x) /\
  (Exists (fun i =>
             ~ (- Z.of_nat (length theta - 1) <= i
                < Z.of_nat (length theta - 1)
                /\ - Z.of_nat (length x) <= i < Z.of_nat (length x))) S ->
   strategic_response_Close cfg x theta eps (Some S) = Raise IndexError).
Proof.
  intros Hon. unfold strategic_response_Close. rewrite Hon. simpl.
  split.
  - intros Hall.
    destruct (take_in_bounds (removelast theta) S) as (ts & Hts & Hlts).
    { rewrite length_removelast. eapply Forall_impl; [exact Hall |].
      simpl. tauto. }
    rewrite Hts. simpl. unfold Np.iadd_at.
    destruct (take_in_bounds x S) as (xs & Hxs & Hlxs).
    { eapply Forall_impl; [exact Hall |]. simpl. tauto. }
    rewrite Hxs. simpl.
    destruct (add_equal_length xs (Np.scale (- eps) ts)) as (new & Hnew & Hlnew).
    { unfold Np.scale. rewrite length_map. congruence. }
    rewrite Hnew. simpl.
    destruct (put_in_bounds S x new) as (r & Hr).
    { eapply Forall_impl; [exact Hall |]. simpl. tauto. }
    { congruence. }
    exists r. split; [exact Hr |].
    now destruct (put_returns _ _ _ _ Hr).
  - intros Hex.
    destruct (Forall_Exists_dec
                (fun i => - Z.of_nat (length (removelast theta)) <= i
                          < Z.of_nat (length (removelast theta)))
                (fun i => ~ (- Z.of_nat (length (removelast theta)) <= i
                             < Z.of_nat (length (removelast theta))))
                (fun i =>
                   match Z_le_dec (- Z.of_nat (length (removelast theta))) i,
                         Z_lt_dec i (Z.of_nat (length (removelast theta)))
                   with
                   | left H1, left H2 => left (conj H1 H2)
                   | right H1, _ => right (fun H => H1 (proj1 H))
                   | _, right H2 => right (fun H => H2 (proj2 H))
                   end) S) as [Hth | Hth].
    + destruct (take_in_bounds (removelast theta) S Hth) as (ts & -> & _).
      simpl. unfold Np.iadd_at. rewrite take_out_of_bounds; [reflexivity |].
      rewrite Forall_forall in Hth. rewrite Exists_exists in Hex |- *.
      destruct Hex as (i & Hi & Hbad). exists i. split; [exact Hi |].
      intros Hx. apply Hbad. split; [| exact Hx].
      rewrite <- length_removelast. now apply Hth.
    + now rewrite take_out_of_bounds.
Qed.

Lemma strategic_response_Close_index_errors_witness :
  (exists x',
      strategic_response_Close default_config [1; 2; 1]%float
        [0.5; 0.25; 3]%float 1%float (Some [0; -1]) = Ok x' /\
      length x' = 3%nat) /\
  strategic_response_Close default_config [1; 2; 1]%float
    [0.5; 0.25; 3]%float 1%float (Some (strat_features default_config))
  = Raise IndexError.
Proof.
  destruct (strategic_response_Close_index_errors default_config
              [1; 2; 1]%float [0.5; 0.25; 3]%float 1%float [0; -1] eq_refl)
    as (Hok & _).
  destruct (strategic_response_Close_index_errors default_config
              [1; 2; 1]%float [0.5; 0.25; 3]%float 1%float
              (strat_features default_config) eq_refl)
    as (_ & Hbad).
  split.
  - apply Hok. repeat (constructor; [simpl; lia |]). constructor.
  - apply Hbad. right. left. simpl. lia.
Defined.

Lemma in_range (n : nat) (k : nat) :
  In (Z.of_nat k) (Np.range (Z.of_nat n)) <-> (k < n)%nat.
Proof.
  unfold Np.range. rewrite Nat2Z.id, in_map_iff. split.
  - intros (j & Hj & Hin). apply in_seq in Hin. lia.
  - intros Hk. exists k. split; [reflexivity |]. apply in_seq. lia.
Qed.

Lemma range_in_bounds (n : nat) :
  Forall (fun i => 0 <= i < Z.of_nat n) (Np.range (Z.of_nat n)).
Proof.
  unfold Np.range. rewrite Nat2Z.id. apply Forall_forall. intros i Hi.
  apply list_elem_of_In, in_map_iff in Hi. destruct Hi as (j & <- & Hj).
  apply in_seq in Hj. lia.
Qed.

(** X8.  Without an index array ([strat_features] is [None]) the closed
    form manipulates every feature but the bias: for weights of the length
    of the input, [x'_k = x_k - eps * theta_k] at every position before the
    last, and the last position, the bias, is returned as it is. *)
Theorem strategic_response_Close_all_features (cfg : config)
    (x theta : list float) (eps : float) :
  strategic_response cfg = true ->
  length theta = length x ->
  exists x',
    strategic_response_Close cfg x theta eps None = Ok x' /\
    length x' = length x /\
    (forall (k : nat) (xk tk : float),
        (S k < length x)%nat -> x !! k = Some xk -> theta !! k = Some tk ->
        x' !! k = Some (xk - eps * tk)%float) /\
    x' !! (length x - 1)%nat = x !! (length x - 1)%nat.
Proof.
  intros Hon Hlen.
  assert (Hn : Z.of_nat (length theta) - 1 = Z.of_nat (length x - 1)
               \/ length x = 0%nat) by lia.
  destruct Hn as [Hn | Hzero].
  - destruct (strategic_response_Close_sum cfg x theta eps
                (Np.range (Z.of_nat (length x - 1))) Hon Hlen)
      as (x' & Hrun & Hlen' & Hx').
    { eapply Forall_impl; [apply range_in_bounds |]. simpl. lia. }
    exists x'. split.
    { unfold strategic_response_Close in *. rewrite Hon in *. simpl in *.
      now rewrite Hn. }
    split; [exact Hlen' |]. split.
    + intros k xk tk Hk Hxk Htk.
      destruct (Hx' k) as [Hin _]. rewrite Hin by (apply in_range; lia).
      rewrite (nth_lookup_Some _ _ _ _ Hxk), (nth_lookup_Some _ _ _ _ Htk).
      now rewrite float_add_opp_mul.
    + apply Hx'. rewrite in_range. lia.
  - destruct x; [| discriminate]. destruct theta; [| discriminate].
    exists []. unfold strategic_response_Close. rewrite Hon. simpl.
    repeat split; try reflexivity. intros k xk tk Hk. simpl in Hk. lia.
Qed.

Lemma strategic_response_Close_all_features_witness :
  exists x',
    strategic_response_Close demo_config [1; 2; 1]%float
      [0.5; 0.25; 3]%float 2%float None = Ok x' /\
    length x' = 3%nat /\
    (forall (k : nat) (xk tk : float),
        (S k < 3)%nat -> [1; 2; 1]%float !! k = Some xk ->
        [0.5; 0.25; 3]%float !! k = Some tk ->
        x' !! k = Some (xk - 2 * tk)%float) /\
    x' !! 2%nat = Some 1%float.
Proof.
  apply (strategic_response_Close_all_features demo_config [1; 2; 1]%float
           [0.5; 0.25; 3]%float 2%float); reflexivity.
Defined.

Example close_all_features_demo :
  strategic_response_Close demo_config [1; 2; 1]%float
    [0.5; 0.25; 3]%float 2%float None = Ok [0; 1.5; 1]%float.
Proof. vm_compute. reflexivity. Qed.

(** X9.  A negative strategic index counts from the end of two arrays of
    different lengths: in the weights without the bias it names the weight
    at [D + i], in the feature vector the position [D + 1 + i], one to the
    right.  So the index [-1] moves the bias coordinate, by the weight of
    the last feature. *)
Theorem strategic_response_Close_negative_index (cfg : config)
    (x theta : list float) (eps : float) (i : Z) (xk tk : float) :
  strategic_response cfg = true ->
  length theta = length x ->
  - (Z.of_nat (length x) - 1) <= i < 0 ->
  x !! Z.to_nat (Z.of_nat (length x) + i) = Some xk ->
  theta !! Z.to_nat (Z.of_nat (length x) - 1 + i) = Some tk ->
  strategic_response_Close cfg x theta eps (Some [i])
  = Ok (<[Z.to_nat (Z.of_nat (length x) + i) := (xk - eps * tk)%float]> x).
Proof.
  intros Hon Hlen Hi Hxk Htk.
  unfold strategic_response_Close. rewrite Hon. simpl.
  destruct (norm_index_in_bounds (length (removelast theta)) i)
    as (kt & Hkt & Hkt_lt & Hkt_eq).
  { rewrite length_removelast. lia. }
  destruct (norm_index_in_bounds (length x) i) as (kx & Hkx & _ & Hkx_eq);
    [lia |].
  destruct (Z.ltb_spec i 0); [| lia].
  rewrite length_removelast, Hlen in Hkt_eq.
  assert (kt = Z.to_nat (Z.of_nat (length x) - 1 + i)) by lia.
  assert (kx = Z.to_nat (Z.of_nat (length x) + i)) by lia.
  subst kt kx.
  rewrite Hkt. simpl.
  rewrite lookup_removelast, Htk by (rewrite length_removelast in Hkt_lt; lia).
  simpl. unfold Np.iadd_at. simpl. rewrite Hkx. simpl. rewrite Hxk. simpl.
  now rewrite float_add_opp_mul.
Qed.

Lemma strategic_response_Close_negative_index_witness :
  strategic_response_Close demo_config [1; 2; 1]%float
    [0.5; 0.25; 3]%float 2%float (Some [-1])
  = Ok (<[Z.to_nat (Z.of_nat (length [1; 2; 1]%float) + -1)
          := (1 - 2 * 0.25)%float]> [1; 2; 1]%float).
Proof.
  apply (strategic_response_Close_negative_index demo_config [1; 2; 1]%float
           [0.5; 0.25; 3]%float 2%float (-1) 1%float 0.25%float).
  - reflexivity.
  - reflexivity.
  - simpl. lia.
  - reflexivity.
  - reflexivity.
Defined.

(** The bias of the example comes back as 0.5. *)
Example close_negative_index_demo :
  strategic_response_Close demo_config [1; 2; 1]%float
    [0.5; 0.25; 3]%float 2%float (Some [-1]) = Ok [1; 2; 0.5]%float.
Proof. vm_compute. reflexivity. Qed.

(** X10.  The iterative response, called as [_get_obs] calls it (no index
    array): every call is counted, returning or raising; with manipulation
    off the input is returned; and whatever the optimiser produced, a
    returned vector has the length of the input and agrees with it from the
    position [len(policy_weight) - 1] on, so that the bias of a row of the
    length of the weights is never touched. *)
Theorem strategic_response_GA_keeps_bias (cfg : config)
    (torch_ascent : list float -> list float -> list Z -> list float
                    -> result (list float))
    (x theta x' : list float) (e e' : env) :
  strategic_response_GA cfg torch_ascent x theta None e = (Ok x', e') ->
  e' = set_response_call_count (S (response_call_count e)) e /\
  length x' = length x /\
  (strategic_response cfg = false -> x' = x) /\
  (forall k : nat, (length theta - 1 <= k)%nat -> x' !! k = x !! k).
Proof.
  intros Hrun.
  pose proof (strategic_response_GA_state cfg torch_ascent x theta None e)
    as Hstate.
  rewrite Hrun in Hstate. simpl in Hstate. split; [exact Hstate |].
  revert Hrun. unfold strategic_response_GA. eff_unfold. simpl.
  destruct (strategic_response cfg); simpl.
  - destruct (torch_ascent _ _ _ _) as [z |]; simpl; [| discriminate].
    destruct (Np.put x _ z) as [r |] eqn:Hput; [| discriminate].
    intros [= <- _].
    destruct (put_returns _ _ _ _ Hput) as (Hlen & Hkeep).
    split; [exact Hlen |]. split; [discriminate |].
    intros k Hk. apply Hkeep. intros i Hi Hnorm.
    unfold Np.range in Hi. apply in_map_iff in Hi.
    destruct Hi as (j & <- & Hj). apply in_seq in Hj.
    unfold Np.norm_index in Hnorm.
    destruct (Z.leb_spec 0 (Z.of_nat j)); [| lia]. simpl in Hnorm.
    destruct (Z.of_nat j <? Z.of_nat (length x)); simpl in Hnorm.
    + inversion Hnorm. lia.
    + destruct (Z.ltb_spec (Z.of_nat j) 0); [lia |].
      rewrite andb_false_r in Hnorm. discriminate.
  - intros [= <- _]. auto.
Qed.

Lemma strategic_response_GA_keeps_bias_witness :
  set_response_call_count 1 (demo_env 9)
  = set_response_call_count (S (response_call_count (demo_env 9))) (demo_env 9)
  /\
  length [0.5; 0.5; 1]%float = length [3; -2; 1]%float /\
  (strategic_response (Config 1%float [0] true "GA") = false ->
   [0.5; 0.5; 1]%float = [3; -2; 1]%float) /\
  (forall k : nat,
      (length [0.5; 0.25; 3]%float - 1 <= k)%nat ->
      [0.5; 0.5; 1]%float !! k = [3; -2; 1]%float !! k).
Proof.
  apply (strategic_response_GA_keeps_bias (Config 1%float [0] true "GA")
           torch_half [3; -2; 1]%float [0.5; 0.25; 3]%float
           [0.5; 0.5; 1]%float (demo_env 9)).
  vm_compute. reflexivity.
Defined.

(* ------------------------------------------------------------------ *)
(** * Properties of the loaders *)

Section GatherFacts.

Context {A : Type}.

Lemma gather_Forall2 (a : list A) (idx : list nat) : forall r : list A,
  DataPrep.gather a idx = Ok r <->
  Forall2 (fun i v => a !! i = Some v) idx r.
Proof.
  induction idx as [| i idx IH]; intros r; simpl.
  - split.
    + intros [= <-]. constructor.
    + intros H. inversion H. reflexivity.
  - destruct (a !! i) as [v |] eqn:Hv.
    + destruct (DataPrep.gather a idx) as [r' |] eqn:Hr'; simpl.
      * split.
        -- intros [= <-]. constructor; [exact Hv | now apply IH].
        -- intros H. inversion H as [| ? v' ? r'' Hv' Hrest]; subst.
           apply IH in Hrest. congruence.
      * split; [discriminate |].
        intros H. inversion H as [| ? v' ? r'' Hv' Hrest]; subst.
        apply IH in Hrest. discriminate.
    + split; [discriminate |].
      intros H. inversion H; congruence.
Qed.

Lemma gather_total (a : list A) (idx : list nat) :
  Forall (fun i => (i < length a)%nat) idx ->
  exists r, DataPrep.gather a idx = Ok r.
Proof.
  induction 1 as [| i idx Hi _ (r & IH)]; simpl; [now eexists |].
  destruct (lookup_lt_is_Some_2 a i Hi) as [v ->]. rewrite IH. now eexists.
Qed.

Lemma gather_elements (a : list A) (idx : list nat) (r : list A)
    (P : A -> Prop) :
  DataPrep.gather a idx = Ok r ->
  (forall i v, In i idx -> a !! i = Some v -> P v) ->
  Forall P r.
Proof.
  rewrite gather_Forall2. induction 1 as [| i v idx r Hv _ IH]; intros HP.
  - constructor.
  - constructor; [apply (HP i); [now left | exact Hv] |].
    apply IH. intros i' v' Hi'. apply HP. now right.
Qed.

(** Gathering through a permutation of all positions permutes the
    array. *)
Lemma gather_permutation (a : list A) (p : list nat) :
  Permutation p (seq 0 (length a)) ->
  exists r, DataPrep.gather a p = Ok r /\ Permutation r a.
Proof.
  intros Hp.
  destruct (gather_total a p) as (r & Hr).
  { apply Forall_forall. intros i Hi.
    apply list_elem_of_In in Hi.
    apply (Permutation_in _ Hp), in_seq in Hi. lia. }
  exists r. split; [exact Hr |].
  apply gather_Forall2 in Hr.
  assert (Hmap : map Some r = map (fun i => a !! i) p).
  { clear Hp. induction Hr as [| i v idx r Hv _ IH]; simpl; congruence. }
  assert (Hshift : forall s : nat,
             map (fun i => a !! (i - s)%nat) (seq s (length a)) = map Some a).
  { clear. induction a as [| y a IH]; intros s; simpl; [reflexivity |].
    rewrite Nat.sub_diag. simpl. f_equal.
    rewrite <- (IH (S s)). apply map_ext_in. intros i Hi.
    apply in_seq in Hi. replace (i - s)%nat with (S (i - S s)) by lia.
    reflexivity. }
  assert (Hall : map (fun i => a !! i) (seq 0 (length a)) = map Some a).
  { rewrite <- (Hshift 0%nat). apply map_ext. intros i.
    now rewrite Nat.sub_0_r. }
  assert (Hperm : Permutation (map Some r) (map Some a)).
  { rewrite Hmap, <- Hall. now apply Permutation_map. }
  apply Permutation_sym, Permutation_map_inv in Hperm.
  destruct Hperm as (l3 & Heq & Hperm).
  assert (l3 = a).
  { clear - Heq. revert l3 Heq. induction a as [| y a IH]; intros [| z l3] Heq;
      simpl in *; try discriminate; [reflexivity |].
    inversion Heq. f_equal. now apply IH. }
  subst l3. exact Hperm.
Qed.

End GatherFacts.

Section LoaderFacts.

Import DataPrep.

Lemma where_eq_from_spec (v : Z) (Y : list Z) : forall (s j : nat),
  In j (where_eq_from v Y s) ->
  (s <= j)%nat /\ Y !! (j - s)%nat = Some v.
Proof.
  induction Y as [| y Y IH]; intros s j; simpl; [tauto |].
  destruct (Z.eqb_spec y v) as [-> | Hne].
  - intros [<- | Hin].
    + rewrite Nat.sub_diag. split; [lia | reflexivity].
    + destruct (IH _ _ Hin) as [Hle Hj]. split; [lia |].
      replace (j - s)%nat with (S (j - S s)) by lia. exact Hj.
  - intros Hin. destruct (IH _ _ Hin) as [Hle Hj]. split; [lia |].
    replace (j - s)%nat with (S (j - S s)) by lia. exact Hj.
Qed.

Lemma where_eq_spec (v : Z) (Y : list Z) (j : nat) :
  In j (where_eq v Y) -> Y !! j = Some v.
Proof.
  intros Hin. destruct (where_eq_from_spec v Y 0 j Hin) as [_ Hj].
  now rewrite Nat.sub_0_r in Hj.
Qed.

Lemma where_eq_from_length (v : Z) (Y : list Z) : forall s : nat,
  length (where_eq_from v Y s) = count_occ Z.eq_dec Y v.
Proof.
  induction Y as [| y Y IH]; intros s; simpl; [reflexivity |].
  destruct (Z.eq_dec y v) as [Heq | Hneq], (Z.eqb_spec y v) as [Heq' | Hne];
    simpl; try congruence; now rewrite IH.
Qed.

(** The rows [load_data] keeps: those labelled 1 and the first
    [max_other] of those labelled 0. *)
Lemma balanced_indices (Y : list Z) (j : nat) :
  In j (where_eq 1 Y ++ firstn max_other (where_eq 0 Y)) ->
  Y !! j = Some 1 \/ Y !! j = Some 0.
Proof.
  rewrite in_app_iff. intros [H1 | H0].
  - left. now apply where_eq_spec.
  - right. apply where_eq_spec.
    rewrite <- (firstn_skipn max_other (where_eq 0 Y)).
    apply in_or_app. now left.
Qed.

Lemma lookup_append_ones (X : list (list float)) (j : nat) (r : list float) :
  append_ones X !! j = Some r ->
  exists r0, X !! j = Some r0 /\ r = r0 ++ [1%float].
Proof.
  unfold append_ones. intros H.
  apply list_lookup_fmap_Some_1 in H. destruct H as (r0 & -> & H0).
  now exists r0.
Qed.

End LoaderFacts.

(** X11.  What [load_data] returns, for any outcome column and any index
    array [p]: as many rows as labels, one per entry of [p]; every label is
    0 or 1 (a row with any other outcome is left out); every row is a row
    of the scaled matrix with the bias 1 appended, and it still goes with
    the outcome of that very row. *)
Theorem load_data_rows_and_labels (X_scaled : list (list float))
    (Y_all : list Z) (p : list nat) (X_full : list (list float))
    (Y_full : list Z) :
  DataPrep.load_data X_scaled Y_all p = Ok (X_full, Y_full) ->
  length X_full = length p /\
  length Y_full = length p /\
  Forall (fun l => l = 0 \/ l = 1) Y_full /\
  (forall (n : nat) (r : list float) (l : Z),
      X_full !! n = Some r -> Y_full !! n = Some l ->
      exists (j : nat) (r0 : list float),
        X_scaled !! j = Some r0 /\
        r = r0 ++ [1%float] /\
        Y_all !! j = Some l).
Proof.
  unfold DataPrep.load_data. cbv zeta.
  set (indices := DataPrep.where_eq 1 Y_all
                  ++ firstn DataPrep.max_other (DataPrep.where_eq 0 Y_all)).
  destruct (DataPrep.gather (DataPrep.append_ones X_scaled) indices)
    as [Xb |] eqn:HXb; simpl; [| discriminate].
  destruct (DataPrep.gather Y_all indices) as [Yb |] eqn:HYb; simpl;
    [| discriminate].
  destruct (DataPrep.gather Xb p) as [Xf |] eqn:HXf; simpl; [| discriminate].
  destruct (DataPrep.gather Yb p) as [Yf |] eqn:HYf; simpl; [| discriminate].
  intros [= <- <-].
  assert (HYb_bin : Forall (fun l => l = 0 \/ l = 1) Yb).
  { apply (gather_elements _ _ _ _ HYb). intros j l Hj Hl.
    destruct (balanced_indices Y_all j Hj) as [H1 | H0]; rewrite Hl in *.
    - right. now inversion H1.
    - left. now inversion H0. }
  assert (HYf_bin : Forall (fun l => l = 0 \/ l = 1) Yf).
  { apply (gather_elements _ _ _ _ HYf). intros k l _ Hl.
    rewrite Forall_forall in HYb_bin. apply HYb_bin.
    eapply list_elem_of_lookup_2. exact Hl. }
  apply gather_Forall2 in HXb, HYb, HXf, HYf.
  split; [symmetry; eapply Forall2_length; exact HXf |].
  split; [symmetry; eapply Forall2_length; exact HYf |].
  split; [exact HYf_bin |].
  intros n r l Hr Hl.
  destruct (Forall2_lookup_r _ _ _ _ _ HXf Hr) as (k & Hk & HXbk).
  destruct (Forall2_lookup_r _ _ _ _ _ HYf Hl) as (k' & Hk' & HYbk).
  rewrite Hk in Hk'. inversion Hk'; subst k'.
  destruct (Forall2_lookup_r _ _ _ _ _ HXb HXbk) as (j & Hj & HXj).
  destruct (Forall2_lookup_r _ _ _ _ _ HYb HYbk) as (j' & Hj' & HYj).
  rewrite Hj in Hj'. inversion Hj'; subst j'.
  destruct (lookup_append_ones _ _ _ HXj) as (r0 & Hr0 & ->).
  now exists j, r0.
Qed.

Lemma load_data_rows_and_labels_witness :
  length [[4; 1]; [3; 1]; [1; 1]]%float = length [2; 1; 0]%nat /\
  length [0; 1; 1] = length [2; 1; 0]%nat /\
  Forall (fun l => l = 0 \/ l = 1) [0; 1; 1] /\
  (forall (n : nat) (r : list float) (l : Z),
      [[4; 1]; [3; 1]; [1; 1]]%float !! n = Some r ->
      [0; 1; 1] !! n = Some l ->
      exists (j : nat) (r0 : list float),
        [[1]; [2]; [3]; [4]]%float !! j = Some r0 /\
        r = r0 ++ [1%float] /\
        [1; 7; 1; 0] !! j = Some l).
Proof.
  apply (load_data_rows_and_labels [[1]; [2]; [3]; [4]]%float [1; 7; 1; 0]
           [2; 1; 0]%nat).
  vm_compute. reflexivity.
Defined.

Lemma gather_constant (Y : list Z) (v : Z) (idx : list nat) :
  Forall (fun j => Y !! j = Some v) idx ->
  Forall2 (fun j l => Y !! j = Some l) idx (repeat v (length idx)).
Proof.
  induction 1 as [| j idx Hj _ IH]; simpl; constructor; assumption.
Qed.

(** X12.  The class balance of [load_data]: when the matrix has a row per
    outcome and [p] is a permutation of the positions of the kept rows,
    the call returns, and the labels it returns are, up to order, all the
    1s of the outcome column followed by its 0s, of which no more than
    10000 are kept. *)
Theorem load_data_class_balance (X_scaled : list (list float))
    (Y_all : list Z) (p : list nat) :
  length X_scaled = length Y_all ->
  Permutation p
    (seq 0 (count_occ Z.eq_dec Y_all 1
            + Nat.min DataPrep.max_other (count_occ Z.eq_dec Y_all 0))) ->
  exists (X_full : list (list float)) (Y_full : list Z),
    DataPrep.load_data X_scaled Y_all p = Ok (X_full, Y_full) /\
    Permutation Y_full
      (repeat 1 (count_occ Z.eq_dec Y_all 1)
       ++ repeat 0 (Nat.min DataPrep.max_other (count_occ Z.eq_dec Y_all 0))).
Proof.
  intros Hlen Hp.
  unfold DataPrep.load_data. cbv zeta.
  set (ones := DataPrep.where_eq 1 Y_all).
  set (zeros := firstn DataPrep.max_other (DataPrep.where_eq 0 Y_all)).
  assert (Hones : length ones = count_occ Z.eq_dec Y_all 1)
    by apply where_eq_from_length.
  assert (Hzeros : length zeros
                   = Nat.min DataPrep.max_other (count_occ Z.eq_dec Y_all 0)).
  { subst zeros. rewrite length_firstn. f_equal. apply where_eq_from_length. }
  assert (H1 : Forall (fun j => Y_all !! j = Some 1) ones).
  { apply Forall_forall. intros j Hj. apply where_eq_spec.
    now apply list_elem_of_In. }
  assert (H0 : Forall (fun j => Y_all !! j = Some 0) zeros).
  { apply Forall_forall. intros j Hj. apply where_eq_spec.
    apply list_elem_of_In in Hj.
    rewrite <- (firstn_skipn DataPrep.max_other (DataPrep.where_eq 0 Y_all)).
    apply in_or_app. now left. }
  assert (HYb : DataPrep.gather Y_all (ones ++ zeros)
                = Ok (repeat 1 (length ones) ++ repeat 0 (length zeros))).
  { apply gather_Forall2. apply Forall2_app; now apply gather_constant. }
  destruct (gather_total (DataPrep.append_ones X_scaled) (ones ++ zeros))
    as (Xb & HXb).
  { apply Forall_app. unfold DataPrep.append_ones.
    rewrite length_map, Hlen.
    split; (eapply Forall_impl; [eassumption |]); simpl; intros j Hj;
      eapply lookup_lt_Some; exact Hj. }
  rewrite HXb, HYb. unfold Py.bind.
  assert (HlenXb : length Xb = length (ones ++ zeros)).
  { apply gather_Forall2 in HXb. symmetry. eapply Forall2_length. exact HXb. }
  rewrite length_app, Hones, Hzeros in HlenXb.
  destruct (gather_permutation Xb p) as (Xf & HXf & _);
    [now rewrite HlenXb |].
  destruct (gather_permutation
              (repeat 1 (length ones) ++ repeat 0 (length zeros)) p)
    as (Yf & HYf & HpermY).
  { now rewrite length_app, !repeat_length, Hones, Hzeros. }
  rewrite HXf, HYf. exists Xf, Yf. split; [reflexivity |].
  now rewrite <- Hones, <- Hzeros.
Qed.

Lemma load_data_class_balance_witness :
  exists (X_full : list (list float)) (Y_full : list Z),
    DataPrep.load_data [[1]; [2]; [3]; [4]]%float [1; 7; 1; 0] [2; 1; 0]%nat
    = Ok (X_full, Y_full) /\
    Permutation Y_full
      (repeat 1 (count_occ Z.eq_dec [1; 7; 1; 0] 1)
       ++ repeat 0 (Nat.min DataPrep.max_other
                      (count_occ Z.eq_dec [1; 7; 1; 0] 0))).
Proof.
  apply (load_data_class_balance [[1]; [2]; [3]; [4]]%float [1; 7; 1; 0]
           [2; 1; 0]%nat).
  - reflexivity.
  - change (Permutation [2; 1; 0]%nat [0; 1; 2]%nat).
    apply (perm_trans (l' := [1; 2; 0]%nat)).
    + apply perm_swap.
    + apply (perm_trans (l' := [1; 0; 2]%nat)).
      * apply perm_skip, perm_swap.
      * apply perm_swap.
Defined.

Lemma load_data_binary (X_scaled : list (list float)) (Y_all : list Z)
    (p : list nat) (X_full : list (list float)) (Y_full : list Z) :
  DataPrep.load_data X_scaled Y_all p = Ok (X_full, Y_full) ->
  Forall (fun l => l = 0 \/ l = 1) Y_full.
Proof.
  unfold DataPrep.load_data. cbv zeta.
  destruct (DataPrep.gather (DataPrep.append_ones X_scaled) _)
    as [Xb |]; [| discriminate].
  unfold Py.bind at 1.
  destruct (DataPrep.gather Y_all _) as [Yb |] eqn:HYb; [| discriminate].
  unfold Py.bind at 1.
  destruct (DataPrep.gather Xb p) as [Xf |]; [| discriminate].
  unfold Py.bind at 1.
  destruct (DataPrep.gather Yb p) as [Yf |] eqn:HYf; [| discriminate].
  intros [= _ <-].
  apply (gather_elements _ _ _ _ HYf). intros k l _ Hl.
  assert (HYb_bin : Forall (fun l => l = 0 \/ l = 1) Yb).
  { apply (gather_elements _ _ _ _ HYb). intros j l' Hj Hl'.
    destruct (balanced_indices Y_all j Hj) as [H1 | H0]; rewrite Hl' in *.
    - right. now inversion H1.
    - left. now inversion H0. }
  rewrite Forall_forall in HYb_bin. apply HYb_bin.
  eapply list_elem_of_lookup_2. exact Hl.
Qed.

Lemma load_test_data_binary (test_data test_prob : list (list float)) :
  Forall (fun l => l = 0 \/ l = 1)
         (snd (DataPrep.load_test_data test_data test_prob)).
Proof.
  unfold DataPrep.load_test_data. simpl. apply Forall_forall. intros l Hl.
  apply list_elem_of_In, in_map_iff in Hl. destruct Hl as (v & <- & _).
  destruct (DataPrep.test_label_threshold <=? v)%float; auto.
Qed.

(** X13.  On an environment constructed by [__init__] from its two
    loaders, in either mode and after any calls, a returning [step] with
    action 0 or 1 is rewarded [+1] when the action is the label at the
    cursor and [-1] when it is not: the labels the loaders produce are
    always 0 or 1, so the last arm of the reward branching is only reached
    by a correct 1. *)
Theorem loaded_environment_rewards (cfg : config)
    (torch_ascent : list float -> list float -> list Z -> list float
                    -> result (list float))
    (X_scaled : list (list float)) (Y_all : list Z) (p : list nat)
    (test_data test_prob : list (list float)) (pw : list float) (mel : Z)
    (e0 : env) (m : string) (cs : list env_call) (a : Z)
    (w : option (list float)) (r : step_result) (e' : env) :
  init_loaded X_scaled Y_all p test_data test_prob pw mel = Ok e0 ->
  step cfg torch_ascent a w (run_calls cfg torch_ascent cs (set_mode m e0))
  = (Ok r, e') ->
  a = 0 \/ a = 1 ->
  exists l,
    active_y (set_mode m e0)
    !! samplePointer (run_calls cfg torch_ascent cs (set_mode m e0)) = Some l /\
    (l = 0 \/ l = 1) /\
    sr_reward r = (if a =? l then 1 else -1).
Proof.
  intros Hinit Hstep Ha.
  assert (Hbin : Forall (fun l => l = 0 \/ l = 1) (active_y (set_mode m e0))).
  { revert Hinit. unfold init_loaded.
    destruct (DataPrep.load_data X_scaled Y_all p) as [[Xf Yf] |] eqn:Hload;
      [| discriminate].
    simpl. intros [= <-]. unfold active_y, is_train. simpl.
    destruct (String.eqb m "train").
    - exact (load_data_binary _ _ _ _ _ Hload).
    - exact (load_test_data_binary test_data test_prob). }
  destruct (step_returns cfg torch_ascent _ _ _ _ _ Hstep)
    as (l & Hl & Hrew & _).
  destruct (same_data_active _ _
              (run_calls_same_data cfg torch_ascent cs (set_mode m e0)))
    as [_ Hy].
  rewrite Hy in Hl. exists l. split; [exact Hl |].
  rewrite Forall_forall in Hbin.
  assert (Hlb : l = 0 \/ l = 1)
    by (apply Hbin; eapply list_elem_of_lookup_2; exact Hl).
  split; [exact Hlb |]. rewrite Hrew.
  destruct Ha as [-> | ->], Hlb as [-> | ->]; reflexivity.
Qed.

Lemma loaded_environment_rewards_witness :
  exists l,
    active_y
      (set_mode "test"
         (init [[4; 1]; [3; 1]; [1; 1]]%float [0; 1; 1]
            [[5; 1]; [6; 1]]%float [1; 0] [0.5; 0.25]%float 9))
    !! samplePointer
         (run_calls demo_config no_torch [CallReset]
            (set_mode "test"
               (init [[4; 1]; [3; 1]; [1; 1]]%float [0; 1; 1]
                  [[5; 1]; [6; 1]]%float [1; 0] [0.5; 0.25]%float 9)))
    = Some l /\
    (l = 0 \/ l = 1) /\
    sr_reward (StepResult (Some [5.5; 1]%float) (-1) false false
                 (Info 0 None))
    = (if 0 =? l then 1 else -1).
Proof.
  apply (loaded_environment_rewards demo_config no_torch
           [[1]; [2]; [3]; [4]]%float [1; 7; 1; 0] [2; 1; 0]%nat
           [[5]; [6]]%float [[0.75]; [nan]]%float [0.5; 0.25]%float 9
           (init [[4; 1]; [3; 1]; [1; 1]]%float [0; 1; 1]
              [[5; 1]; [6; 1]]%float [1; 0] [0.5; 0.25]%float 9)
           "test" [CallReset] 0 None
           (StepResult (Some [5.5; 1]%float) (-1) false false (Info 0 None))
           (set_trigger_once true
              (set_samplePointer 1
                 (set_mode "test"
                    (init [[4; 1]; [3; 1]; [1; 1]]%float [0; 1; 1]
                       [[5; 1]; [6; 1]]%float [1; 0] [0.5; 0.25]%float 9))))).
  - vm_compute. reflexivity.
  - vm_compute. reflexivity.
  - left. reflexivity.
Defined.

(* ------------------------------------------------------------------ *)
(** * Further properties of the agent *)

Lemma float_ltb_leb (x y : float) :
  (x <? y)%float = true -> (x <=? y)%float = true.
Proof.
  rewrite ltb_spec, leb_spec. unfold SFltb, SFleb.
  now destruct (SFcompare (Prim2SF x) (Prim2SF y)) as [[] |].
Qed.

(** [np.clip(x, -10, 10)] is a NaN (when [x] is) or lies in the range. *)
Lemma clip_within (x : float) :
  within_clip (Np.clip x (-10)%float 10%float).
Proof.
  unfold within_clip, Np.clip, Np.maximum, Np.minimum.
  destruct (is_nan x) eqn:Hnan.
  - rewrite Hnan. now left.
  - destruct (-10 <? x)%float eqn:Hlo.
    + rewrite Hnan. destruct (x <? 10)%float eqn:Hhi.
      * right. split; now apply float_ltb_leb.
      * right. split; reflexivity.
    + right. split; reflexivity.
Qed.

Section AgentOutcomes.

Variable np_exp : float -> float.
Variable dot_kernel : list float -> list float -> float.
Variable np_mean : list float -> float.
Variable shuffle : nat -> list transition -> list transition.

Local Abbreviation process := (process_transition np_exp dot_kernel).

(** One transition, whether it returns or raises: the two weight vectors
    keep their lengths, the per-step records are untouched, and the log of
    policy updates is as it was or one clipped term longer. *)
Lemma process_transition_outcome (t : transition) (a : agent) :
  length (q_weights (snd (process t a))) = length (q_weights a) /\
  length (previous_policy_weight (snd (process t a)))
  = length (previous_policy_weight a) /\
  training_error (snd (process t a)) = training_error a /\
  training_expected_acc_list (snd (process t a))
  = training_expected_acc_list a /\
  training_acc_detail (snd (process t a)) = training_acc_detail a /\
  training_rewards (snd (process t a)) = training_rewards a /\
  training_policy_weights (snd (process t a)) = training_policy_weights a /\
  training_batch_acc (snd (process t a)) = training_batch_acc a /\
  (training_single_policy_weight_update (snd (process t a))
   = training_single_policy_weight_update a \/
   exists u,
     training_single_policy_weight_update (snd (process t a))
     = training_single_policy_weight_update a ++ [u] /\
     Forall within_clip u).
Proof.
  unfold process_transition. eff_unfold. simpl.
  destruct (np_dot dot_kernel (q_weights a) _) as [qv |] eqn:Hd1; simpl;
    [| auto 10].
  apply np_dot_returns in Hd1. destruct Hd1 as [-> Hlq].
  match goal with
  | |- context [match ?m with Ok _ => _ | Raise _ => _ end] =>
      destruct m as [mx |]; simpl; [| auto 10]
  end.
  match goal with
  | |- context [Np.add ?u ?v] =>
      destruct (Np.add u v) as [qn |] eqn:Ha1; simpl; [| auto 10]
  end.
  apply add_returns in Ha1.
  assert (Hlqn : length qn = length (q_weights a)).
  { subst qn. rewrite length_zip_with. unfold Np.scale.
    rewrite length_map, <- Hlq. lia. }
  destruct (np_dot dot_kernel (previous_policy_weight a) (t_obs t))
    as [lg |] eqn:Hd2; simpl; [| auto 10].
  apply np_dot_returns in Hd2. destruct Hd2 as [-> Hlt].
  match goal with
  | |- context [Np.add ?u ?v] =>
      destruct (Np.add u v) as [tn |] eqn:Ha2; simpl; [| auto 10]
  end.
  apply add_returns in Ha2.
  split; [exact Hlqn |]. split.
  { subst tn. rewrite length_zip_with. unfold Np.clip_all, Np.div_all, Np.scale.
    rewrite !length_map, <- Hlt. lia. }
  repeat (split; [reflexivity |]).
  right. eexists. split; [reflexivity |].
  unfold Np.clip_all at 1. apply Forall_forall. intros u Hu.
  apply list_elem_of_In, in_map_iff in Hu. destruct Hu as (v & <- & _).
  apply clip_within.
Qed.

(** The loop of [batch_update], whether it runs to the end or raises. *)
Lemma for_each_outcome (batch : list transition) : forall a : agent,
  length (q_weights (snd (for_each batch process a))) = length (q_weights a) /\
  length (previous_policy_weight (snd (for_each batch process a)))
  = length (previous_policy_weight a) /\
  training_error (snd (for_each batch process a)) = training_error a /\
  training_expected_acc_list (snd (for_each batch process a))
  = training_expected_acc_list a /\
  training_acc_detail (snd (for_each batch process a))
  = training_acc_detail a /\
  training_rewards (snd (for_each batch process a)) = training_rewards a /\
  training_policy_weights (snd (for_each batch process a))
  = training_policy_weights a /\
  training_batch_acc (snd (for_each batch process a)) = training_batch_acc a /\
  exists us,
    training_single_policy_weight_update (snd (for_each batch process a))
    = training_single_policy_weight_update a ++ us /\
    Forall (Forall within_clip) us.
Proof.
  induction batch as [| t batch IH]; intros a; simpl.
  - repeat (split; [reflexivity |]). exists []. split; [| constructor].
    now rewrite app_nil_r.
  - unfold Eff.bindM.
    destruct (process_transition_outcome t a)
      as (Hq & Hth & He & Hx & Hd & Hr & Hp & Hb & Hlog).
    assert (Hlog' : exists us,
               training_single_policy_weight_update (snd (process t a))
               = training_single_policy_weight_update a ++ us /\
               Forall (Forall within_clip) us).
    { destruct Hlog as [Hsame | (u & Hu & Hclip)].
      - exists []. split; [now rewrite app_nil_r | constructor].
      - exists [u]. split; [exact Hu | now constructor]. }
    clear Hlog. destruct Hlog' as (us & Hus & Hclip).
    destruct (process t a) as [[pr | x] a1]; simpl in *.
    + destruct (IH a1) as (Hq' & Hth' & He' & Hx' & Hd' & Hr' & Hp' & Hb'
                           & us' & Hus' & Hclip').
      destruct (for_each batch process a1) as [[ps | x] a2]; simpl in *;
        (repeat (split; [congruence |]));
        exists (us ++ us'); (split; [| now apply Forall_app]);
        now rewrite Hus', Hus, app_assoc.
    + repeat (split; [assumption |]). now exists us.
Qed.

(** One call of [update], whether it returns or raises. *)
Lemma observe_frame (c : observed) (a : agent) :
  length (q_weights (snd (observe np_exp dot_kernel np_mean shuffle c a)))
  = length (q_weights a) /\
  length (previous_policy_weight
            (snd (observe np_exp dot_kernel np_mean shuffle c a)))
  = length (previous_policy_weight a) /\
  (exists us,
      training_single_policy_weight_update
        (snd (observe np_exp dot_kernel np_mean shuffle c a))
      = training_single_policy_weight_update a ++ us /\
      Forall (Forall within_clip) us) /\
  match fst (observe np_exp dot_kernel np_mean shuffle c a) with
  | Ok _ =>
      training_rewards (snd (observe np_exp dot_kernel np_mean shuffle c a))
      = training_rewards a ++ [o_reward c] /\
      training_policy_weights
        (snd (observe np_exp dot_kernel np_mean shuffle c a))
      = training_policy_weights a
        ++ [previous_policy_weight
              (snd (observe np_exp dot_kernel np_mean shuffle c a))] /\
      length (training_error
                (snd (observe np_exp dot_kernel np_mean shuffle c a)))
      = S (length (training_error a)) /\
      length (training_expected_acc_list
                (snd (observe np_exp dot_kernel np_mean shuffle c a)))
      = S (length (training_expected_acc_list a)) /\
      length (training_acc_detail
                (snd (observe np_exp dot_kernel np_mean shuffle c a)))
      = S (length (training_acc_detail a))
  | Raise _ =>
      training_rewards (snd (observe np_exp dot_kernel np_mean shuffle c a))
      = training_rewards a /\
      training_policy_weights
        (snd (observe np_exp dot_kernel np_mean shuffle c a))
      = training_policy_weights a /\
      training_error (snd (observe np_exp dot_kernel np_mean shuffle c a))
      = training_error a /\
      training_expected_acc_list
        (snd (observe np_exp dot_kernel np_mean shuffle c a))
      = training_expected_acc_list a /\
      training_acc_detail
        (snd (observe np_exp dot_kernel np_mean shuffle c a))
      = training_acc_detail a
  end.
Proof.
  rewrite observe_unfold. cbv zeta.
  set (a1 := set_buffer (deque_append (buffer_size a) (buffer a) (sample_of c))
               a).
  destruct (Nat.leb_spec (buffer_size a1) (length (buffer a1)))
    as [Hfull | Hless].
  - rewrite batch_update_full by exact Hfull.
    destruct (for_each_outcome
                (shuffle (batch_update_count a1) (buffer a1))
                (set_batch_update_count (S (batch_update_count a1)) a1))
      as (Hq & Hth & He & Hx & Hd & Hr & Hp & Hb & us & Hus & Hclip).
    destruct (for_each _ process _) as [[accs | x] a2]; simpl in *.
    + rewrite Hq, Hth, Hus, He, Hx, Hd, Hr, Hp, !length_app. simpl.
      repeat split; try lia. now exists us.
    + rewrite Hq, Hth, Hus, He, Hx, Hd, Hr, Hp.
      repeat split. now exists us.
  - simpl. rewrite !length_app. simpl.
    repeat split; try lia. exists []. split; [now rewrite app_nil_r |].
    constructor.
Qed.

End AgentOutcomes.

(** X14.  No policy update is ever applied unclipped: if every term logged
    in [training_single_policy_weight_update] has all its components NaN
    or within [-10, 10] (a new agent's log is empty), this is still so after
    any sequence of [update] calls, returning or raising. *)
Theorem policy_updates_stay_clipped (np_exp : float -> float)
    (dot_kernel : list float -> list float -> float)
    (np_mean : list float -> float)
    (shuffle : nat -> list transition -> list transition)
    (cs : list observed) (a0 : agent) :
  Forall (Forall within_clip) (training_single_policy_weight_update a0) ->
  Forall (Forall within_clip)
    (training_single_policy_weight_update
       (observe_all np_exp dot_kernel np_mean shuffle cs a0)).
Proof.
  revert a0. induction cs as [| c cs IH]; intros a0 Hclip; simpl;
    [exact Hclip |].
  apply IH.
  destruct (observe_frame np_exp dot_kernel np_mean shuffle c a0)
    as (_ & _ & (us & -> & Hus) & _).
  now apply Forall_app.
Qed.

Lemma policy_updates_stay_clipped_witness :
  Forall (Forall within_clip)
    (training_single_policy_weight_update
       (observe_all exp_series dot_seq mean_seq shuffle_rev demo_calls
          (demo_agent 2))).
Proof.
  apply (policy_updates_stay_clipped exp_series dot_seq mean_seq shuffle_rev
           demo_calls (demo_agent 2)).
  simpl. constructor.
Defined.

(** X15.  The critic weights and the policy weights keep their lengths
    through any sequence of [update] calls, returning or raising. *)
Theorem weights_keep_their_lengths (np_exp : float -> float)
    (dot_kernel : list float -> list float -> float)
    (np_mean : list float -> float)
    (shuffle : nat -> list transition -> list transition)
    (cs : list observed) (a0 : agent) :
  length (q_weights (observe_all np_exp dot_kernel np_mean shuffle cs a0))
  = length (q_weights a0) /\
  length (previous_policy_weight
            (observe_all np_exp dot_kernel np_mean shuffle cs a0))
  = length (previous_policy_weight a0).
Proof.
  revert a0. induction cs as [| c cs IH]; intros a0; simpl; [auto |].
  destruct (IH (snd (observe np_exp dot_kernel np_mean shuffle c a0)))
    as (Hq & Hth).
  destruct (observe_frame np_exp dot_kernel np_mean shuffle c a0)
    as (Hq' & Hth' & _).
  split; congruence.
Qed.

(** X16.  The five per-step records of [update] grow in lock step: from an
    agent where they all have [n] entries, after any sequence of calls they
    all have [n + m] entries, [m] being at most the number of calls (a call
    that raises appends to none of them); and a call that returns has
    appended its reward and the policy weights as they are after the
    call. *)
Theorem step_records_in_lock_step (np_exp : float -> float)
    (dot_kernel : list float -> list float -> float)
    (np_mean : list float -> float)
    (shuffle : nat -> list transition -> list transition)
    (cs : list observed) (c : observed) (a0 : agent) (n : nat) :
  length (training_error a0) = n ->
  length (training_expected_acc_list a0) = n ->
  length (training_acc_detail a0) = n ->
  length (training_rewards a0) = n ->
  length (training_policy_weights a0) = n ->
  (exists m : nat,
      (m <= length cs)%nat /\
      length (training_error
                (observe_all np_exp dot_kernel np_mean shuffle cs a0))
      = (n + m)%nat /\
      length (training_expected_acc_list
                (observe_all np_exp dot_kernel np_mean shuffle cs a0))
      = (n + m)%nat /\
      length (training_acc_detail
                (observe_all np_exp dot_kernel np_mean shuffle cs a0))
      = (n + m)%nat /\
      length (training_rewards
                (observe_all np_exp dot_kernel np_mean shuffle cs a0))
      = (n + m)%nat /\
      length (training_policy_weights
                (observe_all np_exp dot_kernel np_mean shuffle cs a0))
      = (n + m)%nat) /\
  (fst (observe np_exp dot_kernel np_mean shuffle c a0) = Ok tt ->
   training_rewards (snd (observe np_exp dot_kernel np_mean shuffle c a0))
   = training_rewards a0 ++ [o_reward c] /\
   training_policy_weights
     (snd (observe np_exp dot_kernel np_mean shuffle c a0))
   = training_policy_weights a0
     ++ [previous_policy_weight
           (snd (observe np_exp dot_kernel np_mean shuffle c a0))]).
Proof.
  intros He Hx Hd Hr Hp. split.
  - revert a0 n He Hx Hd Hr Hp.
    induction cs as [| c' cs IH]; intros a0 n He Hx Hd Hr Hp; simpl.
    + exists 0%nat. repeat split; lia.
    + pose proof (observe_frame np_exp dot_kernel np_mean shuffle c' a0)
        as (_ & _ & _ & Hrec).
      destruct (fst (observe np_exp dot_kernel np_mean shuffle c' a0)).
      * destruct Hrec as (Hr' & Hp' & He' & Hx' & Hd').
        destruct (IH (snd (observe np_exp dot_kernel np_mean shuffle c' a0))
                    (S n)) as (m & Hm & Hall); try lia.
        { rewrite Hr', length_app. simpl. lia. }
        { rewrite Hp', length_app. simpl. lia. }
        exists (S m). split; [lia |].
        replace (n + S m)%nat with (S n + m)%nat by lia. exact Hall.
      * destruct Hrec as (Hr' & Hp' & He' & Hx' & Hd').
        destruct (IH (snd (observe np_exp dot_kernel np_mean shuffle c' a0)) n)
          as (m & Hm & Hall); try congruence.
        exists m. split; [lia | exact Hall].
  - intros Hok.
    pose proof (observe_frame np_exp dot_kernel np_mean shuffle c a0)
      as (_ & _ & _ & Hrec).
    rewrite Hok in Hrec. destruct Hrec as (Hr' & Hp' & _). auto.
Qed.

Lemma step_records_in_lock_step_witness :
  exists m : nat,
    (m <= length demo_calls)%nat /\
    length (training_rewards
              (observe_all exp_series dot_seq mean_seq shuffle_rev demo_calls
                 (demo_agent 2))) = (0 + m)%nat /\
    length (training_policy_weights
              (observe_all exp_series dot_seq mean_seq shuffle_rev demo_calls
                 (demo_agent 2))) = (0 + m)%nat.
Proof.
  destruct (step_records_in_lock_step exp_series dot_seq mean_seq shuffle_rev
              demo_calls
              (Observed [1; 1]%float 0 1%float false
                 (Info 0 (Some [2; 1]%float)) 0.5%float)
              (demo_agent 2) 0)
    as ((m & Hm & _ & _ & _ & Hr & Hp) & _); try reflexivity.
  exists m. auto.
Defined.

Section BatchingFacts.

Variable np_exp : float -> float.
Variable dot_kernel : list float -> list float -> float.
Variable np_mean : list float -> float.
Variable shuffle : nat -> list transition -> list transition.
Hypothesis shuffle_permutes :
  forall (n : nat) (l : list transition), Permutation (shuffle n l) l.

Local Abbreviation process := (process_transition np_exp dot_kernel).
Local Abbreviation observe' := (observe np_exp dot_kernel np_mean shuffle).
Local Abbreviation observe_all' :=
  (observe_all np_exp dot_kernel np_mean shuffle).

(** A loop that returns has logged one policy term per transition. *)
Lemma for_each_log_length (batch : list transition) :
  forall (a a' : agent) (accs : list float),
    for_each batch process a = (Ok accs, a') ->
    length (training_single_policy_weight_update a')
    = (length (training_single_policy_weight_update a) + length batch)%nat.
Proof.
  induction batch as [| t batch IH]; intros a a' accs; simpl.
  - unfold Eff.ret. intros [= _ <-]. lia.
  - unfold Eff.bindM.
    destruct (process t a) as [[p | x] a1] eqn:Hp; [| discriminate].
    destruct (for_each batch process a1) as [[ps | x] a2] eqn:Hrest;
      [| discriminate].
    unfold Eff.ret. intros [= _ <-].
    apply process_transition_returns in Hp.
    destruct Hp as (_ & Hlog & _).
    rewrite (IH _ _ _ Hrest), Hlog, length_app. simpl. lia.
Qed.

(** A call that leaves the buffer below capacity only buffers. *)
Lemma observe_below (c : observed) (a : agent) :
  (S (length (buffer a)) < buffer_size a)%nat ->
  fst (observe' c a) = Ok tt /\
  buffer (snd (observe' c a)) = buffer a ++ [sample_of c] /\
  buffer_size (snd (observe' c a)) = buffer_size a /\
  batch_update_count (snd (observe' c a)) = batch_update_count a /\
  previous_policy_weight (snd (observe' c a)) = previous_policy_weight a /\
  q_weights (snd (observe' c a)) = q_weights a /\
  training_single_policy_weight_update (snd (observe' c a))
  = training_single_policy_weight_update a /\
  length (training_rewards (snd (observe' c a)))
  = S (length (training_rewards a)).
Proof.
  intros Hlt. rewrite observe_unfold. cbv zeta.
  assert (Hb : deque_append (buffer_size a) (buffer a) (sample_of c)
               = buffer a ++ [sample_of c]).
  { unfold deque_append.
    destruct (Nat.ltb_spec (buffer_size a)
                (length (buffer a ++ [sample_of c]))) as [H | H];
      [| reflexivity].
    rewrite length_app in H. simpl in H. lia. }
  rewrite Hb.
  change (buffer_size (set_buffer (buffer a ++ [sample_of c]) a))
    with (buffer_size a).
  change (buffer (set_buffer (buffer a ++ [sample_of c]) a))
    with (buffer a ++ [sample_of c]).
  destruct (Nat.leb_spec (buffer_size a)
              (length (buffer a ++ [sample_of c]))) as [H | H].
  - rewrite length_app in H. simpl in H. lia.
  - simpl. rewrite length_app. simpl. repeat split; lia.
Qed.

(** The call that fills the buffer runs the batch to the end: the buffer is
    cleared, the update counted, one policy term logged per buffered
    transition. *)
Lemma observe_filling (c : observed) (a : agent) :
  S (length (buffer a)) = buffer_size a ->
  Forall (well_shaped (length (previous_policy_weight a))) (buffer a) ->
  well_shaped (length (previous_policy_weight a)) (sample_of c) ->
  length (q_weights a) = S (length (previous_policy_weight a)) ->
  fst (observe' c a) = Ok tt /\
  buffer (snd (observe' c a)) = [] /\
  buffer_size (snd (observe' c a)) = buffer_size a /\
  batch_update_count (snd (observe' c a)) = S (batch_update_count a) /\
  length (training_single_policy_weight_update (snd (observe' c a)))
  = (length (training_single_policy_weight_update a) + buffer_size a)%nat /\
  length (training_rewards (snd (observe' c a)))
  = S (length (training_rewards a)).
Proof.
  intros Hfill Hshape Hc Hq. rewrite observe_unfold. cbv zeta.
  assert (Hb : deque_append (buffer_size a) (buffer a) (sample_of c)
               = buffer a ++ [sample_of c]).
  { unfold deque_append.
    destruct (Nat.ltb_spec (buffer_size a)
                (length (buffer a ++ [sample_of c]))) as [H | H];
      [| reflexivity].
    rewrite length_app in H. simpl in H. lia. }
  rewrite Hb.
  set (a1 := set_buffer (buffer a ++ [sample_of c]) a).
  assert (Hlen1 : length (buffer a1) = buffer_size a1).
  { subst a1. simpl. rewrite length_app. simpl. lia. }
  destruct (Nat.leb_spec (buffer_size a1) (length (buffer a1))) as [H | H];
    [| lia].
  rewrite batch_update_full by exact H.
  destruct (for_each_ready np_exp dot_kernel
              (shuffle (batch_update_count a1) (buffer a1))
              (set_batch_update_count (S (batch_update_count a1)) a1))
    as (accs & a2 & Hloop).
  { simpl. rewrite shuffle_permutes. apply Forall_app. split; [exact Hshape |].
    now constructor. }
  { exact Hq. }
  rewrite Hloop.
  destruct (for_each_frame np_exp dot_kernel
              (shuffle (batch_update_count a1) (buffer a1))
              (set_batch_update_count (S (batch_update_count a1)) a1))
    as (_ & Hsize & Hcount).
  rewrite Hloop in Hsize, Hcount. simpl in Hsize, Hcount.
  pose proof (for_each_log_length _ _ _ _ Hloop) as Hlog.
  destruct (for_each_outcome np_exp dot_kernel
              (shuffle (batch_update_count a1) (buffer a1))
              (set_batch_update_count (S (batch_update_count a1)) a1))
    as (_ & _ & _ & _ & _ & Hr & _).
  rewrite Hloop in Hr. simpl in Hr, Hlog |- *.
  rewrite (Permutation_length (shuffle_permutes _ _)) in Hlog.
  rewrite Hr, length_app, Hlog, Hsize, Hcount. simpl.
  simpl in Hlen1. rewrite Hlen1. repeat split; lia.
Qed.

Lemma observe_all_batches (cs : list observed) : forall a : agent,
  (length (buffer a) < buffer_size a)%nat ->
  Forall (well_shaped (length (previous_policy_weight a))) (buffer a) ->
  length (q_weights a) = S (length (previous_policy_weight a)) ->
  Forall (fun c => well_shaped (length (previous_policy_weight a))
                     (sample_of c)) cs ->
  exists q r : nat,
    (length (buffer a) + length cs = q * buffer_size a + r)%nat /\
    (r < buffer_size a)%nat /\
    batch_update_count (observe_all' cs a) = (batch_update_count a + q)%nat /\
    buffer (observe_all' cs a)
    = drop (q * buffer_size a) (buffer a ++ map sample_of cs) /\
    length (training_single_policy_weight_update (observe_all' cs a))
    = (length (training_single_policy_weight_update a)
       + q * buffer_size a)%nat /\
    length (training_rewards (observe_all' cs a))
    = (length (training_rewards a) + length cs)%nat /\
    (forall (k : nat) (c : observed),
       cs !! k = Some c ->
       fst (observe' c (observe_all' (take k cs) a)) = Ok tt).
Proof.
  induction cs as [| c cs IH]; intros a Hlt Hshape Hq Hcs; simpl.
  - exists 0%nat, (length (buffer a)). simpl.
    rewrite app_nil_r. repeat split; try lia.
    intros k c Hk. now rewrite lookup_nil in Hk.
  - inversion Hcs as [| ? ? Hc Hrest]; subst.
    destruct (Nat.eq_dec (S (length (buffer a))) (buffer_size a))
      as [Hfill | Hbelow].
    + destruct (observe_filling c a Hfill Hshape Hc Hq)
        as (Hok & Hbuf & Hsize & Hcount & Hlog & Hrew).
      destruct (observe_frame np_exp dot_kernel np_mean shuffle c a)
        as (Hlq & Hlth & _).
      destruct (IH (snd (observe' c a)))
        as (q & r & Heq & Hr & Hc' & Hb' & Hl' & Hr' & Hret).
      * rewrite Hbuf, Hsize. simpl. lia.
      * rewrite Hbuf. constructor.
      * now rewrite Hlq, Hlth.
      * now rewrite Hlth.
      * rewrite Hbuf, Hsize in *. simpl in Heq, Hb'.
        exists (S q), r. rewrite Hc', Hcount, Hb', Hl', Hlog, Hr', Hrew.
        split; [lia |]. split; [lia |]. split; [lia |].
        split; [| split; [lia | split; [lia |]]].
        2: { intros [| k] c' Hk; simpl in *.
             - now inversion Hk; subst.
             - now apply Hret. }
        replace (S q * buffer_size a)%nat
          with (length (buffer a ++ [sample_of c]) + q * buffer_size a)%nat
          by (rewrite length_app; simpl; lia).
        rewrite (app_assoc (buffer a) [sample_of c] (map sample_of cs)
                 : buffer a ++ sample_of c :: map sample_of cs
                   = (buffer a ++ [sample_of c]) ++ map sample_of cs).
        now rewrite drop_app_add.
    + destruct (observe_below c a) as (Hok & Hbuf & Hsize & Hcount & Hth & Hqw
                                       & Hlog & Hrew); [lia |].
      destruct (IH (snd (observe' c a)))
        as (q & r & Heq & Hr & Hc' & Hb' & Hl' & Hr' & Hret).
      * rewrite Hbuf, Hsize, length_app. simpl. lia.
      * rewrite Hbuf, Hth. apply Forall_app. split; [exact Hshape |].
        now constructor.
      * now rewrite Hqw, Hth.
      * now rewrite Hth.
      * rewrite Hbuf, Hsize in *. rewrite length_app in Heq. simpl in Heq.
        exists q, r. rewrite Hc', Hcount, Hb', Hl', Hlog, Hr', Hrew.
        split; [lia |]. split; [lia |]. split; [lia |].
        split; [| split; [lia | split; [lia |]]].
        2: { intros [| k] c' Hk; simpl in *.
             - now inversion Hk; subst.
             - now apply Hret. }
        now rewrite <- app_assoc.
Qed.

End BatchingFacts.

(** X17.  Batches come every [buffer_size] calls, each over exactly the
    transitions buffered since the last one.  For an agent with capacity
    [N > 0] and an empty buffer, transitions of the shape of the weights and
    a shuffle that permutes: after [n] calls of [update], all of which
    return, [n / N] batch updates have run, [N] policy terms have been
    logged per batch, and the buffer holds the last [n mod N] transitions
    in the order they came; none was dropped and none is processed
    twice. *)
Theorem batches_every_capacity_calls (np_exp : float -> float)
    (dot_kernel : list float -> list float -> float)
    (np_mean : list float -> float)
    (shuffle : nat -> list transition -> list transition)
    (cs : list observed) (a : agent) :
  (forall (n : nat) (l : list transition), Permutation (shuffle n l) l) ->
  (0 < buffer_size a)%nat ->
  buffer a = [] ->
  length (q_weights a) = S (length (previous_policy_weight a)) ->
  Forall (fun c => well_shaped (length (previous_policy_weight a))
                     (sample_of c)) cs ->
  batch_update_count (observe_all np_exp dot_kernel np_mean shuffle cs a)
  = (batch_update_count a + length cs / buffer_size a)%nat /\
  buffer (observe_all np_exp dot_kernel np_mean shuffle cs a)
  = map sample_of (drop (buffer_size a * (length cs / buffer_size a)) cs) /\
  length (buffer (observe_all np_exp dot_kernel np_mean shuffle cs a))
  = (length cs mod buffer_size a)%nat /\
  length (training_single_policy_weight_update
            (observe_all np_exp dot_kernel np_mean shuffle cs a))
  = (length (training_single_policy_weight_update a)
     + buffer_size a * (length cs / buffer_size a))%nat /\
  length (training_rewards
            (observe_all np_exp dot_kernel np_mean shuffle cs a))
  = (length (training_rewards a) + length cs)%nat /\
  (forall (k : nat) (c : observed),
     cs !! k = Some c ->
     fst (observe np_exp dot_kernel np_mean shuffle c
            (observe_all np_exp dot_kernel np_mean shuffle (take k cs) a))
     = Ok tt).
Proof.
  intros Hperm Hpos Hempty Hq Hcs.
  destruct (observe_all_batches np_exp dot_kernel np_mean shuffle Hperm cs a)
    as (q & r & Heq & Hr & Hcount & Hbuf & Hlog & Hrew & Hret);
    try assumption.
  { rewrite Hempty. simpl. lia. }
  { rewrite Hempty. constructor. }
  rewrite Hempty in Heq, Hbuf. simpl in Heq, Hbuf.
  assert (Hdiv : (length cs / buffer_size a)%nat = q).
  { symmetry. apply (Nat.div_unique _ _ q r); [exact Hr | lia]. }
  assert (Hmod : (length cs mod buffer_size a)%nat = r).
  { symmetry. apply (Nat.mod_unique _ _ q r); [exact Hr | lia]. }
  rewrite Hdiv, Hmod, Hcount, Hlog, Hrew, Hbuf.
  replace (buffer_size a * q)%nat with (q * buffer_size a)%nat by lia.
  split; [reflexivity |]. split; [| split; [| split; [reflexivity |]]].
  - now rewrite <- (fmap_drop sample_of).
  - rewrite length_drop, length_map. lia.
  - split; [reflexivity | exact Hret].
Qed.

Lemma batches_every_capacity_calls_witness :
  batch_update_count
    (observe_all exp_series dot_seq mean_seq shuffle_rev
       (demo_calls ++ demo_calls ++ firstn 1 demo_calls) (demo_agent 2))
  = 2%nat /\
  buffer
    (observe_all exp_series dot_seq mean_seq shuffle_rev
       (demo_calls ++ demo_calls ++ firstn 1 demo_calls) (demo_agent 2))
  = [Transition [1; 1]%float 0 1%float false (Some [2; 1]%float) 0].
Proof.
  destruct (batches_every_capacity_calls exp_series dot_seq mean_seq
              shuffle_rev (demo_calls ++ demo_calls ++ firstn 1 demo_calls)
              (demo_agent 2))
    as (Hcount & Hbuf & _).
  - intros n l. unfold shuffle_rev. symmetry. apply Permutation_rev.
  - simpl. lia.
  - reflexivity.
  - reflexivity.
  - repeat constructor.
  - split; [exact Hcount | exact Hbuf].
Defined.
